(** * Local-video-server: discovery and protocol-classification engine

    A shallow embedding of the Go sources of the scanner, the RTSP detector,
    the RTSP session client, the SDP parser, the orchestrator merge and the
    device registry, followed by the properties established about them.

    Conventions of the embedding.
    - A Go [string] is a sequence of bytes: Rocq's [string] (a list of
      [ascii]).  Go's [int] is [Z]; lengths and indices that the code only
      uses as sizes are [nat].
    - A Go [[]byte] holding an IP address is a [list Z] of bytes, with the
      8-bit wrap-around written out.
    - A Go map is a [gmap]; a slice is a [list].
    - A pointer receiver that is mutated in place becomes a function
      returning the updated record.
    - [time.Now()] and the network are inputs of the functions that read
      them: instants are [Z] (nanoseconds), with [0] the zero [time.Time].
    - A function that returns [(v, error)] returns a [result]; a run-time
      panic (slice or index out of range) is the [None] of an [option]. *)

From Stdlib Require Import ZArith Lia List Bool Ascii String DecimalString.
From Stdlib Require DecimalPos DecimalZ.
From stdpp Require Import base option list strings gmap.

Local Open Scope Z_scope.

(** [(v, error)] results. *)
Inductive result (A : Type) : Type :=
| Ok (a : A)
| Err (msg : string).
Arguments Ok {A} a.
Arguments Err {A} msg.

(* ===================================================================== *)
(** ** The Go standard library, as far as the sources use it             *)
(* ===================================================================== *)

Module GoStrings.

Definition CR : ascii := "013"%char.
Definition LF : ascii := "010"%char.
Definition CRLF : string := String CR (String LF EmptyString).

(** [len(s)] *)
Definition len (s : string) : Z := Z.of_nat (String.length s).

(** [strings.HasPrefix(s, prefix)] *)
Definition HasPrefix (s prefix : string) : bool := String.prefix prefix s.

(** [strings.Contains(s, substr)] *)
Fixpoint Contains (s substr : string) : bool :=
  String.prefix substr s ||
  match s with
  | EmptyString => false
  | String _ s' => Contains s' substr
  end.

(** [strings.Index(s, substr)], [None] standing for Go's [-1]. *)
Fixpoint Index (s substr : string) : option nat :=
  if String.prefix substr s then Some O
  else match s with
       | EmptyString => None
       | String _ s' => S <$> Index s' substr
       end.

(** [s[lo:]], [s[:hi]] and [s[lo:hi]]: out of range is a panic. *)
Fixpoint slice_from (s : string) (lo : nat) : option string :=
  match lo, s with
  | O, _ => Some s
  | S lo', String _ s' => slice_from s' lo'
  | S _, EmptyString => None
  end.

Fixpoint slice_to (s : string) (hi : nat) : option string :=
  match hi, s with
  | O, _ => Some EmptyString
  | S hi', String c s' => String c <$> slice_to s' hi'
  | S _, EmptyString => None
  end.

Definition slice (s : string) (lo hi : nat) : option string :=
  if (hi <? lo)%nat then None
  else t ← slice_to s hi; slice_from t lo.

(** [s[i]]: out of range is a panic. *)
Definition byte_at (s : string) (i : nat) : option ascii := String.get i s.

(** [strings.Split(s, sep)] and [strings.SplitN(s, sep, n)].  Every call
    in the sources passes a separator of one byte, so [sep] is that byte. *)
Fixpoint Split (s : string) (sep : ascii) : list string :=
  match s with
  | EmptyString => [EmptyString]
  | String c s' =>
      if Ascii.eqb c sep then EmptyString :: Split s' sep
      else match Split s' sep with
           | h :: t => String c h :: t
           | [] => [String c EmptyString]
           end
  end.

Fixpoint SplitN_pos (s : string) (sep : ascii) (n : nat) {struct s}
  : list string :=
  match n with
  | O => []
  | S O => [s]
  | S (S _ as n') =>
      match s with
      | EmptyString => [EmptyString]
      | String c s' =>
          if Ascii.eqb c sep then EmptyString :: SplitN_pos s' sep n'
          else match SplitN_pos s' sep n with
               | h :: t => String c h :: t
               | [] => [String c EmptyString]
               end
      end
  end.

Definition SplitN (s : string) (sep : ascii) (n : Z) : list string :=
  if n <? 0 then Split s sep else SplitN_pos s sep (Z.to_nat n).

(** [strings.Trim(s, cutset)] for a cutset of one byte. *)
Fixpoint TrimLeft1 (s : string) (c : ascii) : string :=
  match s with
  | String d s' => if Ascii.eqb d c then TrimLeft1 s' c else s
  | EmptyString => EmptyString
  end.

Fixpoint TrimRight1 (s : string) (c : ascii) : string :=
  match s with
  | EmptyString => EmptyString
  | String d s' =>
      match TrimRight1 s' c with
      | EmptyString => if Ascii.eqb d c then EmptyString else String d EmptyString
      | t => String d t
      end
  end.

Definition Trim1 (s : string) (c : ascii) : string :=
  TrimRight1 (TrimLeft1 s c) c.

(** The white space of [unicode.IsSpace] in the ASCII range:
    tab, line feed, vertical tab, form feed, carriage return, space. *)
Definition isSpace (c : ascii) : bool :=
  let n := nat_of_ascii c in
  ((9 <=? n) && (n <=? 13) || (n =? 32))%nat.

Definition isDigit (c : ascii) : bool :=
  let n := nat_of_ascii c in ((48 <=? n) && (n <=? 57))%nat.

Definition digitVal (c : ascii) : Z := Z.of_nat (nat_of_ascii c) - 48.

(** The functions of package [strings] whose result depends on Unicode
    tables.  The sources are written against this interface; the
    properties that hold whatever these functions return are stated for
    every implementation, the evaluations on ASCII text use [ascii_text]. *)
Class Text : Type := {
  TrimSpace : string → string;
  Fields : string → list string;
  ToUpper : string → string
}.

Fixpoint trimLeftSpace (s : string) : string :=
  match s with
  | String c s' => if isSpace c then trimLeftSpace s' else s
  | EmptyString => EmptyString
  end.

Fixpoint trimRightSpace (s : string) : string :=
  match s with
  | EmptyString => EmptyString
  | String c s' =>
      match trimRightSpace s' with
      | EmptyString => if isSpace c then EmptyString else String c EmptyString
      | t => String c t
      end
  end.

Fixpoint fieldsFrom (s : string) (cur : option string) : list string :=
  match s with
  | EmptyString => match cur with Some w => [w] | None => [] end
  | String c s' =>
      if isSpace c then
        match cur with
        | Some w => w :: fieldsFrom s' None
        | None => fieldsFrom s' None
        end
      else
        fieldsFrom s' (Some (match cur with
                             | Some w => w +:+ String c EmptyString
                             | None => String c EmptyString
                             end))
  end.

Definition upperByte (c : ascii) : ascii :=
  let n := nat_of_ascii c in
  if ((97 <=? n) && (n <=? 122))%nat then ascii_of_nat (n - 32) else c.

Fixpoint mapBytes (f : ascii → ascii) (s : string) : string :=
  match s with
  | EmptyString => EmptyString
  | String c s' => String (f c) (mapBytes f s')
  end.

(** The three functions on text whose bytes are all below 128. *)
#[export] Instance ascii_text : Text := {|
  TrimSpace s := trimRightSpace (trimLeftSpace s);
  Fields s := fieldsFrom s None;
  ToUpper s := mapBytes upperByte s
|}.

(** [strconv.Atoi]: an optional sign, then one or more decimal digits,
    within the range of a 64-bit [int]; [None] is the error. *)
Fixpoint digitsVal (s : string) (acc : Z) : option Z :=
  match s with
  | EmptyString => Some acc
  | String c s' =>
      if isDigit c then digitsVal s' (acc * 10 + digitVal c) else None
  end.

Definition unsignedVal (s : string) : option Z :=
  match s with
  | EmptyString => None
  | _ => digitsVal s 0
  end.

Definition inInt64 (v : Z) : bool := (- 2 ^ 63 <=? v) && (v <? 2 ^ 63).

Definition Atoi (s : string) : option Z :=
  v ← match s with
      | String "-" s' => Z.opp <$> unsignedVal s'
      | String "+" s' => unsignedVal s'
      | _ => unsignedVal s
      end;
  if inInt64 v then Some v else None.

(** [bufio.Reader.ReadString('\n')] on the bytes still to come from the
    peer: the line up to and including the first line feed and the rest
    of the input, or [None] (an error: end of input or deadline) when no
    line feed arrives. *)
Fixpoint ReadString (input : string) : option (string * string) :=
  match input with
  | EmptyString => None
  | String c rest =>
      if Ascii.eqb c LF then Some (String c EmptyString, rest)
      else '(line, rest') ← ReadString rest; Some (String c line, rest')
  end.

(** [io.ReadFull(reader, buf)] with [len(buf) = n]. *)
Fixpoint ReadFull (input : string) (n : nat) : option (string * string) :=
  match n, input with
  | O, _ => Some (EmptyString, input)
  | S n', String c rest =>
      '(body, rest') ← ReadFull rest n'; Some (String c body, rest')
  | S _, EmptyString => None
  end.

(** [strings.TrimPrefix(s, prefix)] *)
Definition TrimPrefix (s prefix : string) : string :=
  if HasPrefix s prefix then
    match slice_from s (String.length prefix) with
    | Some t => t
    | None => s
    end
  else s.

End GoStrings.

(** Package [fmt], as far as the format strings of the sources need it. *)
Module Fmt.

(** The verb [%d] on an [int]. *)
Definition itoa (n : Z) : string := NilZero.string_of_int (Z.to_int n).

(** An argument of [Sprintf]. *)
Inductive arg : Type :=
| S_ (s : string)
| D_ (n : Z).

Definition verb (c : ascii) (a : arg) : string :=
  match a with
  | S_ s => s
  | D_ n => itoa n
  end.

(** [fmt.Sprintf(format, args...)] for formats made of text, [%s] and
    [%d], given as many arguments as the format has verbs. *)
Fixpoint Sprintf (format : string) (args : list arg) : string :=
  match format with
  | EmptyString => EmptyString
  | String "%" (String v rest) =>
      match args with
      | a :: args' => verb v a +:+ Sprintf rest args'
      | [] => String "%" (String v (Sprintf rest []))
      end
  | String c rest => String c (Sprintf rest args)
  end.

End Fmt.

(** Package [net]: IPv4 addresses, masks and CIDR parsing.  Addresses are
    the 4-byte form; the IPv6 text forms that [net.ParseCIDR] also accepts
    are not part of this model (they parse to an error here). *)
Module Net.
Import GoStrings.

Definition IP : Type := list Z.
Definition IPMask : Type := list Z.

Record IPNet : Type := { IPNet_IP : IP; IPNet_Mask : IPMask }.

(** [net.CIDRMask(ones, bits)]: the loop over the [bits/8] bytes. *)
Fixpoint CIDRMask_loop (l : nat) (n : Z) : IPMask :=
  match l with
  | O => []
  | S l' =>
      if 8 <=? n then 255 :: CIDRMask_loop l' (n - 8)
      else Z.lxor 255 (Z.shiftr 255 n) :: CIDRMask_loop l' 0
  end.

Definition CIDRMask (ones bits : Z) : IPMask :=
  if negb (bits =? 32) || (ones <? 0) || (bits <? ones) then []
  else CIDRMask_loop (Z.to_nat (bits / 8)) ones.

(** [ip.Mask(mask)] on operands of equal length. *)
Fixpoint maskBytes (ip : IP) (mask : IPMask) : IP :=
  match ip, mask with
  | b :: ip', m :: mask' => Z.land b m :: maskBytes ip' mask'
  | _, _ => []
  end.

Definition Mask (ip : IP) (mask : IPMask) : IP :=
  if (length ip =? length mask)%nat then maskBytes ip mask else [].

(** [n.Contains(ip)] *)
Fixpoint containsBytes (nn : IP) (m : IPMask) (ip : IP) : bool :=
  match nn, m, ip with
  | [], _, _ => true
  | n0 :: nn', m0 :: m', x :: ip' =>
      if Z.land n0 m0 =? Z.land x m0 then containsBytes nn' m' ip' else false
  | _, _, _ => false
  end.

Definition Contains (n : IPNet) (ip : IP) : bool :=
  if (length ip =? length (IPNet_IP n))%nat
  then containsBytes (IPNet_IP n) (IPNet_Mask n) ip
  else false.

(** [ip.Equal(x)] on addresses of equal length. *)
Definition Equal (ip x : IP) : bool := bool_decide (ip = x).

(** [ip.String()]: dotted decimal for a 4-byte address. *)
Definition String_ (ip : IP) : string :=
  match ip with
  | [] => "<nil>"
  | [a; b; c; d] =>
      Fmt.itoa a +:+ "." +:+ Fmt.itoa b +:+ "." +:+ Fmt.itoa c +:+ "."
        +:+ Fmt.itoa d
  | _ => "?"
  end.

(** The IPv4 parser behind [net.ParseCIDR]: four decimal fields of at
    most 255 separated by dots, no leading zero in a field. *)
Fixpoint parseIPv4_loop (s : string) (fields : list Z) (val : Z)
    (digLen : nat) : option IP :=
  match s with
  | EmptyString =>
      if (length fields <? 3)%nat then None else Some (fields ++ [val])
  | String c s' =>
      if isDigit c then
        if (digLen =? 1)%nat && (val =? 0) then None
        else
          let val' := val * 10 + digitVal c in
          if 255 <? val' then None
          else parseIPv4_loop s' fields val' (S digLen)
      else if Ascii.eqb c "." then
        if (digLen =? 0)%nat then None
        else if bool_decide (s' = EmptyString) then None
        else if (length fields =? 3)%nat then None
        else parseIPv4_loop s' (fields ++ [val]) 0 0
      else None
  end.

Definition parseIPv4 (s : string) : option IP := parseIPv4_loop s [] 0 0.

(** [net.ParseIP(s)] on IPv4 text; [None] is the nil address. *)
Definition ParseIP (s : string) : option IP := parseIPv4 s.

(** [dtoi]: the leading decimal digits of [s], how many there are, and
    whether there is at least one and the value stays below [0xFFFFFF]. *)
Definition big : Z := 16777215.

Fixpoint dtoi_loop (s : string) (n : Z) (i : nat) : Z * nat * bool :=
  let stop := if (i =? 0)%nat then (0, O, false) else (n, i, true) in
  match s with
  | String c s' =>
      if isDigit c then
        let n' := n * 10 + digitVal c in
        if big <=? n' then (big, i, false) else dtoi_loop s' n' (S i)
      else stop
  | EmptyString => stop
  end.

Definition dtoi (s : string) : Z * nat * bool := dtoi_loop s 0 0.

(** [net.ParseCIDR(s)]: the address and the network it lies in. *)
Definition ParseCIDR (s : string) : option (IP * IPNet) :=
  i ← Index s "/";
  addr ← slice_to s i;
  mask ← slice_from s (S i);
  ip ← parseIPv4 addr;
  match dtoi mask with
  | (n, j, ok) =>
      if negb ok || negb (j =? String.length mask)%nat || (n <? 0) || (32 <? n)
      then None
      else
        let m := CIDRMask n 32 in
        Some (ip, {| IPNet_IP := Mask ip m; IPNet_Mask := m |})
  end.

End Net.

(* ===================================================================== *)
(** ** pkg/utils/network.go                                              *)
(* ===================================================================== *)

Module Utils.
Import GoStrings.

(** [ParseSubnet]: [defaultSubnet] is what [GetDefaultSubnet()] returns
    on this machine ([None] when it fails). *)
Definition ParseSubnet (defaultSubnet : option string) (subnet : string)
  : result Net.IPNet :=
  match (if bool_decide (subnet = EmptyString) then defaultSubnet
         else Some subnet) with
  | None => Err "no active network interfaces found"
  | Some subnet =>
      match Net.ParseCIDR subnet with
      | Some (_, ipNet) => Ok ipNet
      | None =>
          if Contains subnet "/" then Err "invalid CIDR address"
          else match Net.ParseCIDR (subnet +:+ "/24") with
               | Some (_, ipNet) => Ok ipNet
               | None => Err "invalid CIDR address"
               end
      end
  end.

(** [incrementIP]: the loop [for j := len(ip)-1; j >= 0; j--], entered
    with [n = j + 1]. *)
Fixpoint incrementIP_loop (n : nat) (ip : Net.IP) : Net.IP :=
  match n with
  | O => ip
  | S j =>
      let b := (ip !!! j + 1) mod 256 in
      let ip' := <[j := b]> ip in
      if 0 <? b then ip' else incrementIP_loop j ip'
  end.

Definition incrementIP (ip : Net.IP) : Net.IP :=
  incrementIP_loop (length ip) ip.

(** [broadcast[i] = ip[i] | ^ipNet.Mask[i]], the complement taken on a byte. *)
Fixpoint broadcastBytes (ip : Net.IP) (mask : Net.IPMask) : Net.IP :=
  match ip, mask with
  | b :: ip', m :: mask' => Z.lor b (Z.lxor m 255) :: broadcastBytes ip' mask'
  | _, _ => []
  end.

(** The [for] loop of [GetSubnetHosts].  One unit of [fuel] is one
    evaluation of the loop condition; [None] means the loop has not
    exited within [fuel] evaluations. *)
Fixpoint hostsLoop (fuel : nat) (ipNet : Net.IPNet) (broadcast ip : Net.IP)
    (hosts : list string) : option (list string) :=
  match fuel with
  | O => None
  | S fuel' =>
      if Net.Contains ipNet ip then
        let hosts' :=
          if negb (Net.Equal ip (Net.IPNet_IP ipNet))
             && negb (Net.Equal ip broadcast)
          then hosts ++ [Net.String_ ip] else hosts in
        hostsLoop fuel' ipNet broadcast (incrementIP ip) hosts'
      else Some hosts
  end.

(** [GetSubnetHosts(subnet)]; [None]: still looping after [fuel] steps. *)
Definition GetSubnetHosts (defaultSubnet : option string) (fuel : nat)
    (subnet : string) : option (result (list string)) :=
  match ParseSubnet defaultSubnet subnet with
  | Err e => Some (Err e)
  | Ok ipNet =>
      let ip := Net.Mask (Net.IPNet_IP ipNet) (Net.IPNet_Mask ipNet) in
      let broadcast := broadcastBytes ip (Net.IPNet_Mask ipNet) in
      hosts ← hostsLoop fuel ipNet broadcast
                (Net.Mask ip (Net.IPNet_Mask ipNet)) [];
      Some (Ok hosts)
  end.

(** [IsIPInSubnet(ipStr, subnet)] *)
Definition IsIPInSubnet (defaultSubnet : option string) (ipStr subnet : string)
  : result bool :=
  match Net.ParseIP ipStr with
  | None => Err ("invalid IP address: " +:+ ipStr)
  | Some ip =>
      match ParseSubnet defaultSubnet subnet with
      | Err e => Err e
      | Ok ipNet => Ok (Net.Contains ipNet ip)
      end
  end.

(** [GetNetworkAddress(subnet)] *)
Definition GetNetworkAddress (defaultSubnet : option string) (subnet : string)
  : result string :=
  match ParseSubnet defaultSubnet subnet with
  | Err e => Err e
  | Ok ipNet => Ok (Net.String_ (Net.IPNet_IP ipNet))
  end.

(** [GetBroadcastAddress(subnet)] *)
Definition GetBroadcastAddress (defaultSubnet : option string)
    (subnet : string) : result string :=
  match ParseSubnet defaultSubnet subnet with
  | Err e => Err e
  | Ok ipNet =>
      Ok (Net.String_
            (broadcastBytes (Net.IPNet_IP ipNet) (Net.IPNet_Mask ipNet)))
  end.

(** [ValidateIP(ip)] and [ValidateSubnet(subnet)] *)
Definition ValidateIP (ip : string) : bool :=
  match Net.ParseIP ip with Some _ => true | None => false end.

Definition ValidateSubnet (subnet : string) : bool :=
  match Net.ParseCIDR subnet with Some _ => true | None => false end.

End Utils.


(** Package [crypto/md5] (RFC 1321), [encoding/base64] and the verb [%x]. *)
Module Crypto.

Definition bytes_of_string (s : string) : list Z :=
  (λ c, Z.of_nat (nat_of_ascii c)) <$> list_ascii_of_string s.

Definition w32 (x : Z) : Z := x mod 2 ^ 32.

Definition rotl32 (x s : Z) : Z :=
  w32 (Z.lor (Z.shiftl x s) (Z.shiftr x (32 - s))).

Definition not32 (x : Z) : Z := Z.lxor x 4294967295.

(** [K[i] = floor(2^32 * abs(sin(i + 1)))] *)
Definition K : list Z :=
  [
    3614090360; 3905402710; 606105819; 3250441966;
    4118548399; 1200080426; 2821735955; 4249261313;
    1770035416; 2336552879; 4294925233; 2304563134;
    1804603682; 4254626195; 2792965006; 1236535329;
    4129170786; 3225465664; 643717713; 3921069994;
    3593408605; 38016083; 3634488961; 3889429448;
    568446438; 3275163606; 4107603335; 1163531501;
    2850285829; 4243563512; 1735328473; 2368359562;
    4294588738; 2272392833; 1839030562; 4259657740;
    2763975236; 1272893353; 4139469664; 3200236656;
    681279174; 3936430074; 3572445317; 76029189;
    3654602809; 3873151461; 530742520; 3299628645;
    4096336452; 1126891415; 2878612391; 4237533241;
    1700485571; 2399980690; 4293915773; 2240044497;
    1873313359; 4264355552; 2734768916; 1309151649;
    4149444226; 3174756917; 718787259; 3951481745
  ].

Definition shifts : list Z :=
  [ 7; 12; 17; 22; 7; 12; 17; 22; 7; 12; 17; 22; 7; 12; 17; 22;
    5; 9; 14; 20; 5; 9; 14; 20; 5; 9; 14; 20; 5; 9; 14; 20;
    4; 11; 16; 23; 4; 11; 16; 23; 4; 11; 16; 23; 4; 11; 16; 23;
    6; 10; 15; 21; 6; 10; 15; 21; 6; 10; 15; 21; 6; 10; 15; 21 ].

(** The 64-bit length, least significant byte first. *)
Fixpoint le_bytes (n : nat) (x : Z) : list Z :=
  match n with
  | O => []
  | S n' => x mod 256 :: le_bytes n' (x / 256)
  end.

Definition pad (msg : list Z) : list Z :=
  let l := Z.of_nat (length msg) in
  let zeros := (55 - l) mod 64 in
  msg ++ [128] ++ replicate (Z.to_nat zeros) 0 ++ le_bytes 8 (8 * l).

Fixpoint words (n : nat) (bs : list Z) : list Z :=
  match n with
  | O => []
  | S n' =>
      match bs with
      | b0 :: b1 :: b2 :: b3 :: rest =>
          (b0 + 256 * b1 + 65536 * b2 + 16777216 * b3) :: words n' rest
      | _ => []
      end
  end.

Definition step (M : list Z) (st : Z * Z * Z * Z) (i : nat)
  : Z * Z * Z * Z :=
  let '(A, B, C, D) := st in
  let '(F, g) :=
    if (i <? 16)%nat then
      (Z.lor (Z.land B C) (Z.land (not32 B) D), i)
    else if (i <? 32)%nat then
      (Z.lor (Z.land D B) (Z.land (not32 D) C), ((5 * i + 1) mod 16)%nat)
    else if (i <? 48)%nat then
      (Z.lxor (Z.lxor B C) D, ((3 * i + 5) mod 16)%nat)
    else
      (Z.lxor C (Z.lor B (not32 D)), ((7 * i) mod 16)%nat) in
  let F' := w32 (F + A + K !!! i + M !!! g) in
  (D, w32 (B + rotl32 F' (shifts !!! i)), B, C).

Definition block (st : Z * Z * Z * Z) (M : list Z) : Z * Z * Z * Z :=
  let '(a0, b0, c0, d0) := st in
  let '(A, B, C, D) := fold_left (step M) (seq 0 64) st in
  (w32 (a0 + A), w32 (b0 + B), w32 (c0 + C), w32 (d0 + D)).

Fixpoint blocks (n : nat) (bs : list Z) (st : Z * Z * Z * Z)
  : Z * Z * Z * Z :=
  match n with
  | O => st
  | S n' => blocks n' (drop 64 bs) (block st (words 16 bs))
  end.

(** [md5.Sum(data)]: the 16 bytes of the digest. *)
Definition md5_Sum (data : list Z) : list Z :=
  let bs := pad data in
  let '(a, b, c, d) :=
    blocks (length bs / 64)%nat bs
      (1732584193, 4023233417, 2562383102, 271733878) in
  le_bytes 4 a ++ le_bytes 4 b ++ le_bytes 4 c ++ le_bytes 4 d.

Definition hexDigit (n : Z) : ascii :=
  ascii_of_nat (Z.to_nat (if n <? 10 then 48 + n else 87 + n)).

(** [fmt.Sprintf("%x", bytes)] *)
Fixpoint hex (bs : list Z) : string :=
  match bs with
  | [] => EmptyString
  | b :: bs' => String (hexDigit (b / 16)) (String (hexDigit (b mod 16)) (hex bs'))
  end.

Definition b64Digit (n : Z) : ascii :=
  ascii_of_nat (Z.to_nat
    (if n <? 26 then 65 + n
     else if n <? 52 then 71 + n
     else if n <? 62 then n - 4
     else if n =? 62 then 43 else 47)).

(** [base64.StdEncoding.EncodeToString(bytes)] *)
Fixpoint base64 (bs : list Z) : string :=
  match bs with
  | [] => EmptyString
  | [a] =>
      String (b64Digit (a / 4)) (String (b64Digit (a mod 4 * 16)) "==")
  | [a; b] =>
      String (b64Digit (a / 4))
        (String (b64Digit (a mod 4 * 16 + b / 16))
           (String (b64Digit (b mod 16 * 4)) "="))
  | a :: b :: c :: rest =>
      String (b64Digit (a / 4))
        (String (b64Digit (a mod 4 * 16 + b / 16))
           (String (b64Digit (b mod 16 * 4 + c / 64))
              (String (b64Digit (c mod 64)) (base64 rest))))
  end.

End Crypto.

(* ===================================================================== *)
(** ** internal/models                                                   *)
(* ===================================================================== *)

(** A [float64] is carried as its 64 bits; the sources only store and copy
    such values.  The zero value is [0]. *)
Definition float64 : Type := Z.

(** A [time.Time]: nanoseconds since the zero time, which [IsZero] tests. *)
Definition Time : Type := Z.
Definition IsZero (t : Time) : bool := t =? 0.
Definition After (t u : Time) : bool := u <? t.
Definition Before (t u : Time) : bool := t <? u.

Module Models.

Record Protocol : Type := {
  Type_ : string;
  Port : Z;
  URL : string;
  Available : bool;
  DetectedAt : Time
}.

Record RTSPStreamInfo : Type := {
  stream_URL : string;
  stream_Codec : string;
  stream_Resolution : string;
  stream_FPS : float64;
  stream_Bitrate : Z;
  stream_AudioCodec : string;
  stream_Channels : Z;
  stream_Available : bool;
  stream_CheckedAt : Time
}.

Record Device : Type := {
  IP : string;
  MAC : string;
  Hostname : string;
  Manufacturer : string;
  Model : string;
  Protocols : list Protocol;
  RTSPStreams : list RTSPStreamInfo;
  DiscoveredAt : Time;
  LastSeen : Time
}.

End Models.

(** What the network answers during one scan. *)
Module Network.

(** An established TCP connection: whether writing to it succeeds and
    the bytes the peer sends before it closes or the deadline passes. *)
Record Conn : Type := { writeOk : bool; incoming : string }.

Record t : Type := {
  (** [net.DialTimeout("tcp", ip:port, timeout)]; [None] is any error. *)
  dial : string → Z → option Conn;
  (** [net.LookupAddr(ip)] *)
  LookupAddr : string → result (list string)
}.

End Network.

(* ===================================================================== *)
(** ** internal/scanner: the TCP sweep (NetworkScanner)                  *)
(* ===================================================================== *)

Module Scanner.
Import GoStrings Models.

(** [hostname[:len(hostname)-1]] when [hostname] ends with a dot. *)
Fixpoint dropTrailingDot (s : string) : string :=
  match s with
  | EmptyString => EmptyString
  | String c EmptyString => if Ascii.eqb c "." then EmptyString else s
  | String c s' => String c (dropTrailingDot s')
  end.

(** [utils.ResolveHostname(ip)] *)
Definition ResolveHostname (net : Network.t) (ip : string) : result string :=
  match Network.LookupAddr net ip with
  | Err e => Err e
  | Ok [] => Ok EmptyString
  | Ok (hostname :: _) => Ok (dropTrailingDot hostname)
  end.

(** [ns.isPortOpen(ctx, ip, port)] *)
Definition isPortOpen (net : Network.t) (ip : string) (port : Z) : bool :=
  match Network.dial net ip port with
  | Some _ => true
  | None => false
  end.

(** [ns.detectProtocol(ip, port)], run at instant [now]. *)
Definition detectProtocol (now : Time) (ip : string) (port : Z) : Protocol :=
  let '(type, scheme) :=
    if (port =? 554) || (port =? 8554) then ("RTSP", "rtsp://%s:%d")
    else if port =? 1935 then ("RTMP", "rtmp://%s:%d")
    else if (port =? 80) || (port =? 8080) then ("HTTP", "http://%s:%d")
    else ("UNKNOWN", "tcp://%s:%d") in
  {| Type_ := type;
     Port := port;
     URL := Fmt.Sprintf scheme [Fmt.S_ ip; Fmt.D_ port];
     Available := true;
     DetectedAt := now |}.

(** The port loop of [scanHost]: one goroutine per configured port, each
    appending under the mutex.  The model runs them in the order of the
    port list; any other schedule yields a permutation of this list. *)
Fixpoint scanPorts (net : Network.t) (now : Time) (ip : string)
    (ports : list Z) (protocols : list Protocol) : list Protocol :=
  match ports with
  | [] => protocols
  | p :: ports' =>
      scanPorts net now ip ports'
        (if isPortOpen net ip p
         then protocols ++ [detectProtocol now ip p]
         else protocols)
  end.

(** [ns.scanHost(ctx, ip)] over the configured [ports]; [None] is [nil]. *)
Definition scanHost (net : Network.t) (ports : list Z) (now : Time)
    (ip : string) : option Device :=
  let hostname :=
    match ResolveHostname net ip with
    | Ok hostname => hostname
    | Err _ => EmptyString
    end in
  let protocols := scanPorts net now ip ports [] in
  if bool_decide (length protocols = O) then None
  else Some {| IP := ip; MAC := EmptyString; Hostname := hostname;
               Manufacturer := EmptyString; Model := EmptyString;
               Protocols := protocols; RTSPStreams := [];
               DiscoveredAt := now; LastSeen := 0 |}.

(** [ns.ScanPorts(ctx, ip, ports)], with the goroutines in the order of
    [ports] as in [scanPorts]. *)
Definition ScanPorts (net : Network.t) (now : Time) (ip : string)
    (ports : list Z) : list Protocol :=
  scanPorts net now ip ports [].

(** The dispatch loop of [scanPortsParallel]: [cancelled i] tells whether
    [ctx.Done()] is ready when the loop reaches the host of index [i].
    The loop returns [false] when it takes the [return devices] of that
    case, [true] when every host got its goroutine. *)
Fixpoint dispatch (cancelled : nat → bool) (i : nat) (hosts : list string)
  : bool :=
  match hosts with
  | [] => true
  | _ :: hosts' =>
      if cancelled i then false else dispatch cancelled (S i) hosts'
  end.

(** What the goroutines send on [deviceChan] and the final loop appends to
    [devices]: the non-nil results of [scanHost], here in the order of
    [hosts]; [now i] is the instant at which host [i] is scanned. *)
Fixpoint collect (net : Network.t) (ports : list Z) (now : nat → Time)
    (i : nat) (hosts : list string) (devices : list Device) : list Device :=
  match hosts with
  | [] => devices
  | ip :: hosts' =>
      collect net ports now (S i) hosts'
        (match scanHost net ports (now i) ip with
         | Some device => devices ++ [device]
         | None => devices
         end)
  end.

(** [ns.scanPortsParallel(ctx, hosts)]; a nil slice is [[]]. *)
Definition scanPortsParallel (net : Network.t) (ports : list Z)
    (now : nat → Time) (cancelled : nat → bool) (hosts : list string)
  : list Device :=
  let devices := [] in
  if dispatch cancelled 0 hosts
  then collect net ports now 0 hosts devices
  else devices.


End Scanner.

(* ===================================================================== *)
(** ** internal/protocols/rtsp.go: the RTSP detector                     *)
(* ===================================================================== *)

Module Protocols.
Import GoStrings Models.

(** [RTSPDetector.Detect(ip, port, timeout)], run at instant [now].  The
    DESCRIBE exchange of [getStreams] that follows an accepted reply only
    feeds a debug log line and is left out. *)
Definition Detect (net : Network.t) (now : Time) (ip : string) (port : Z)
  : Protocol * option string :=
  let protocol :=
    {| Type_ := "RTSP"; Port := port; URL := EmptyString;
       Available := false; DetectedAt := now |} in
  match Network.dial net ip port with
  | None => (protocol, Some "failed to connect")
  | Some conn =>
      if negb (Network.writeOk conn)
      then (protocol, Some "failed to send OPTIONS")
      else
        match ReadString (Network.incoming conn) with
        | None => (protocol, Some "failed to read response")
        | Some (response, _) =>
            if negb (Contains response "RTSP/1.0")
            then (protocol, Some "invalid RTSP response")
            else if Contains response "200" || Contains response "401"
            then ({| Type_ := "RTSP"; Port := port;
                     URL := Fmt.Sprintf "rtsp://%s:%d" [Fmt.S_ ip; Fmt.D_ port];
                     Available := true; DetectedAt := now |}, None)
            else (protocol, None)
        end
  end.

End Protocols.

(* ===================================================================== *)
(** ** internal/rtsp: the session client (client.go)                     *)
(* ===================================================================== *)

Module Rtsp.
Import GoStrings.

(** The double quote, as a byte and as a string. *)
Definition dquote : ascii := "034"%char.
Definition dq : string := String dquote EmptyString.

(** The fields of a parsed [url.URL] that the client reads. *)
Record URL : Type := { Hostname : string; Port : string; Path : string }.

(** [Client].  [conn] and [reader] are the bytes still to be read from
    the peer; [sent] collects what [conn.Write] was given, oldest first.
    Writes and deadline updates on the open connection succeed. *)
Record Client : Type := {
  reader : string;
  sent : list string;
  url : URL;
  username : string;
  password : string;
  sessionID : string;
  cseq : Z;
  authMethod : string;
  realm : string;
  nonce : string
}.

Record Response : Type := {
  StatusCode : Z;
  StatusText : string;
  Headers : gmap string string;
  Body : string
}.

(** [NewClient], given the outcome of [url.Parse] and of the dial (the
    bytes the server is going to send, or [None] when the dial fails). *)
Definition NewClient (parsedURL : result URL) (conn : option string)
    (username password : string) : result Client :=
  match parsedURL with
  | Err e => Err ("invalid RTSP URL: " +:+ e)
  | Ok parsedURL =>
      match conn with
      | None => Err "failed to connect"
      | Some input =>
          Ok {| reader := input; sent := []; url := parsedURL;
                username := username; password := password;
                sessionID := EmptyString; cseq := 1;
                authMethod := EmptyString; realm := EmptyString;
                nonce := EmptyString |}
      end
  end.

(** [md5Hash(data)] *)
Definition md5Hash (data : string) : string :=
  Crypto.hex (Crypto.md5_Sum (Crypto.bytes_of_string data)).

Definition digestFormat : string :=
  "Digest username=" +:+ dq +:+ "%s" +:+ dq +:+
  ", realm=" +:+ dq +:+ "%s" +:+ dq +:+
  ", nonce=" +:+ dq +:+ "%s" +:+ dq +:+
  ", uri=" +:+ dq +:+ "%s" +:+ dq +:+
  ", response=" +:+ dq +:+ "%s" +:+ dq.

(** [c.buildAuthHeader(method, path)] *)
Definition buildAuthHeader (c : Client) (method path : string) : string :=
  if bool_decide (authMethod c = "Basic") then
    let auth := username c +:+ ":" +:+ password c in
    let encoded := Crypto.base64 (Crypto.bytes_of_string auth) in
    Fmt.Sprintf "Basic %s" [Fmt.S_ encoded]
  else if bool_decide (authMethod c = "Digest") then
    let ha1 := md5Hash (Fmt.Sprintf "%s:%s:%s"
                 [Fmt.S_ (username c); Fmt.S_ (realm c); Fmt.S_ (password c)]) in
    let ha2 := md5Hash (Fmt.Sprintf "%s:%s" [Fmt.S_ method; Fmt.S_ path]) in
    let response := md5Hash (Fmt.Sprintf "%s:%s:%s"
                      [Fmt.S_ ha1; Fmt.S_ (nonce c); Fmt.S_ ha2]) in
    Fmt.Sprintf digestFormat
      [Fmt.S_ (username c); Fmt.S_ (realm c); Fmt.S_ (nonce c);
       Fmt.S_ path; Fmt.S_ response]
  else EmptyString.

Section WithText.
Context `{Text}.

(** The header loop of [readResponse]: [line] is the part of the
    current line read so far; [None] is a read error before the blank
    line. *)
Fixpoint readHeaders (input line : string) (headers : gmap string string)
  : option (gmap string string * string) :=
  match input with
  | EmptyString => None
  | String c rest =>
      if Ascii.eqb c LF then
        let line := TrimSpace (line +:+ String c EmptyString) in
        if bool_decide (line = EmptyString) then Some (headers, rest)
        else
          match SplitN line ":" 2 with
          | [key; value] =>
              readHeaders rest EmptyString
                (<[TrimSpace key := TrimSpace value]> headers)
          | _ => readHeaders rest EmptyString headers
          end
      else readHeaders rest (line +:+ String c EmptyString) headers
  end.

(** [c.readResponse()] on the bytes still to come: the response (or
    the error) and what is left in the reader. *)
Definition readResponse (input : string) : result Response * string :=
  match ReadString input with
  | None => (Err "failed to read status line", EmptyString)
  | Some (statusLine, rest) =>
      let statusLine := TrimSpace statusLine in
      match SplitN statusLine " " 3 with
      | [_; code; text] =>
          match Atoi code with
          | None => (Err "invalid status code", rest)
          | Some statusCode =>
              match readHeaders rest EmptyString ∅ with
              | None => (Err "failed to read header", EmptyString)
              | Some (headers, rest) =>
                  let response body :=
                    {| StatusCode := statusCode; StatusText := text;
                       Headers := headers; Body := body |} in
                  match headers !! "Content-Length" with
                  | Some contentLengthStr =>
                      match Atoi contentLengthStr with
                      | Some contentLength =>
                          if 0 <? contentLength then
                            match ReadFull rest (Z.to_nat contentLength) with
                            | None => (Err "failed to read body", EmptyString)
                            | Some (body, rest) => (Ok (response body), rest)
                            end
                          else (Ok (response EmptyString), rest)
                      | None => (Ok (response EmptyString), rest)
                      end
                  | None => (Ok (response EmptyString), rest)
                  end
              end
          end
      | _ => (Err "invalid status line", rest)
      end
  end.

(** The text [sendRequest] writes for a request with sequence number
    [n]; [headers] is the header map in the order [range] visits it
    (the callers pass at most one entry). *)
Fixpoint headerLines (headers : list (string * string)) : string :=
  match headers with
  | [] => EmptyString
  | (key, value) :: headers' =>
      Fmt.Sprintf ("%s: %s" +:+ CRLF) [Fmt.S_ key; Fmt.S_ value]
        +:+ headerLines headers'
  end.

Definition authLine (c : Client) (method path : string) : string :=
  if negb (bool_decide (authMethod c = EmptyString))
     && negb (bool_decide (username c = EmptyString))
     && negb (bool_decide (password c = EmptyString))
  then
    let authHeader := buildAuthHeader c method path in
    if negb (bool_decide (authHeader = EmptyString))
    then Fmt.Sprintf ("Authorization: %s" +:+ CRLF) [Fmt.S_ authHeader]
    else EmptyString
  else EmptyString.

Definition requestText (c : Client) (method path : string)
    (headers : list (string * string)) : string :=
  Fmt.Sprintf ("%s %s RTSP/1.0" +:+ CRLF) [Fmt.S_ method; Fmt.S_ path]
  +:+ Fmt.Sprintf ("CSeq: %d" +:+ CRLF) [Fmt.D_ (cseq c)]
  +:+ headerLines headers
  +:+ "User-Agent: Local-video-server/1.0" +:+ CRLF
  +:+ authLine c method path
  +:+ CRLF.

(** [c.sendRequest(method, path, headers)] *)
Definition sendRequest (c : Client) (method path : string)
    (headers : list (string * string)) : Client * result Response :=
  let c := {| reader := reader c; sent := sent c; url := url c;
              username := username c; password := password c;
              sessionID := sessionID c; cseq := cseq c + 1;
              authMethod := authMethod c; realm := realm c;
              nonce := nonce c |} in
  let request := requestText c method path headers in
  let '(response, rest) := readResponse (reader c) in
  ({| reader := rest; sent := sent c ++ [request]; url := url c;
      username := username c; password := password c;
      sessionID := sessionID c; cseq := cseq c;
      authMethod := authMethod c; realm := realm c;
      nonce := nonce c |}, response).

(** [c.parseAuthHeader(header)] *)
Definition setAuth (c : Client) (method realm' nonce' : string) : Client :=
  {| reader := reader c; sent := sent c; url := url c;
     username := username c; password := password c;
     sessionID := sessionID c; cseq := cseq c;
     authMethod := method; realm := realm'; nonce := nonce' |}.

Fixpoint parseDigestParts (parts : list string) (realm' nonce' : string)
  : string * string :=
  match parts with
  | [] => (realm', nonce')
  | part :: parts' =>
      let part := TrimSpace part in
      if HasPrefix part "realm=" then
        parseDigestParts parts'
          (Trim1 (default EmptyString (slice_from part 6)) dquote) nonce'
      else if HasPrefix part "nonce=" then
        parseDigestParts parts' realm'
          (Trim1 (default EmptyString (slice_from part 6)) dquote)
      else parseDigestParts parts' realm' nonce'
  end.

Definition parseAuthHeader (c : Client) (header : string) : Client :=
  if HasPrefix header "Basic" then
    match Index header "realm=" with
    | Some idx =>
        let realm' := default EmptyString (slice_from header (idx + 6)) in
        let realm' :=
          match Index realm' "," with
          | Some endIdx => default EmptyString (slice_to realm' endIdx)
          | None => realm'
          end in
        setAuth c "Basic" (Trim1 realm' dquote) (nonce c)
    | None => setAuth c "Basic" (realm c) (nonce c)
    end
  else if HasPrefix header "Digest" then
    let '(realm', nonce') :=
      parseDigestParts (Split header ",") (realm c) (nonce c) in
    setAuth c "Digest" realm' nonce'
  else c.

Definition requestPath (c : Client) : string :=
  if bool_decide (Path (url c) = EmptyString) then "/" else Path (url c).

(** [c.Options()] *)
Definition Options (c : Client) : Client * result Response :=
  sendRequest c "OPTIONS" "*" [].

(** [c.Describe()] *)
Definition Describe (c : Client) : Client * result Response :=
  let path := requestPath c in
  let headers := [("Accept", "application/sdp")] in
  match sendRequest c "DESCRIBE" path headers with
  | (c, Err e) => (c, Err e)
  | (c, Ok response) =>
      if StatusCode response =? 401 then
        let authHeader := default EmptyString (Headers response !! "WWW-Authenticate") in
        if negb (bool_decide (authHeader = EmptyString)) then
          sendRequest (parseAuthHeader c authHeader) "DESCRIBE" path headers
        else (c, Ok response)
      else (c, Ok response)
  end.

Definition setSession (c : Client) (id : string) : Client :=
  {| reader := reader c; sent := sent c; url := url c;
     username := username c; password := password c;
     sessionID := id; cseq := cseq c;
     authMethod := authMethod c; realm := realm c; nonce := nonce c |}.

(** [c.Setup(transport)] *)
Definition Setup (c : Client) (transport : string) : Client * result Response :=
  let path := requestPath c in
  match sendRequest c "SETUP" path [("Transport", transport)] with
  | (c, Err e) => (c, Err e)
  | (c, Ok response) =>
      match Headers response !! "Session" with
      | Some sessionID =>
          (setSession c (TrimSpace (default EmptyString (head (Split sessionID ";")))),
           Ok response)
      | None => (c, Ok response)
      end
  end.

(** [c.Play()] *)
Definition Play (c : Client) : Client * result Response :=
  let path := requestPath c in
  let headers :=
    if negb (bool_decide (sessionID c = EmptyString))
    then [("Session", sessionID c)] else [] in
  sendRequest c "PLAY" path headers.

(** One call of a session, and a session as the calls made in turn on
    the same client, whatever each of them returns. *)
Inductive call : Type :=
| CallOptions
| CallDescribe
| CallSetup (transport : string)
| CallPlay.

Definition perform (c : Client) (k : call) : Client :=
  match k with
  | CallOptions => (Options c).1
  | CallDescribe => (Describe c).1
  | CallSetup transport => (Setup c transport).1
  | CallPlay => (Play c).1
  end.

Definition session (c : Client) (calls : list call) : Client :=
  fold_left perform calls c.

End WithText.

End Rtsp.

(* ===================================================================== *)
(** ** internal/rtsp/parser.go: the SDP parser                           *)
(* ===================================================================== *)

Module Sdp.
Import GoStrings.

Record VideoTrack : Type := {
  vt_Codec : string;
  vt_Resolution : string;
  vt_FPS : float64;
  vt_Bitrate : Z;
  vt_Profile : string;
  vt_Level : string
}.

Record AudioTrack : Type := {
  at_Codec : string;
  at_Channels : Z;
  at_SampleRate : Z;
  at_Bitrate : Z
}.

Record StreamInfo : Type := {
  URL : string;
  Codec : string;
  Resolution : string;
  FPS : float64;
  Bitrate : Z;
  AudioCodec : string;
  Channels : Z;
  Available : bool;
  VideoTracks : list VideoTrack;
  AudioTracks : list AudioTrack
}.

(** Of [MediaDescription] the parser only ever sets and reads [Type]. *)
Record MediaDescription : Type := { Type_ : string }.

Definition zeroVideoTrack : VideoTrack :=
  {| vt_Codec := EmptyString; vt_Resolution := EmptyString; vt_FPS := 0; vt_Bitrate := 0;
     vt_Profile := EmptyString; vt_Level := EmptyString |}.

Definition zeroAudioTrack : AudioTrack :=
  {| at_Codec := EmptyString; at_Channels := 0; at_SampleRate := 0; at_Bitrate := 0 |}.

Definition emptyInfo : StreamInfo :=
  {| URL := EmptyString; Codec := EmptyString; Resolution := EmptyString; FPS := 0; Bitrate := 0;
     AudioCodec := EmptyString; Channels := 0; Available := false;
     VideoTracks := []; AudioTracks := [] |}.

(** Field assignments. *)
Definition setVtCodec (v : string) (t : VideoTrack) : VideoTrack :=
  {| vt_Codec := v; vt_Resolution := vt_Resolution t; vt_FPS := vt_FPS t;
     vt_Bitrate := vt_Bitrate t; vt_Profile := vt_Profile t;
     vt_Level := vt_Level t |}.
Definition setVtResolution (v : string) (t : VideoTrack) : VideoTrack :=
  {| vt_Codec := vt_Codec t; vt_Resolution := v; vt_FPS := vt_FPS t;
     vt_Bitrate := vt_Bitrate t; vt_Profile := vt_Profile t;
     vt_Level := vt_Level t |}.
Definition setVtFPS (v : float64) (t : VideoTrack) : VideoTrack :=
  {| vt_Codec := vt_Codec t; vt_Resolution := vt_Resolution t; vt_FPS := v;
     vt_Bitrate := vt_Bitrate t; vt_Profile := vt_Profile t;
     vt_Level := vt_Level t |}.
Definition setVtProfileLevel (p l : string) (t : VideoTrack) : VideoTrack :=
  {| vt_Codec := vt_Codec t; vt_Resolution := vt_Resolution t;
     vt_FPS := vt_FPS t; vt_Bitrate := vt_Bitrate t; vt_Profile := p;
     vt_Level := l |}.
Definition setAtCodec (v : string) (t : AudioTrack) : AudioTrack :=
  {| at_Codec := v; at_Channels := at_Channels t;
     at_SampleRate := at_SampleRate t; at_Bitrate := at_Bitrate t |}.

Definition setVideoTracks (ts : list VideoTrack) (i : StreamInfo) : StreamInfo :=
  {| URL := URL i; Codec := Codec i; Resolution := Resolution i; FPS := FPS i;
     Bitrate := Bitrate i; AudioCodec := AudioCodec i; Channels := Channels i;
     Available := Available i; VideoTracks := ts; AudioTracks := AudioTracks i |}.
Definition setAudioTracks (ts : list AudioTrack) (i : StreamInfo) : StreamInfo :=
  {| URL := URL i; Codec := Codec i; Resolution := Resolution i; FPS := FPS i;
     Bitrate := Bitrate i; AudioCodec := AudioCodec i; Channels := Channels i;
     Available := Available i; VideoTracks := VideoTracks i; AudioTracks := ts |}.
Definition setCodec (v : string) (i : StreamInfo) : StreamInfo :=
  {| URL := URL i; Codec := v; Resolution := Resolution i; FPS := FPS i;
     Bitrate := Bitrate i; AudioCodec := AudioCodec i; Channels := Channels i;
     Available := Available i; VideoTracks := VideoTracks i;
     AudioTracks := AudioTracks i |}.
Definition setResolution (v : string) (i : StreamInfo) : StreamInfo :=
  {| URL := URL i; Codec := Codec i; Resolution := v; FPS := FPS i;
     Bitrate := Bitrate i; AudioCodec := AudioCodec i; Channels := Channels i;
     Available := Available i; VideoTracks := VideoTracks i;
     AudioTracks := AudioTracks i |}.
Definition setFPS (v : float64) (i : StreamInfo) : StreamInfo :=
  {| URL := URL i; Codec := Codec i; Resolution := Resolution i; FPS := v;
     Bitrate := Bitrate i; AudioCodec := AudioCodec i; Channels := Channels i;
     Available := Available i; VideoTracks := VideoTracks i;
     AudioTracks := AudioTracks i |}.
Definition setBitrate (v : Z) (i : StreamInfo) : StreamInfo :=
  {| URL := URL i; Codec := Codec i; Resolution := Resolution i; FPS := FPS i;
     Bitrate := v; AudioCodec := AudioCodec i; Channels := Channels i;
     Available := Available i; VideoTracks := VideoTracks i;
     AudioTracks := AudioTracks i |}.
Definition setAudioCodec (v : string) (i : StreamInfo) : StreamInfo :=
  {| URL := URL i; Codec := Codec i; Resolution := Resolution i; FPS := FPS i;
     Bitrate := Bitrate i; AudioCodec := v; Channels := Channels i;
     Available := Available i; VideoTracks := VideoTracks i;
     AudioTracks := AudioTracks i |}.
Definition setChannels (v : Z) (i : StreamInfo) : StreamInfo :=
  {| URL := URL i; Codec := Codec i; Resolution := Resolution i; FPS := FPS i;
     Bitrate := Bitrate i; AudioCodec := AudioCodec i; Channels := v;
     Available := Available i; VideoTracks := VideoTracks i;
     AudioTracks := AudioTracks i |}.

(** [l[i]] and [l[i].f = v]: an index outside [0, len(l)) is a panic. *)
Definition index {A : Type} (l : list A) (i : Z) : option A :=
  if 0 <=? i then l !! Z.to_nat i else None.

Definition update {A : Type} (l : list A) (i : Z) (f : A → A)
  : option (list A) :=
  if (0 <=? i) && (i <? Z.of_nat (length l))
  then Some (alter f (Z.to_nat i) l) else None.

Definition lenOf {A : Type} (l : list A) : Z := Z.of_nat (length l).

Section WithLibrary.
Context `{Text}.
(** [strconv.ParseFloat(s, 64)]; [None] is the error. *)
Variable ParseFloat : string → option float64.

(** [extractResolutionFromSPS]: the source returns the empty string. *)
Definition extractResolutionFromSPS (sps : string) : string := EmptyString.

(** [normalizeCodec] *)
Definition normalizeCodec (codec : string) : string :=
  let codec := ToUpper codec in
  if Contains codec "H264" || Contains codec "H.264"
     || bool_decide (codec = "AVC") then "H.264"
  else if Contains codec "H265" || Contains codec "H.265"
     || bool_decide (codec = "HEVC") then "H.265"
  else if Contains codec "MJPEG" || Contains codec "JPEG" then "MJPEG"
  else if Contains codec "MPEG4" || Contains codec "MPEG-4" then "MPEG-4"
  else codec.

(** [normalizeAudioCodec] *)
Definition normalizeAudioCodec (codec : string) : string :=
  let codec := ToUpper codec in
  if Contains codec "AAC" then "AAC"
  else if Contains codec "PCM" then "PCM"
  else if Contains codec "PCMU" || Contains codec "PCMA" then "G.711"
  else if Contains codec "G722" then "G.722"
  else codec.

(** One [pair] of [parseFmtpParams]. *)
Definition parseFmtpPair (param : string) (media : MediaDescription)
    (info : StreamInfo) : option StreamInfo :=
  let pair := TrimSpace param in
  match Index pair "=" with
  | None => Some info
  | Some idx =>
      k ← slice_to pair idx;
      v ← slice_from pair (idx + 1);
      let key := TrimSpace k in
      let value := TrimSpace v in
      if bool_decide (Type_ media = "video")
         && (0 <? lenOf (VideoTracks info)) then
        let idx := lenOf (VideoTracks info) - 1 in
        _ ← index (VideoTracks info) idx;
        if bool_decide (key = "profile-level-id") then
          if 6 <=? len value then
            profile ← slice value 0 2;
            level ← slice value 4 6;
            tracks ← update (VideoTracks info) idx
                       (setVtProfileLevel profile level);
            Some (setVideoTracks tracks info)
          else Some info
        else if bool_decide (key = "sprop-parameter-sets") then
          let resolution := extractResolutionFromSPS value in
          if negb (bool_decide (resolution = EmptyString)) then
            tracks ← update (VideoTracks info) idx
                       (setVtResolution resolution);
            Some (setResolution resolution (setVideoTracks tracks info))
          else Some info
        else Some info
      else Some info
  end.

(** [parseFmtpParams] *)
Fixpoint parseFmtpPairs (paramPairs : list string)
    (media : MediaDescription) (info : StreamInfo) : option StreamInfo :=
  match paramPairs with
  | [] => Some info
  | param :: rest =>
      info ← parseFmtpPair param media info;
      parseFmtpPairs rest media info
  end.

Definition parseFmtpParams (params : string) (media : MediaDescription)
    (info : StreamInfo) : option StreamInfo :=
  parseFmtpPairs (Split params ";") media info.

(** The five blocks of [parseAttribute], in the order of the source. *)
Definition attrRtpmap (attr : string) (media : MediaDescription)
    (info : StreamInfo) : option StreamInfo :=
  if HasPrefix attr "rtpmap:" then
    rest ← slice_from attr 7;
    let parts := Fields rest in
    if 2 <=? lenOf parts then
      codecInfo ← index parts 1;
      let codecParts := Split codecInfo "/" in
      codec ← index codecParts 0;
      if bool_decide (Type_ media = "video") then
        if 0 <? lenOf (VideoTracks info) then
          let idx := lenOf (VideoTracks info) - 1 in
          tracks ← update (VideoTracks info) idx
                     (setVtCodec (normalizeCodec codec));
          Some (setCodec (normalizeCodec codec) (setVideoTracks tracks info))
        else Some info
      else if bool_decide (Type_ media = "audio") then
        if 0 <? lenOf (AudioTracks info) then
          let idx := lenOf (AudioTracks info) - 1 in
          tracks ← update (AudioTracks info) idx
                     (setAtCodec (normalizeAudioCodec codec));
          Some (setAudioCodec (normalizeAudioCodec codec)
                  (setAudioTracks tracks info))
        else Some info
      else Some info
    else Some info
  else Some info.

Definition attrFmtp (attr : string) (media : MediaDescription)
    (info : StreamInfo) : option StreamInfo :=
  if HasPrefix attr "fmtp:" then
    rest ← slice_from attr 5;
    match SplitN rest " " 2 with
    | [_; params] => parseFmtpParams params media info
    | _ => Some info
    end
  else Some info.

Definition attrFramerate (attr : string) (media : MediaDescription)
    (info : StreamInfo) : option StreamInfo :=
  if HasPrefix attr "framerate:" then
    rest ← slice_from attr 10;
    let fpsStr := TrimSpace rest in
    match ParseFloat fpsStr with
    | Some fps =>
        if bool_decide (Type_ media = "video")
           && (0 <? lenOf (VideoTracks info)) then
          let idx := lenOf (VideoTracks info) - 1 in
          tracks ← update (VideoTracks info) idx (setVtFPS fps);
          Some (setFPS fps (setVideoTracks tracks info))
        else Some info
    | None => Some info
    end
  else Some info.

Definition attrDimensions (attr : string) (media : MediaDescription)
    (info : StreamInfo) : option StreamInfo :=
  if HasPrefix attr "x-dimensions:" then
    rest ← slice_from attr 13;
    let resolution := TrimSpace rest in
    match Split resolution "x" with
    | [w; h] =>
        match Atoi w, Atoi h with
        | Some width, Some height =>
            let resolutionStr :=
              Fmt.Sprintf "%dx%d" [Fmt.D_ width; Fmt.D_ height] in
            if bool_decide (Type_ media = "video")
               && (0 <? lenOf (VideoTracks info)) then
              let idx := lenOf (VideoTracks info) - 1 in
              tracks ← update (VideoTracks info) idx
                         (setVtResolution resolutionStr);
              Some (setResolution resolutionStr (setVideoTracks tracks info))
            else Some info
        | _, _ => Some info
        end
    | _ => Some info
    end
  else Some info.

Definition attrSprop (attr : string) (media : MediaDescription)
    (info : StreamInfo) : option StreamInfo :=
  if Contains attr "sprop-parameter-sets=" then
    let resolution := extractResolutionFromSPS attr in
    if negb (bool_decide (resolution = EmptyString)) then
      if bool_decide (Type_ media = "video")
         && (0 <? lenOf (VideoTracks info)) then
        let idx := lenOf (VideoTracks info) - 1 in
        tracks ← update (VideoTracks info) idx (setVtResolution resolution);
        Some (setResolution resolution (setVideoTracks tracks info))
      else Some info
    else Some info
  else Some info.

(** [parseAttribute(line, media, info)]; [None] is a panic. *)
Definition parseAttribute (line : string) (media : MediaDescription)
    (info : StreamInfo) : option StreamInfo :=
  attr ← slice_from line 2;
  info ← attrRtpmap attr media info;
  info ← attrFmtp attr media info;
  info ← attrFramerate attr media info;
  info ← attrDimensions attr media info;
  attrSprop attr media info.

(** The body of the line loop of [ParseSDP]: the stream information and
    the current media section after [line]. *)
Definition parseLine (line : string)
    (st : StreamInfo * option MediaDescription)
  : option (StreamInfo * option MediaDescription) :=
  let '(info, currentMedia) := st in
  let line := TrimSpace line in
  if bool_decide (line = EmptyString) then Some st
  else if len line <? 2 then Some st
  else
    c1 ← byte_at line 1;
    if negb (Ascii.eqb c1 "=") then Some st
    else
      mediaType ← byte_at line 0;
      value ← slice_from line 2;
      if Ascii.eqb mediaType "m" then
        let parts := Fields value in
        if 2 <=? lenOf parts then
          mediaType ← index parts 0;
          if bool_decide (mediaType = "video") then
            Some (setVideoTracks (VideoTracks info ++ [zeroVideoTrack]) info,
                  Some {| Type_ := mediaType |})
          else if bool_decide (mediaType = "audio") then
            Some (setAudioTracks (AudioTracks info ++ [zeroAudioTrack]) info,
                  Some {| Type_ := mediaType |})
          else Some st
        else Some st
      else if Ascii.eqb mediaType "a" then
        match currentMedia with
        | Some media =>
            info ← parseAttribute line media info;
            Some (info, currentMedia)
        | None => Some st
        end
      else Some st.

Fixpoint parseLines (lines : list string)
    (st : StreamInfo * option MediaDescription)
  : option (StreamInfo * option MediaDescription) :=
  match lines with
  | [] => Some st
  | line :: rest => st ← parseLine line st; parseLines rest st
  end.

(** What [ParseSDP] copies from the first tracks before it returns. *)
Definition summarize (info : StreamInfo) : option StreamInfo :=
  info ← (if 0 <? lenOf (VideoTracks info) then
            videoTrack ← index (VideoTracks info) 0;
            Some (setBitrate (vt_Bitrate videoTrack)
                    (setFPS (vt_FPS videoTrack)
                       (setResolution (vt_Resolution videoTrack)
                          (setCodec (vt_Codec videoTrack) info))))
          else Some info);
  if 0 <? lenOf (AudioTracks info) then
    audioTrack ← index (AudioTracks info) 0;
    Some (setChannels (at_Channels audioTrack)
            (setAudioCodec (at_Codec audioTrack) info))
  else Some info.

(** [ParseSDP(sdp)]: [None] is a panic, [Some (Ok info)] is the return
    of [info] with a nil error. *)
Definition ParseSDP (sdp : string) : option (result StreamInfo) :=
  '(info, _) ← parseLines (Split sdp LF) (emptyInfo, None);
  info ← summarize info;
  Some (Ok info).

End WithLibrary.

End Sdp.

(* ===================================================================== *)
(** ** internal/rtsp/client.go: CheckStream                              *)
(* ===================================================================== *)

Module Stream.
Import GoStrings.

Section WithLibrary.
Context `{Text}.
Variable ParseFloat : string → option float64.



End WithLibrary.

End Stream.

(* ===================================================================== *)
(** ** internal/scanner/detector.go: the orchestrator merge              *)
(* ===================================================================== *)

Module Detector.
Import Models.

(** The key of a protocol in [protocolMap]. *)
Definition protocolKey (p : Protocol) : string :=
  Fmt.Sprintf "%s:%d" [Fmt.S_ (Type_ p); Fmt.D_ (Port p)].

(** The first loop of [mergeDevices]: [protocolMap] after the protocols
    of [existing]. *)
Fixpoint buildProtocolMap (protocols : list Protocol)
    (protocolMap : gmap string Protocol) : gmap string Protocol :=
  match protocols with
  | [] => protocolMap
  | p :: rest => buildProtocolMap rest (<[protocolKey p := p]> protocolMap)
  end.

(** The second loop: the protocols of [new] whose key is not in
    [protocolMap] are appended; the map is not updated on the way. *)
Fixpoint appendMissing (protocolMap : gmap string Protocol)
    (news : list Protocol) (protocols : list Protocol) : list Protocol :=
  match news with
  | [] => protocols
  | p :: rest =>
      appendMissing protocolMap rest
        (match protocolMap !! protocolKey p with
         | Some _ => protocols
         | None => protocols ++ [p]
         end)
  end.

(** [if existing.F == "" && new.F != "" { existing.F = new.F }] *)
Definition fillIfEmpty (existing new : string) : string :=
  if bool_decide (existing = EmptyString)
     && negb (bool_decide (new = EmptyString))
  then new else existing.

(** [d.mergeDevices(existing, new)], run at instant [now]: the device
    [existing] points to afterwards. *)
Definition mergeDevices (now : Time) (existing new : Device) : Device :=
  let protocolMap := buildProtocolMap (Protocols existing) ∅ in
  {| IP := IP existing;
     MAC := fillIfEmpty (MAC existing) (MAC new);
     Hostname := fillIfEmpty (Hostname existing) (Hostname new);
     Manufacturer := fillIfEmpty (Manufacturer existing) (Manufacturer new);
     Model := fillIfEmpty (Model existing) (Model new);
     Protocols := appendMissing protocolMap (Protocols new) (Protocols existing);
     RTSPStreams := RTSPStreams existing;
     DiscoveredAt := DiscoveredAt existing;
     LastSeen :=
       if After (DiscoveredAt new) (DiscoveredAt existing)
       then now else LastSeen existing |}.

(** The closure [mergeDevice] of [Scan], applied to [devicesMap];
    [None] is a nil device. *)
Definition mergeDevice (now : Time) (devicesMap : gmap string Device)
    (device : option Device) : gmap string Device :=
  match device with
  | None => devicesMap
  | Some device =>
      match devicesMap !! IP device with
      | Some existing =>
          <[IP device := mergeDevices now existing device]> devicesMap
      | None => <[IP device := device]> devicesMap
      end
  end.

(** The calls of [mergeDevice] that the goroutines of [Scan] make, in the
    order in which the mutex admits them; call [i] runs at instant
    [now i]. *)
Fixpoint mergeAll (now : nat → Time) (i : nat) (calls : list (option Device))
    (devicesMap : gmap string Device) : gmap string Device :=
  match calls with
  | [] => devicesMap
  | device :: rest =>
      mergeAll now (S i) rest (mergeDevice (now i) devicesMap device)
  end.

(** [d.Scan(ctx, subnet)] after [wg.Wait()]: the devices of [devicesMap],
    in the order of [map_to_list] ([range] leaves the order open). *)
Definition Scan (now : nat → Time) (calls : list (option Device))
  : list Device :=
  (map_to_list (mergeAll now 0 calls ∅)).*2.

End Detector.

(* ===================================================================== *)
(** ** internal/registry: the device registry and its cache              *)
(* ===================================================================== *)

Module Registry.
Import Models.

Record CachedDevice : Type := { Device_ : Device; ExpiresAt : Time }.

Record Cache : Type := {
  cache_devices : gmap string CachedDevice;
  defaultTTL : Z;
  lastScan : Time;
  scanResults : list Device
}.

Record DeviceRegistry : Type := {
  devices : gmap string Device;
  cache : Cache
}.

(** [NewDeviceRegistry(cacheTTL)] *)
Definition NewDeviceRegistry (cacheTTL : Z) : DeviceRegistry :=
  {| devices := ∅;
     cache := {| cache_devices := ∅; defaultTTL := cacheTTL;
                 lastScan := 0; scanResults := [] |} |}.

(** [r.AddDevice(device)], run at instant [now]. *)
Definition AddDevice (now : Time) (r : DeviceRegistry) (device : Device)
  : DeviceRegistry :=
  match devices r !! IP device with
  | Some existing =>
      let existing :=
        {| IP := IP existing;
           MAC := MAC device;
           Hostname := Hostname device;
           Manufacturer := Manufacturer device;
           Model := Model device;
           Protocols := Protocols device;
           RTSPStreams := RTSPStreams device;
           DiscoveredAt := DiscoveredAt existing;
           LastSeen := now |} in
      {| devices := <[IP device := existing]> (devices r); cache := cache r |}
  | None =>
      let device :=
        {| IP := IP device; MAC := MAC device; Hostname := Hostname device;
           Manufacturer := Manufacturer device; Model := Model device;
           Protocols := Protocols device; RTSPStreams := RTSPStreams device;
           DiscoveredAt := now; LastSeen := now |} in
      {| devices := <[IP device := device]> (devices r); cache := cache r |}
  end.

(** [r.GetDevice(ip)] *)
Definition GetDevice (r : DeviceRegistry) (ip : string) : option Device :=
  devices r !! ip.

(** The loop of [SaveToCache] over [devices]. *)
Fixpoint cacheAll (devs : list Device) (expiresAt : Time)
    (m : gmap string CachedDevice) : gmap string CachedDevice :=
  match devs with
  | [] => m
  | device :: rest =>
      cacheAll rest expiresAt
        (<[IP device := {| Device_ := device; ExpiresAt := expiresAt |}]> m)
  end.

(** [r.SaveToCache(devices)], run at instant [now]. *)
Definition SaveToCache (now : Time) (r : DeviceRegistry) (devs : list Device)
  : DeviceRegistry :=
  let expiresAt := now + defaultTTL (cache r) in
  {| devices := devices r;
     cache := {| cache_devices := cacheAll devs expiresAt ∅;
                 defaultTTL := defaultTTL (cache r);
                 lastScan := now;
                 scanResults := devs |} |}.

(** The loop of [GetFromCache] over the cached entries.  Go leaves the
    order in which [range] visits a map unspecified; the model visits the
    entries in the order of [map_to_list]. *)
Fixpoint collectValid (now : Time) (entries : list (string * CachedDevice))
    (validDevices : list Device) : list Device :=
  match entries with
  | [] => validDevices
  | (_, cached) :: rest =>
      collectValid now rest
        (if Before now (ExpiresAt cached)
         then validDevices ++ [Device_ cached] else validDevices)
  end.

(** [r.GetFromCache()], run at instant [now]; a nil slice is [[]]. *)
Definition GetFromCache (now : Time) (r : DeviceRegistry)
  : list Device * bool :=
  if IsZero (lastScan (cache r))
     || After now (lastScan (cache r) + defaultTTL (cache r))
  then ([], false)
  else
    let validDevices :=
      collectValid now (map_to_list (cache_devices (cache r))) [] in
    if bool_decide (length validDevices = O) then ([], false)
    else (validDevices, true).

(** [r.GetAllDevices()], in the order of [map_to_list]. *)
Definition GetAllDevices (r : DeviceRegistry) : list Device :=
  (map_to_list (devices r)).*2.

(** [r.RemoveDevice(ip)] *)
Definition RemoveDevice (r : DeviceRegistry) (ip : string) : DeviceRegistry :=
  {| devices := delete ip (devices r); cache := cache r |}.

(** [r.UpdateDeviceState(ip, updateFunc)], run at instant [now];
    [updateFunc] is given as the device it leaves behind. *)
Definition UpdateDeviceState (now : Time) (r : DeviceRegistry) (ip : string)
    (updateFunc : Device → Device) : DeviceRegistry * bool :=
  match devices r !! ip with
  | None => (r, false)
  | Some device =>
      let device := updateFunc device in
      let device :=
        {| IP := IP device; MAC := MAC device; Hostname := Hostname device;
           Manufacturer := Manufacturer device; Model := Model device;
           Protocols := Protocols device; RTSPStreams := RTSPStreams device;
           DiscoveredAt := DiscoveredAt device; LastSeen := now |} in
      ({| devices := <[ip := device]> (devices r); cache := cache r |}, true)
  end.

(** [r.GetDeviceCount()] *)
Definition GetDeviceCount (r : DeviceRegistry) : Z :=
  Z.of_nat (size (devices r)).

(** [r.Clear()] *)
Definition Clear (r : DeviceRegistry) : DeviceRegistry :=
  {| devices := ∅; cache := cache r |}.

(** [r.ClearCache()] *)
Definition ClearCache (r : DeviceRegistry) : DeviceRegistry :=
  {| devices := devices r;
     cache := {| cache_devices := ∅; defaultTTL := defaultTTL (cache r);
                 lastScan := 0; scanResults := [] |} |}.

(** [r.GetLastScanTime()] *)
Definition GetLastScanTime (r : DeviceRegistry) : Time := lastScan (cache r).

(** The loop of [FilterDevices] over the registered devices, in the order
    of [map_to_list]. *)
Fixpoint filterLoop (filterFunc : Device → bool)
    (entries : list (string * Device)) (result : list Device) : list Device :=
  match entries with
  | [] => result
  | (_, device) :: rest =>
      filterLoop filterFunc rest
        (if filterFunc device then result ++ [device] else result)
  end.

(** [r.FilterDevices(filterFunc)] *)
Definition FilterDevices (r : DeviceRegistry) (filterFunc : Device → bool)
  : list Device :=
  filterLoop filterFunc (map_to_list (devices r)) [].

(** The closure of [GetDevicesByProtocol]: the loop over
    [device.Protocols]. *)
Fixpoint hasProtocol (protocolType : string) (protocols : list Protocol)
  : bool :=
  match protocols with
  | [] => false
  | protocol :: rest =>
      if bool_decide (Type_ protocol = protocolType) then true
      else hasProtocol protocolType rest
  end.

(** [r.GetDevicesByProtocol(protocolType)] *)
Definition GetDevicesByProtocol (r : DeviceRegistry) (protocolType : string)
  : list Device :=
  FilterDevices r (λ device, hasProtocol protocolType (Protocols device)).

(** [r.GetDevicesWithRTSP()] *)
Definition GetDevicesWithRTSP (r : DeviceRegistry) : list Device :=
  FilterDevices r (λ device, 0 <? Z.of_nat (length (RTSPStreams device))).

End Registry.

(* ===================================================================== *)
(** ** internal/scanner: SSDP replies (UPnPScanner)                      *)
(* ===================================================================== *)

Module Upnp.
Import GoStrings Models.

Record SSDPResponse : Type := {
  CacheControl : string;
  Location : string;
  Server : string;
  ST : string;
  USN : string;
  EXT : string;
  Date : string
}.

Definition knownManufacturers : list string :=
  ["Samsung"; "LG"; "Sony"; "Panasonic"; "TP-Link"; "D-Link"; "Netgear"].

Definition setManufacturer (device : Device) (mfg : string) : Device :=
  {| IP := IP device; MAC := MAC device; Hostname := Hostname device;
     Manufacturer := mfg; Model := Model device;
     Protocols := Protocols device; RTSPStreams := RTSPStreams device;
     DiscoveredAt := DiscoveredAt device; LastSeen := LastSeen device |}.

Section WithLibrary.
Context `{Text}.
(** [strings.ToLower] *)
Variable ToLower : string → string.
(** The value [fmt.Sscanf(s, "%d", &port)] leaves in [port], which is 0
    before the call. *)
Variable Sscanf_d : string → Z.

(** [us.extractIPFromURL(url)]; [strings.Split] returns at least one
    part, which is what [parts[0]] reads. *)
Definition extractIPFromURL (url : string) : result string :=
  let url := TrimPrefix url "http://" in
  let url := TrimPrefix url "https://" in
  let parts := Split url "/" in
  if bool_decide (length parts = 0%nat) then Err "invalid URL"
  else
    let hostPort := default EmptyString (parts !! 0%nat) in
    let host := default EmptyString (Split hostPort ":" !! 0%nat) in
    match Net.ParseIP host with
    | None => Err "not a valid IP address"
    | Some ip => Ok (Net.String_ ip)
    end.

(** [us.extractPortFromURL(url)] *)
Definition extractPortFromURL (url : string) : Z :=
  let url := TrimPrefix url "http://" in
  let url := TrimPrefix url "https://" in
  let parts := Split url "/" in
  if bool_decide (length parts = 0%nat) then 0
  else
    let hostPort := default EmptyString (parts !! 0%nat) in
    let portParts := Split hostPort ":" in
    if bool_decide (length portParts = 2%nat) then
      Sscanf_d (default EmptyString (portParts !! 1%nat))
    else if HasPrefix url "https://" then 443
    else 80.

(** The loop of [parseServerHeader] over [knownManufacturers], up to its
    [break]. *)
Fixpoint matchManufacturer (productName : string) (known : list string)
    (device : Device) : Device :=
  match known with
  | [] => device
  | mfg :: known' =>
      if Contains (ToLower productName) (ToLower mfg)
      then setManufacturer device mfg
      else matchManufacturer productName known' device
  end.

Fixpoint serverParts (parts : list string) (device : Device) : Device :=
  match parts with
  | [] => device
  | part :: parts' =>
      let device :=
        if Contains part "/" then
          match Split part "/" with
          | productName :: _ =>
              matchManufacturer productName knownManufacturers device
          | [] => device
          end
        else device in
      serverParts parts' device
  end.

(** [us.parseServerHeader(device, server)] *)
Definition parseServerHeader (device : Device) (server : string) : Device :=
  serverParts (Fields server) device.

(** [us.parseUSN(device, usn)] and [us.parseSearchTarget(device, st)]
    only compute local values: they leave [device] as it is. *)
Definition parseUSN (device : Device) (usn : string) : Device := device.

Definition parseSearchTarget (device : Device) (st : string) : Device :=
  device.

(** The [switch] of [parseSSDPHeaders]. *)
Definition setHeader (r : SSDPResponse) (header value : string)
  : SSDPResponse :=
  if bool_decide (header = "cache-control") then
    {| CacheControl := value; Location := Location r; Server := Server r;
       ST := ST r; USN := USN r; EXT := EXT r; Date := Date r |}
  else if bool_decide (header = "location") then
    {| CacheControl := CacheControl r; Location := value; Server := Server r;
       ST := ST r; USN := USN r; EXT := EXT r; Date := Date r |}
  else if bool_decide (header = "server") then
    {| CacheControl := CacheControl r; Location := Location r; Server := value;
       ST := ST r; USN := USN r; EXT := EXT r; Date := Date r |}
  else if bool_decide (header = "st") || bool_decide (header = "search-target") then
    {| CacheControl := CacheControl r; Location := Location r; Server := Server r;
       ST := value; USN := USN r; EXT := EXT r; Date := Date r |}
  else if bool_decide (header = "usn") then
    {| CacheControl := CacheControl r; Location := Location r; Server := Server r;
       ST := ST r; USN := value; EXT := EXT r; Date := Date r |}
  else if bool_decide (header = "ext") then
    {| CacheControl := CacheControl r; Location := Location r; Server := Server r;
       ST := ST r; USN := USN r; EXT := value; Date := Date r |}
  else if bool_decide (header = "date") then
    {| CacheControl := CacheControl r; Location := Location r; Server := Server r;
       ST := ST r; USN := USN r; EXT := EXT r; Date := value |}
  else r.

Fixpoint headerLoop (lines : list string) (ssdpResp : SSDPResponse)
  : SSDPResponse :=
  match lines with
  | [] => ssdpResp
  | line :: lines' =>
      let line := TrimSpace line in
      if bool_decide (line = EmptyString) then headerLoop lines' ssdpResp
      else
        let parts := SplitN line ":" 2 in
        if negb (bool_decide (length parts = 2%nat))
        then headerLoop lines' ssdpResp
        else
          let header :=
            TrimSpace (ToLower (default EmptyString (parts !! 0%nat))) in
          let value := TrimSpace (default EmptyString (parts !! 1%nat)) in
          headerLoop lines' (setHeader ssdpResp header value)
  end.

(** [us.parseSSDPHeaders(response)] *)
Definition parseSSDPHeaders (response : string) : SSDPResponse :=
  headerLoop (Split response LF)
    {| CacheControl := EmptyString; Location := EmptyString;
       Server := EmptyString; ST := EmptyString; USN := EmptyString;
       EXT := EmptyString; Date := EmptyString |}.

(** [us.parseSSDPResponse(data, sourceIP)]; [now 0] and [now 1] are the
    two readings of the clock. *)
Definition parseSSDPResponse (now : nat → Time) (data sourceIP : string)
  : result Device :=
  let response := data in
  if negb (HasPrefix response "HTTP/1.1") && negb (HasPrefix response "HTTP/1.0")
  then Err "not an HTTP response"
  else
    let ssdpResp := parseSSDPHeaders response in
    let deviceIP :=
      if negb (bool_decide (Location ssdpResp = EmptyString)) then
        match extractIPFromURL (Location ssdpResp) with
        | Ok ip => ip
        | Err _ => sourceIP
        end
      else sourceIP in
    let port :=
      if negb (bool_decide (Location ssdpResp = EmptyString)) then
        let port := extractPortFromURL (Location ssdpResp) in
        if 0 <? port then port else 80
      else 80 in
    let upnpProtocol :=
      {| Type_ := "UPnP"; Port := port; URL := Location ssdpResp;
         Available := true; DetectedAt := now 1%nat |} in
    let device :=
      {| IP := deviceIP; MAC := EmptyString; Hostname := EmptyString;
         Manufacturer := EmptyString; Model := EmptyString;
         Protocols := [] ++ [upnpProtocol]; RTSPStreams := [];
         DiscoveredAt := now 0%nat; LastSeen := 0 |} in
    let device :=
      if negb (bool_decide (Server ssdpResp = EmptyString))
      then parseServerHeader device (Server ssdpResp) else device in
    let device :=
      if negb (bool_decide (USN ssdpResp = EmptyString))
      then parseUSN device (USN ssdpResp) else device in
    let device :=
      if negb (bool_decide (ST ssdpResp = EmptyString))
      then parseSearchTarget device (ST ssdpResp) else device in
    Ok device.

End WithLibrary.

End Upnp.
(* ===================================================================== *)
(** ** Vocabulary of the statements, and the inputs of the examples      *)
(* ===================================================================== *)

(** *** Networks *)

(** A host whose port 554 accepts connections but answers the OPTIONS
    request like a web server. *)
Definition web_server_on_554 : Network.t :=
  {| Network.dial := λ ip port,
       if bool_decide (ip = "10.0.0.5") && (port =? 554)
       then Some {| Network.writeOk := true;
                    Network.incoming :=
                      "HTTP/1.1 400 Bad Request" +:+ GoStrings.CRLF |}
       else None;
     Network.LookupAddr := λ _, Err "no such host" |}.

(** A peer that accepts the connection on [ip]:[port] and answers the
    OPTIONS request with the status line [line]. *)
Definition answering (ip : string) (port : Z) (line : string) : Network.t :=
  {| Network.dial := λ ip' port',
       if bool_decide (ip' = ip) && (port' =? port)
       then Some {| Network.writeOk := true;
                    Network.incoming := line +:+ GoStrings.CRLF |}
       else None;
     Network.LookupAddr := λ _, Err "no such host" |}.

(** No line feed among the bytes of [s]. *)
Fixpoint noLF (s : string) : bool :=
  match s with
  | EmptyString => true
  | String c s' => negb (Ascii.eqb c GoStrings.LF) && noLF s'
  end.

(** The decimal digit of value [n]. *)
Definition digitChar (n : Z) : ascii := ascii_of_nat (Z.to_nat (n + 48)).

(** *** IPv4 networks *)

(** A byte, and an IPv4 address as the 32-bit number its four bytes spell,
    most significant first. *)
Definition byte (x : Z) : Prop := 0 ≤ x < 256.

Definition ipToZ (ip : Net.IP) : Z :=
  match ip with
  | [a; b; c; d] => a * 2 ^ 24 + b * 2 ^ 16 + c * 2 ^ 8 + d
  | _ => 0
  end.

Definition ipOfZ (v : Z) : Net.IP :=
  [v / 2 ^ 24 mod 256; v / 2 ^ 16 mod 256; v / 2 ^ 8 mod 256; v mod 256].

Definition isIPv4 (ip : Net.IP) : Prop :=
  ∃ a b c d, ip = [a; b; c; d] ∧ byte a ∧ byte b ∧ byte c ∧ byte d.

(** The bytes a CIDR mask is made of. *)
Definition maskByteValues : list Z := [0; 128; 192; 224; 240; 248; 252; 254; 255].

Definition maskByteCheck (m x : Z) : bool :=
  (Z.land x m =? (256 - m) * (x / (256 - m)))
  && (Z.lor (Z.land x m) (Z.lxor m 255) =? (256 - m) * (x / (256 - m)) + (255 - m)).

(** The prefix length of a mask: the number of its one bits. *)
Definition maskOnes (mask : Net.IPMask) : Z :=
  foldr (λ b n, n + Z.of_nat (length (List.filter (Z.testbit b) (seqZ 0 8)))) 0 mask.

(** The host addresses of a network, in the words of the specification:
    the addresses strictly between the network address and the broadcast
    address, in ascending order, in dotted decimal. *)
Definition hostString (v : Z) : string := Net.String_ (ipOfZ v).

Definition hostAddresses (ipNet : Net.IPNet) : list string :=
  let network := ipToZ (Net.IPNet_IP ipNet) in
  let broadcast := network + 2 ^ (32 - maskOnes (Net.IPNet_Mask ipNet)) - 1 in
  hostString <$> seqZ (network + 1) (broadcast - network - 1).

(** *** RTSP sessions *)

(** The stream of the examples. *)
Definition camera_url : Rtsp.URL :=
  {| Rtsp.Hostname := "10.0.0.5"; Rtsp.Port := "554"; Rtsp.Path := "/live" |}.

(** A request carries the sequence number [n] when it is the text
    [sendRequest] writes for a client whose counter is [n]. *)
Definition carriesCSeq (request : string) (n : Z) : Prop :=
  ∃ c method path headers,
    Rtsp.cseq c = n ∧ request = Rtsp.requestText c method path headers.

(** The requests a client has sent since it was in state [c]. *)
Definition sentSince (c c' : Rtsp.Client) (requests : list string) : Prop :=
  Rtsp.sent c' = Rtsp.sent c ++ requests
  ∧ Rtsp.cseq c' = Rtsp.cseq c + Z.of_nat (length requests)
  ∧ ∀ (i : nat) request, requests !! i = Some request →
      carriesCSeq request (Rtsp.cseq c + 1 + Z.of_nat i).

(** The outcome of [readResponse] on a reply with no header and no body. *)
Definition parsed (code : Z) (text : string) : result Rtsp.Response * string :=
  (Ok {| Rtsp.StatusCode := code; Rtsp.StatusText := text;
         Rtsp.Headers := ∅; Rtsp.Body := EmptyString |}, EmptyString).

(** The Authorization header of the Digest scheme, in the words of the
    specification. *)
Definition digestResponse (user pass realm nonce method uri : string) : string :=
  Rtsp.md5Hash
    (Rtsp.md5Hash (user +:+ ":" +:+ realm +:+ ":" +:+ pass)
     +:+ ":" +:+ nonce +:+ ":" +:+
     Rtsp.md5Hash (method +:+ ":" +:+ uri)).

Definition digestHeader (user pass realm nonce method uri : string) : string :=
  "Digest username=" +:+ Rtsp.dq +:+ user +:+ Rtsp.dq +:+
  ", realm=" +:+ Rtsp.dq +:+ realm +:+ Rtsp.dq +:+
  ", nonce=" +:+ Rtsp.dq +:+ nonce +:+ Rtsp.dq +:+
  ", uri=" +:+ Rtsp.dq +:+ uri +:+ Rtsp.dq +:+
  ", response=" +:+ Rtsp.dq +:+
  digestResponse user pass realm nonce method uri +:+ Rtsp.dq.

(** The fixture of the specification: admin / 12345, realm IPCam, nonce
    abc, DESCRIBE rtsp://x/. *)
Definition digest_client : Rtsp.Client :=
  {| Rtsp.reader := EmptyString; Rtsp.sent := [];
     Rtsp.url := {| Rtsp.Hostname := "x"; Rtsp.Port := EmptyString;
                    Rtsp.Path := "/" |};
     Rtsp.username := "admin"; Rtsp.password := "12345";
     Rtsp.sessionID := EmptyString; Rtsp.cseq := 2;
     Rtsp.authMethod := "Digest"; Rtsp.realm := "IPCam";
     Rtsp.nonce := "abc" |}.

(** *** Devices *)

(** Devices and protocol entries of the examples. *)
Definition device (ip mac hostname manufacturer model : string)
    (protocols : list Models.Protocol) (discoveredAt : Time) : Models.Device :=
  {| Models.IP := ip; Models.MAC := mac; Models.Hostname := hostname;
     Models.Manufacturer := manufacturer; Models.Model := model;
     Models.Protocols := protocols; Models.RTSPStreams := [];
     Models.DiscoveredAt := discoveredAt; Models.LastSeen := 0 |}.

Definition protocol (tag : string) (port : Z) (url : string) : Models.Protocol :=
  {| Models.Type_ := tag; Models.Port := port; Models.URL := url;
     Models.Available := true; Models.DetectedAt := 0 |}.

(** The same camera as the TCP sweep and as ONVIF discovery report it. *)
Definition swept : Models.Device :=
  device "10.0.0.5" EmptyString "cam5.lan" "Hikvision" EmptyString
    [protocol "RTSP" 554 "rtsp://10.0.0.5:554"] 10.

Definition announced : Models.Device :=
  device "10.0.0.5" EmptyString EmptyString "HIKVISION" "DS-2CD2042WD"
    [protocol "ONVIF" 80 "http://10.0.0.5:80/onvif/device_service"] 20.

(** The device of the registry example of the sources, and a later, bare
    report of the same address. *)
Definition camera_01 : Models.Device :=
  device "192.168.1.100" "00:11:22:33:44:55" "camera-01" "Hikvision"
    "DS-2CD2342WD-I"
    [protocol "RTSP" 554 "rtsp://192.168.1.100:554/Streaming/Channels/101"] 0.

Definition bare_report : Models.Device :=
  device "192.168.1.100" EmptyString EmptyString EmptyString EmptyString
    [protocol "RTSP" 554 EmptyString] 0.

Definition camera_01_stored : Models.Device :=
  {| Models.IP := "192.168.1.100"; Models.MAC := "00:11:22:33:44:55";
     Models.Hostname := "camera-01"; Models.Manufacturer := "Hikvision";
     Models.Model := "DS-2CD2342WD-I";
     Models.Protocols := Models.Protocols camera_01;
     Models.RTSPStreams := [];
     Models.DiscoveredAt := 100; Models.LastSeen := 100 |}.

Definition registry_with_camera : Registry.DeviceRegistry :=
  Registry.AddDevice 100 (Registry.NewDeviceRegistry 3600) camera_01.

(** The keys (tag, port) of a protocol list. *)
Definition keys (protocols : list Models.Protocol) : list string :=
  Detector.protocolKey <$> protocols.

(** The protocols [mergeDevices] appends: those of [new] whose key is
    not a key of [existing]. *)
Definition missingFrom (existing : list Models.Protocol) (p : Models.Protocol)
  : bool :=
  bool_decide (Detector.protocolKey p ∉ keys existing).

(** The cache entry [SaveToCache] makes of a device. *)
Definition cached (expiresAt : Time) (d : Models.Device)
  : string * Registry.CachedDevice :=
  (Models.IP d, {| Registry.Device_ := d; Registry.ExpiresAt := expiresAt |}).

(** *** SDP *)

(** An SDP line the parser acts on: a media description [m=...] or an
    attribute [a=...]. *)
Definition mediaOrAttribute (line : string) : bool :=
  match line with
  | String c (String e _) =>
      Ascii.eqb e "=" && (Ascii.eqb c "m" || Ascii.eqb c "a")
  | _ => false
  end.


(** *** Dotted decimal *)

(** The digit branch of [parseIPv4_loop] over a run of digits: the value
    and the number of digits it leaves, or [None] where the parser
    fails. *)
Fixpoint digitRun (ds : string) (val : Z) (digLen : nat) : option (Z * nat) :=
  match ds with
  | EmptyString => Some (val, digLen)
  | String c ds' =>
      if GoStrings.isDigit c then
        if (digLen =? 1)%nat && (val =? 0) then None
        else
          let val' := val * 10 + GoStrings.digitVal c in
          if 255 <? val' then None else digitRun ds' val' (S digLen)
      else None
  end.

(** [%d] prints the byte [x] as digits the parser reads back as [x]. *)
Definition printsAsByte (x : Z) : bool :=
  match digitRun (Fmt.itoa x) 0 0 with
  | Some (v, n) => (v =? x) && (0 <? n)%nat
  | None => false
  end.

(** No byte [c] in [s]. *)
Fixpoint noByte (c : ascii) (s : string) : bool :=
  match s with
  | EmptyString => true
  | String d s' => negb (Ascii.eqb d c) && noByte c s'
  end.

(** *** Challenges and replies *)

(** A reply that makes [Describe] authenticate and retry: status 401 with
    a WWW-Authenticate header that is not empty. *)
Definition challenged (first : result Rtsp.Response) : bool :=
  match first with
  | Ok response =>
      (Rtsp.StatusCode response =? 401)
      && negb (bool_decide
                 (default EmptyString
                    (Rtsp.Headers response !! "WWW-Authenticate")
                  = EmptyString))
  | Err _ => false
  end.

(** A server that challenges the first request and accepts the second. *)
Definition challenge_then_ok : string :=
  "RTSP/1.0 401 Unauthorized" +:+ GoStrings.CRLF +:+
  "WWW-Authenticate: Basic realm=cam" +:+ GoStrings.CRLF +:+ GoStrings.CRLF +:+
  "RTSP/1.0 200 OK" +:+ GoStrings.CRLF +:+ GoStrings.CRLF.

(** The client [NewClient] returns for that server, and the challenge it
    is going to read. *)
Definition waiting_client : Rtsp.Client :=
  {| Rtsp.reader := challenge_then_ok; Rtsp.sent := []; Rtsp.url := camera_url;
     Rtsp.username := "admin"; Rtsp.password := "12345";
     Rtsp.sessionID := EmptyString; Rtsp.cseq := 1;
     Rtsp.authMethod := EmptyString; Rtsp.realm := EmptyString;
     Rtsp.nonce := EmptyString |}.

Definition basic_challenge : Rtsp.Response :=
  {| Rtsp.StatusCode := 401; Rtsp.StatusText := "Unauthorized";
     Rtsp.Headers := {[ "WWW-Authenticate" := "Basic realm=cam" ]};
     Rtsp.Body := EmptyString |}.

(** A reply with a body of three bytes, followed by a second reply. *)
Definition reply_with_body : string :=
  "RTSP/1.0 200 OK" +:+ GoStrings.CRLF +:+
  "Content-Length: 3" +:+ GoStrings.CRLF +:+ GoStrings.CRLF +:+
  "v=0" +:+ "RTSP/1.0 200 OK" +:+ GoStrings.CRLF +:+ GoStrings.CRLF.

(** *** SDP tracks *)

(** The first video and audio track of a description, the zero track
    when there is none. *)
Definition firstVideo (info : Sdp.StreamInfo) : Sdp.VideoTrack :=
  default Sdp.zeroVideoTrack (head (Sdp.VideoTracks info)).

Definition firstAudio (info : Sdp.StreamInfo) : Sdp.AudioTrack :=
  default Sdp.zeroAudioTrack (head (Sdp.AudioTracks info)).

(** A track whose measured fields still hold their zero value. *)
Definition videoUnmeasured (t : Sdp.VideoTrack) : Prop := Sdp.vt_Bitrate t = 0.

Definition audioUnmeasured (t : Sdp.AudioTrack) : Prop :=
  Sdp.at_Channels t = 0 ∧ Sdp.at_SampleRate t = 0 ∧ Sdp.at_Bitrate t = 0.

(** What the line loop of [ParseSDP] keeps true of [info]. *)
Definition sdpInv (info : Sdp.StreamInfo) : Prop :=
  Sdp.URL info = EmptyString ∧ Sdp.Available info = false
  ∧ Sdp.Bitrate info = 0 ∧ Sdp.Channels info = 0
  ∧ (Sdp.VideoTracks info = [] →
     Sdp.Codec info = EmptyString ∧ Sdp.Resolution info = EmptyString
     ∧ Sdp.FPS info = 0)
  ∧ (Sdp.AudioTracks info = [] → Sdp.AudioCodec info = EmptyString)
  ∧ Forall videoUnmeasured (Sdp.VideoTracks info)
  ∧ Forall audioUnmeasured (Sdp.AudioTracks info).

(** *** Merged reports *)

(** The pair (tag, port) of a protocol entry. *)
Definition endpoint (p : Models.Protocol) : string * Z :=
  (Models.Type_ p, Models.Port p).

(** What [devicesMap] holds once the reports [seen] have been merged:
    every entry is keyed by its address and made of protocols that were
    reported for it, and every report is accounted for. *)
Definition mergedFrom (m : gmap string Models.Device)
    (seen : list Models.Device) : Prop :=
  (∀ k d, m !! k = Some d →
     Models.IP d = k
     ∧ (∃ r, r ∈ seen ∧ Models.IP r = k)
     ∧ ∀ p, p ∈ Models.Protocols d →
         ∃ r, r ∈ seen ∧ Models.IP r = k ∧ p ∈ Models.Protocols r)
  ∧ (∀ r, r ∈ seen →
       ∃ d, m !! Models.IP r = Some d
            ∧ ∀ p, p ∈ Models.Protocols r →
                Detector.protocolKey p ∈ keys (Models.Protocols d)).

(** *** Registry histories *)

(** The operations that change a registry, and a history of them, each
    with the instant at which it runs. *)
Inductive registryOp : Type :=
| OpAddDevice (device : Models.Device)
| OpRemoveDevice (ip : string)
| OpClear
| OpSaveToCache (devs : list Models.Device)
| OpClearCache.

Definition applyOp (r : Registry.DeviceRegistry) (step : Time * registryOp)
  : Registry.DeviceRegistry :=
  match step with
  | (now, OpAddDevice device) => Registry.AddDevice now r device
  | (_, OpRemoveDevice ip) => Registry.RemoveDevice r ip
  | (_, OpClear) => Registry.Clear r
  | (now, OpSaveToCache devs) => Registry.SaveToCache now r devs
  | (_, OpClearCache) => Registry.ClearCache r
  end.

Definition replay (r : Registry.DeviceRegistry)
    (history : list (Time * registryOp)) : Registry.DeviceRegistry :=
  fold_left applyOp history r.

(** The clock does not run backwards over a history that starts at or
    after [since]. *)
Fixpoint chronological (since : Time) (history : list (Time * registryOp))
  : Prop :=
  match history with
  | [] => True
  | (now, _) :: rest => since ≤ now ∧ chronological now rest
  end.

(** Every registered device is filed under its own address and was seen
    no earlier than it was discovered and no later than [t]. *)
Definition wellKept (t : Time) (r : Registry.DeviceRegistry) : Prop :=
  ∀ k d, Registry.devices r !! k = Some d →
    Models.IP d = k
    ∧ Models.DiscoveredAt d ≤ Models.LastSeen d ∧ Models.LastSeen d ≤ t.

(** The last device of [devs] with address [ip]. *)
Definition lastReport (ip : string) (devs : list Models.Device)
  : option Models.Device :=
  last (List.filter (λ d, bool_decide (Models.IP d = ip)) devs).

(** The camera 192.168.1.100 as the registry holds it after it was added
    at instant 100 and reported again, bare, at instant 200. *)
Definition camera_01_seen_again : Models.Device :=
  {| Models.IP := "192.168.1.100"; Models.MAC := EmptyString;
     Models.Hostname := EmptyString; Models.Manufacturer := EmptyString;
     Models.Model := EmptyString;
     Models.Protocols := Models.Protocols bare_report;
     Models.RTSPStreams := [];
     Models.DiscoveredAt := 100; Models.LastSeen := 200 |}.

(** *** Sessions *)

(** The reply to SETUP of the comment in the source, the client that is
    going to read it and the response it reads. *)
Definition session_reply : string :=
  "RTSP/1.0 200 OK" +:+ GoStrings.CRLF +:+
  "Session: 123456; timeout=60" +:+ GoStrings.CRLF +:+ GoStrings.CRLF.

Definition setup_client : Rtsp.Client :=
  {| Rtsp.reader := session_reply; Rtsp.sent := []; Rtsp.url := camera_url;
     Rtsp.username := EmptyString; Rtsp.password := EmptyString;
     Rtsp.sessionID := EmptyString; Rtsp.cseq := 2;
     Rtsp.authMethod := EmptyString; Rtsp.realm := EmptyString;
     Rtsp.nonce := EmptyString |}.

Definition session_granted : Rtsp.Response :=
  {| Rtsp.StatusCode := 200; Rtsp.StatusText := "OK";
     Rtsp.Headers := {[ "Session" := "123456; timeout=60" ]};
     Rtsp.Body := EmptyString |}.

(** *** Locations *)

(** A reading of the verb [%d] that agrees with [fmt.Sscanf] on a sign
    followed by decimal digits. *)
Definition scanDecimal (s : string) : Z := default 0 (GoStrings.Atoi s).

(* ===================================================================== *)
(** * Properties                                                         *)
(* ===================================================================== *)

(** ** Library facts used below *)

Import GoStrings.

Lemma prefix_Contains (s p : string) :
  String.prefix p s = true → GoStrings.Contains s p = true.
Proof. intros Hp. destruct s; cbn [GoStrings.Contains]; rewrite Hp; reflexivity. Qed.

Lemma Contains_cons (c : ascii) (s p : string) :
  GoStrings.Contains s p = true → GoStrings.Contains (String c s) p = true.
Proof.
  intros Hs. change (GoStrings.Contains (String c s) p)
    with (String.prefix p (String c s) || GoStrings.Contains s p).
  rewrite Hs. apply orb_true_r.
Qed.

Lemma append_cons (x : ascii) (a b : string) :
  String x a +:+ b = String x (a +:+ b).
Proof. reflexivity. Qed.

Lemma append_nil_l (b : string) : EmptyString +:+ b = b.
Proof. reflexivity. Qed.

Lemma append_nil_r (a : string) : a +:+ EmptyString = a.
Proof. induction a as [|x a IH]; [done|]. rewrite append_cons. by f_equal. Qed.

Create Rewrite HintDb app_norm.
#[local] Hint Rewrite append_cons append_nil_l append_nil_r : app_norm.

Lemma append_assoc (a b c : string) : (a +:+ b) +:+ c = a +:+ (b +:+ c).
Proof. induction a as [|x a IH]; [done|]. rewrite !append_cons. by f_equal. Qed.

Lemma isDigit_digitVal (c : ascii) :
  GoStrings.isDigit c = true → 0 ≤ GoStrings.digitVal c ≤ 9.
Proof.
  unfold GoStrings.isDigit, GoStrings.digitVal.
  intros [H1 H2]%andb_true_iff.
  apply Nat.leb_le in H1, H2. lia.
Qed.

(* --------------------------------------------------------------------- *)
(** ** The TCP sweep (C1)                                                *)
(* --------------------------------------------------------------------- *)

Section Sweep.
Import Models.
Variable net : Network.t.
Variable now : Time.
Variable ip : string.

Lemma scanPorts_spec (ports : list Z) (acc : list Protocol) :
  Scanner.scanPorts net now ip ports acc
  = acc ++ (Scanner.detectProtocol now ip
              <$> List.filter (Scanner.isPortOpen net ip) ports).
Proof.
  revert acc. induction ports as [|p ports IH]; intros acc; simpl.
  - by rewrite app_nil_r.
  - rewrite IH. destruct (Scanner.isPortOpen net ip p); simpl.
    + by rewrite <- app_assoc.
    + done.
Qed.

Lemma detectProtocol_table (port : Z) :
  let '(tag, scheme) :=
    if (port =? 554) || (port =? 8554) then ("RTSP", "rtsp")
    else if port =? 1935 then ("RTMP", "rtmp")
    else if (port =? 80) || (port =? 8080) then ("HTTP", "http")
    else ("UNKNOWN", "tcp") in
  Scanner.detectProtocol now ip port
  = {| Type_ := tag; Port := port;
       URL := scheme +:+ "://" +:+ ip +:+ ":" +:+ Fmt.itoa port;
       Available := true; DetectedAt := now |}.
Proof.
  unfold Scanner.detectProtocol.
  destruct ((port =? 554) || (port =? 8554));
    [|destruct (port =? 1935); [|destruct ((port =? 80) || (port =? 8080))]];
    f_equal; cbv -[String.append Fmt.itoa]; by autorewrite with app_norm.
Qed.

End Sweep.

(** C1, as stated, fails: on host 10.0.0.5 with port 554 open, the sweep
    records an available RTSP endpoint with URL rtsp://10.0.0.5:554, while
    the RTSP detector's confirmation probe on the same host and port
    reports the protocol as not detected (unavailable, no URL, an error). *)
Lemma sweep_entry_is_not_detector_result :
  (Models.Protocols <$> Scanner.scanHost web_server_on_554 [554] 7 "10.0.0.5")
  = Some [ {| Models.Type_ := "RTSP"; Models.Port := 554;
              Models.URL := "rtsp://10.0.0.5:554";
              Models.Available := true; Models.DetectedAt := 7 |} ]
  ∧ Protocols.Detect web_server_on_554 7 "10.0.0.5" 554
    = ({| Models.Type_ := "RTSP"; Models.Port := 554;
          Models.URL := EmptyString;
          Models.Available := false; Models.DetectedAt := 7 |},
       Some "invalid RTSP response")
  ∧ ¬ (∀ d, Scanner.scanHost web_server_on_554 [554] 7 "10.0.0.5" = Some d →
            (Protocols.Detect web_server_on_554 7 "10.0.0.5" 554).1
            ∈ Models.Protocols d).
Proof.
  split; [reflexivity|]. split; [reflexivity|].
  intros Hall.
  specialize (Hall _ eq_refl).
  vm_compute in Hall.
  apply list_elem_of_In in Hall. simpl in Hall.
  destruct Hall as [Heq|[]]. discriminate Heq.
Qed.

(** C1, amended: for every scanned host, the Protocol entries the sweep
    records are exactly the images, under the port-number table
    [detectProtocol], of the configured ports found open; each entry is
    marked available, carries the probed port, and has tag and URL
    RTSP, rtsp://ip:port for 554 and 8554; RTMP, rtmp://ip:port for 1935;
    HTTP, http://ip:port for 80 and 8080; UNKNOWN, tcp://ip:port
    otherwise.  No detector is run; a host with no open port yields no
    device. *)
Theorem sweep_records_port_table
    (net : Network.t) (ports : list Z) (now : Time) (ip : string) :
  (∀ d, Scanner.scanHost net ports now ip = Some d →
     ∀ entry, entry ∈ Models.Protocols d ↔
       ∃ port, port ∈ ports ∧ Scanner.isPortOpen net ip port = true
               ∧ entry = Scanner.detectProtocol now ip port)
  ∧ (Scanner.scanHost net ports now ip = None ↔
     ∀ port, port ∈ ports → Scanner.isPortOpen net ip port = false)
  ∧ (∀ port,
       let '(tag, scheme) :=
         if (port =? 554) || (port =? 8554) then ("RTSP", "rtsp")
         else if port =? 1935 then ("RTMP", "rtmp")
         else if (port =? 80) || (port =? 8080) then ("HTTP", "http")
         else ("UNKNOWN", "tcp") in
       Scanner.detectProtocol now ip port
       = {| Models.Type_ := tag; Models.Port := port;
            Models.URL := scheme +:+ "://" +:+ ip +:+ ":" +:+ Fmt.itoa port;
            Models.Available := true; Models.DetectedAt := now |}).
Proof.
  split; [|split].
  - intros d Hd entry. unfold Scanner.scanHost in Hd.
    rewrite scanPorts_spec in Hd. simpl in Hd.
    case_bool_decide; [discriminate|]. injection Hd as <-. simpl.
    rewrite list_elem_of_fmap. split.
    + intros (port & -> & Hin). exists port.
      apply list_elem_of_In, filter_In in Hin as [Hin Hopen].
      by rewrite list_elem_of_In.
    + intros (port & Hin & Hopen & ->). exists port. split; [done|].
      apply list_elem_of_In, filter_In. by rewrite <- list_elem_of_In.
  - unfold Scanner.scanHost. rewrite scanPorts_spec. simpl.
    rewrite length_fmap. case_bool_decide as Hlen; split; try done.
    + intros _ port Hin.
      destruct (Scanner.isPortOpen net ip port) eqn:Hopen; [|done].
      apply length_zero_iff_nil in Hlen.
      assert (In port (List.filter (Scanner.isPortOpen net ip) ports)) as Hf
        by (apply filter_In; by rewrite <- list_elem_of_In).
      rewrite Hlen in Hf. destruct Hf.
    + intros Hclosed. exfalso. apply Hlen.
      destruct (List.filter (Scanner.isPortOpen net ip) ports) as [|p l] eqn:Hf;
        [done|].
      assert (In p (List.filter (Scanner.isPortOpen net ip) ports)) as Hp
        by (rewrite Hf; by left).
      apply filter_In in Hp as [Hp Hopen].
      rewrite Hclosed in Hopen; [discriminate|]. by apply list_elem_of_In.
  - apply detectProtocol_table.
Qed.

(** The amended statement at the host of the counterexample: the entry
    recorded for 10.0.0.5:554 is the one the port table gives. *)
Lemma sweep_records_port_table_witness :
  let entry :=
    {| Models.Type_ := "RTSP"; Models.Port := 554;
       Models.URL := "rtsp://10.0.0.5:554";
       Models.Available := true; Models.DetectedAt := 7 |} in
  entry ∈ [entry] ↔
  ∃ port, port ∈ [554]
          ∧ Scanner.isPortOpen web_server_on_554 "10.0.0.5" port = true
          ∧ entry = Scanner.detectProtocol 7 "10.0.0.5" port.
Proof.
  exact (proj1 (sweep_records_port_table web_server_on_554 [554] 7 "10.0.0.5")
           _ eq_refl _).
Defined.

(* --------------------------------------------------------------------- *)
(** ** The RTSP detector (C2)                                            *)
(* --------------------------------------------------------------------- *)

(** What [Detect] returns once a status line has been read depends only
    on two substring tests on that line. *)
Lemma Detect_after_status_line
    (now : Time) (ip : string) (port : Z) (conn : Network.Conn)
    (net : Network.t) (response rest : string) :
  Network.dial net ip port = Some conn →
  Network.writeOk conn = true →
  GoStrings.ReadString (Network.incoming conn) = Some (response, rest) →
  Models.Available (Protocols.Detect net now ip port).1
  = GoStrings.Contains response "RTSP/1.0"
    && (GoStrings.Contains response "200" || GoStrings.Contains response "401").
Proof.
  intros Hdial Hw Hread. unfold Protocols.Detect.
  rewrite Hdial, Hw, Hread. simpl.
  destruct (GoStrings.Contains response "RTSP/1.0"); simpl; [|done].
  destruct (GoStrings.Contains response "200" || GoStrings.Contains response "401");
    done.
Qed.

(** C2: the code accepts status lines the specification excludes.  A reply whose
    status code is 500 is reported as RTSP present because its reason
    phrase contains the digits 200, and so is a reply that does not start
    with RTSP/1.0 but mentions it later; the replies 200 and 401 of the
    specification are accepted, and a plain 404 is not. *)
Theorem detector_accepts_by_substring :
  Protocols.Detect
    (answering "10.0.0.5" 554 "RTSP/1.0 500 Internal Server Error 200") 7
    "10.0.0.5" 554
  = ({| Models.Type_ := "RTSP"; Models.Port := 554;
        Models.URL := "rtsp://10.0.0.5:554";
        Models.Available := true; Models.DetectedAt := 7 |}, None)
  ∧ Protocols.Detect
      (answering "10.0.0.5" 554 "HTTP/1.1 401 Unauthorized (RTSP/1.0 only)") 7
      "10.0.0.5" 554
    = ({| Models.Type_ := "RTSP"; Models.Port := 554;
          Models.URL := "rtsp://10.0.0.5:554";
          Models.Available := true; Models.DetectedAt := 7 |}, None)
  ∧ Models.Available
      (Protocols.Detect (answering "10.0.0.5" 554 "RTSP/1.0 200 OK") 7
         "10.0.0.5" 554).1 = true
  ∧ Models.Available
      (Protocols.Detect (answering "10.0.0.5" 554 "RTSP/1.0 401 Unauthorized") 7
         "10.0.0.5" 554).1 = true
  ∧ Protocols.Detect (answering "10.0.0.5" 554 "RTSP/1.0 404 Not Found") 7
      "10.0.0.5" 554
    = ({| Models.Type_ := "RTSP"; Models.Port := 554;
          Models.URL := EmptyString;
          Models.Available := false; Models.DetectedAt := 7 |}, None).
Proof. repeat split; reflexivity. Qed.

(** *** What the detector does accept *)

Lemma Contains_app_l (a s sub : string) :
  Contains s sub = true → Contains (a +:+ s) sub = true.
Proof.
  intros Hs. induction a as [|c a IH]; [done|].
  rewrite append_cons. by apply Contains_cons.
Qed.

Lemma prefix_app_r (p s b : string) :
  String.prefix p s = true → String.prefix p (s +:+ b) = true.
Proof.
  revert s. induction p as [|c p IH]; intros s Hp; [by destruct (s +:+ b)|].
  destruct s as [|d s]; [discriminate|].
  rewrite append_cons. cbn [String.prefix] in *.
  destruct (ascii_dec c d); [|discriminate]. by apply IH.
Qed.

Lemma Contains_app_r (s b sub : string) :
  Contains s sub = true → Contains (s +:+ b) sub = true.
Proof.
  induction s as [|c s IH]; cbn [Contains].
  - rewrite orb_false_r. intros Hp. apply prefix_Contains.
    by apply (prefix_app_r sub EmptyString b).
  - intros [Hp|Hs]%orb_true_iff.
    + apply prefix_Contains. by apply prefix_app_r.
    + rewrite append_cons. apply Contains_cons. by apply IH.
Qed.

Lemma noLF_app (a b : string) : noLF (a +:+ b) = noLF a && noLF b.
Proof.
  induction a as [|c a IH]; [done|].
  rewrite append_cons. simpl. by rewrite IH, andb_assoc.
Qed.

Lemma ReadString_app (a b : string) :
  noLF a = true →
  ReadString (a +:+ b)
  = '(line, rest) ← ReadString b; Some (a +:+ line, rest).
Proof.
  induction a as [|c a IH]; intros Ha.
  - change (EmptyString +:+ b) with b.
    destruct (ReadString b) as [[line rest]|]; reflexivity.
  - simpl in Ha. apply andb_true_iff in Ha as [Hc Ha].
    rewrite append_cons. cbn [ReadString].
    destruct (Ascii.eqb c LF); [discriminate|].
    rewrite IH by done.
    destruct (ReadString b) as [[line rest]|]; reflexivity.
Qed.

Lemma ReadString_terminated (s : string) :
  is_Some (ReadString (s +:+ CRLF)).
Proof.
  induction s as [|c s [[line rest] IH]]; [by eexists|].
  rewrite append_cons. cbn [ReadString].
  destruct (Ascii.eqb c LF); [by eexists|].
  rewrite IH. by eexists.
Qed.

Lemma isDigit_cases (c : ascii) :
  isDigit c = true →
  0 ≤ digitVal c ≤ 9 ∧ Ascii.eqb c LF = false ∧ c = digitChar (digitVal c).
Proof.
  intros Hd. pose proof (isDigit_digitVal c Hd) as Hv.
  split; [done|]. split.
  - destruct (Ascii.eqb_spec c LF) as [->|]; [discriminate Hd|done].
  - unfold digitChar, digitVal in *.
    replace (Z.to_nat (Z.of_nat (nat_of_ascii c) - 48 + 48)) with (nat_of_ascii c)
      by lia.
    by rewrite ascii_nat_embedding.
Qed.

Lemma digitsVal_bounds (s : string) :
  ∀ acc v, 0 ≤ acc → digitsVal s acc = Some v →
    acc * 10 ^ Z.of_nat (String.length s) ≤ v
      < (acc + 1) * 10 ^ Z.of_nat (String.length s)
    ∧ noLF s = true.
Proof.
  induction s as [|c s IH]; intros acc v Hacc Hv; cbn [digitsVal] in Hv.
  - injection Hv as <-. simpl. split; [lia|done].
  - destruct (isDigit c) eqn:Hd; [|discriminate].
    destruct (isDigit_cases c Hd) as (Hc & HLF & _).
    assert (0 ≤ acc * 10 + digitVal c) as Hacc' by lia.
    destruct (IH _ _ Hacc' Hv) as [Hr Hn].
    cbn [noLF String.length]. rewrite HLF, Hn. split; [|done].
    rewrite Nat2Z.inj_succ, Z.pow_succ_r by lia.
    assert (0 < 10 ^ Z.of_nat (String.length s)) by (apply Z.pow_pos_nonneg; lia).
    nia.
Qed.

(** A numeral of value [100 h + 10 t + u] spells the three digits. *)
Lemma digitsVal_three (h t u : Z) (s : string) :
  1 ≤ h ≤ 9 → 0 ≤ t ≤ 9 → 0 ≤ u ≤ 9 →
  digitsVal s 0 = Some (100 * h + 10 * t + u) →
  Contains s (String (digitChar h)
                (String (digitChar t) (String (digitChar u) EmptyString)))
  = true.
Proof.
  intros Hh Ht Hu. induction s as [|c s IH]; cbn [digitsVal].
  - intros [= Hz]. lia.
  - destruct (isDigit c) eqn:Hd; [|discriminate].
    destruct (isDigit_cases c Hd) as (Hc & _ & Hch).
    intros Hv. replace (0 * 10 + digitVal c) with (digitVal c) in Hv by lia.
    destruct (Z.eq_dec (digitVal c) 0) as [Hz|Hnz].
    { rewrite Hz in Hv. by apply Contains_cons, IH. }
    assert (0 ≤ digitVal c) as Hc0 by lia.
    destruct (digitsVal_bounds _ _ _ Hc0 Hv) as [Hr _].
    destruct s as [|c1 [|c2 [|c3 s]]].
    + simpl in Hr. lia.
    + simpl in Hr. lia.
    + clear IH Hr. cbn [digitsVal] in Hv.
      destruct (isDigit c1) eqn:Hd1; [|discriminate].
      destruct (isDigit c2) eqn:Hd2; [|discriminate].
      destruct (isDigit_cases c1 Hd1) as (Hc1 & _ & Hch1).
      destruct (isDigit_cases c2 Hd2) as (Hc2 & _ & Hch2).
      injection Hv as Hv.
      assert (digitVal c = h ∧ digitVal c1 = t ∧ digitVal c2 = u)
        as (Hq1 & Hq2 & Hq3) by lia.
      rewrite Hch, Hch1, Hch2, Hq1, Hq2, Hq3.
      apply prefix_Contains. simpl.
      by repeat destruct (ascii_dec _ _).
    + exfalso. cbn [String.length] in Hr.
      rewrite !Nat2Z.inj_succ, !Z.pow_succ_r in Hr by lia.
      assert (0 < 10 ^ Z.of_nat (String.length s)) by (apply Z.pow_pos_nonneg; lia).
      nia.
Qed.

Lemma unsignedVal_Some (s : string) (w : Z) :
  unsignedVal s = Some w → digitsVal s 0 = Some w.
Proof. by destruct s. Qed.

Lemma Atoi_three (h t u : Z) (code : string) :
  1 ≤ h ≤ 9 → 0 ≤ t ≤ 9 → 0 ≤ u ≤ 9 →
  Atoi code = Some (100 * h + 10 * t + u) →
  Contains code (String (digitChar h)
                   (String (digitChar t) (String (digitChar u) EmptyString)))
  = true
  ∧ noLF code = true.
Proof.
  intros Hh Ht Hu. unfold Atoi.
  set (v := 100 * h + 10 * t + u).
  assert (∀ o : option Z,
            o ≫= (λ v0, if inInt64 v0 then Some v0 else None) = Some v →
            o = Some v) as Hin.
  { intros [w|]; [|discriminate].
    simpl. destruct (inInt64 w); [|discriminate]. by intros [= ->]. }
  intros Hv%Hin.
  destruct code as [|c code]; [discriminate|].
  destruct (Ascii.eqb_spec c "-") as [->|Hminus].
  { cbn -[unsignedVal] in Hv.
    destruct (unsignedVal code) as [w|] eqn:Hw; [|discriminate].
    injection Hv as Hv.
    apply unsignedVal_Some, digitsVal_bounds in Hw as [Hw _]; [|lia].
    assert (0 < 10 ^ Z.of_nat (String.length code))
      by (apply Z.pow_pos_nonneg; lia).
    subst v. lia. }
  destruct (Ascii.eqb_spec c "+") as [->|Hplus].
  { cbn -[unsignedVal] in Hv. apply unsignedVal_Some in Hv. split.
    - by apply Contains_cons, digitsVal_three.
    - cbn [noLF]. by apply digitsVal_bounds in Hv as [_ ->]. }
  assert (digitsVal (String c code) 0 = Some v) as Hw.
  { apply unsignedVal_Some. revert Hv. clear -Hminus Hplus.
    destruct c as [[] [] [] [] [] [] [] []]; try done. }
  split.
  - by apply digitsVal_three.
  - by apply digitsVal_bounds in Hw as [_ ->].
Qed.

(** The detector accepts every reply the specification accepts: a status
    line made of the version RTSP/1.0, a status code that reads as 200 or
    401, and any reason phrase. *)
Lemma Detect_accepts_200_401
    (now : Time) (ip : string) (port : Z) (code reason : string) :
  Atoi code = Some 200 ∨ Atoi code = Some 401 →
  Models.Available
    (Protocols.Detect
       (answering ip port ("RTSP/1.0 " +:+ code +:+ " " +:+ reason)) now ip port).1
  = true.
Proof.
  intros Hcode.
  assert ((Contains code "200" = true ∨ Contains code "401" = true)
          ∧ noLF code = true) as [Hc Hn].
  { destruct Hcode as [Hcode|Hcode].
    - destruct (Atoi_three 2 0 0 code) as [? ?]; try lia; [done|]. by split; [left|].
    - destruct (Atoi_three 4 0 1 code) as [? ?]; try lia; [done|]. by split; [right|]. }
  set (net := answering ip port ("RTSP/1.0 " +:+ code +:+ " " +:+ reason)).
  set (conn := {| Network.writeOk := true;
                  Network.incoming :=
                    ("RTSP/1.0 " +:+ code +:+ " " +:+ reason) +:+ CRLF |}).
  assert (Network.dial net ip port = Some conn) as Hdial.
  { subst net conn. simpl. rewrite bool_decide_eq_true_2 by done.
    by rewrite Z.eqb_refl. }
  destruct (ReadString_terminated reason) as [[line rest] Hline].
  assert (ReadString (Network.incoming conn)
          = Some (("RTSP/1.0 " +:+ code +:+ " ") +:+ line, rest)) as Hread.
  { subst conn. cbn [Network.incoming].
    replace (("RTSP/1.0 " +:+ code +:+ " " +:+ reason) +:+ CRLF)
      with (("RTSP/1.0 " +:+ code +:+ " ") +:+ (reason +:+ CRLF)).
    - rewrite ReadString_app, Hline; [done|].
      rewrite !noLF_app, Hn. reflexivity.
    - by rewrite !append_assoc. }
  rewrite (Detect_after_status_line now ip port conn net _ rest Hdial eq_refl Hread).
  apply andb_true_iff. split.
  - apply prefix_Contains. reflexivity.
  - apply orb_true_iff.
    destruct Hc as [Hc|Hc]; [left|right];
      apply Contains_app_r, (Contains_app_l "RTSP/1.0 "), Contains_app_r, Hc.
Qed.

(* --------------------------------------------------------------------- *)
(** ** CIDR expansion (C3)                                               *)
(* --------------------------------------------------------------------- *)

#[local] Set Warnings "-clear-no-such-hyp".

Lemma maskByteCheck_all :
  forallb (λ m, forallb (maskByteCheck m) (seqZ 0 256)) maskByteValues = true.
Proof. vm_compute. reflexivity. Qed.

Lemma maskByte_facts (m x : Z) :
  m ∈ maskByteValues → byte x →
  Z.land x m = (256 - m) * (x / (256 - m))
  ∧ Z.lor (Z.land x m) (Z.lxor m 255) = (256 - m) * (x / (256 - m)) + (255 - m).
Proof.
  intros Hm Hx.
  pose proof maskByteCheck_all as Hall.
  rewrite forallb_forall in Hall.
  specialize (Hall m (proj1 (list_elem_of_In _ _) Hm)).
  rewrite forallb_forall in Hall.
  assert (x ∈ seqZ 0 256) as Hin by (apply elem_of_seqZ; unfold byte in Hx; lia).
  specialize (Hall x (proj1 (list_elem_of_In _ _) Hin)).
  unfold maskByteCheck in Hall.
  apply andb_true_iff in Hall as [H1 H2].
  apply Z.eqb_eq in H1, H2. done.
Qed.

Lemma incrementIP_spec (a b c d : Z) :
  byte a → byte b → byte c → byte d →
  isIPv4 (Utils.incrementIP [a; b; c; d])
  ∧ ipToZ (Utils.incrementIP [a; b; c; d])
    = (ipToZ [a; b; c; d] + 1) mod 2 ^ 32.
Proof.
  unfold byte. intros Ha Hb Hc Hd.
  unfold Utils.incrementIP.
  cbn -[Z.modulo Z.add Z.ltb Z.pow Z.mul].
  unfold isIPv4, byte.
  repeat match goal with
  | |- context [0 <? ?x] => destruct (Z.ltb_spec 0 x)
  end; cbn -[Z.modulo Z.add Z.ltb Z.pow Z.mul];
  (split; [eexists _, _, _, _; split; [reflexivity|]; Z.div_mod_to_equations; lia | Z.div_mod_to_equations; lia]).
Qed.

Lemma land_idem (x m : Z) : Z.land (Z.land x m) m = Z.land x m.
Proof. by rewrite <- Z.land_assoc, Z.land_diag. Qed.

Ltac mask_byte_rewrite :=
  repeat match goal with
  | |- context [Z.lor (Z.land ?x ?m) (Z.lxor ?m 255)] =>
      rewrite (proj2 (maskByte_facts m x ltac:(vm_compute; set_solver) ltac:(assumption)))
  | |- context [Z.land ?x ?m] =>
      rewrite (proj1 (maskByte_facts m x ltac:(vm_compute; set_solver) ltac:(assumption)))
  end.

Ltac arith := Z.div_mod_to_equations; lia.

Ltac bridge_case :=
  intros m nip N H; subst m nip N H;
  match goal with
  | |- context [Net.CIDRMask ?p 32] =>
      let mv := eval vm_compute in (Net.CIDRMask p 32) in
      change (Net.CIDRMask p 32) with mv
  end;
  match goal with
  | |- context [2 ^ ?e] =>
      let v := eval vm_compute in (2 ^ e) in change (2 ^ e) with v
  end;
  cbn -[Z.land Z.lor Z.lxor Z.mul Z.add Z.pow Z.eqb Z.le Z.lt Z.sub];
  rewrite ?land_idem;
  unfold isIPv4;
  repeat match goal with |- _ ∧ _ => split end;
  try (eexists _, _, _, _; split; [reflexivity|]);
  intros;
  cbn -[Z.land Z.lor Z.lxor Z.mul Z.add Z.pow Z.eqb Z.le Z.lt Z.sub];
  rewrite ?land_idem;
  mask_byte_rewrite;
  unfold byte in *;
  repeat match goal with
  | |- context [?x =? ?y] => destruct (Z.eqb_spec x y)
  end;
  try (split; intros; try discriminate; try reflexivity);
  try arith;
  try (exfalso; arith).

Lemma cidr_bridge (p x0 x1 x2 x3 : Z) :
  0 ≤ p ≤ 32 → byte x0 → byte x1 → byte x2 → byte x3 →
  let m := Net.CIDRMask p 32 in
  let nip := Net.Mask [x0; x1; x2; x3] m in
  let N := ipToZ nip in
  let H := 2 ^ (32 - p) in
  isIPv4 nip ∧ Net.Mask nip m = nip ∧ 0 ≤ N ∧ N + H ≤ 2 ^ 32
  ∧ isIPv4 (Utils.broadcastBytes nip m)
  ∧ ipToZ (Utils.broadcastBytes nip m) = N + H - 1
  ∧ ∀ a b c d, byte a → byte b → byte c → byte d →
      (Net.Contains {| Net.IPNet_IP := nip; Net.IPNet_Mask := m |} [a; b; c; d] = true
       ↔ N ≤ ipToZ [a; b; c; d] < N + H).
Proof.
  intros Hp H0 H1 H2 H3.
  assert (∃ n : nat, (n ≤ 32)%nat ∧ p = Z.of_nat n) as (n & Hn & ->)
    by (exists (Z.to_nat p); lia).
  clear Hp. revert Hn.
  do 33 (destruct n as [|n]; [intros _; bridge_case|]).
  lia.
Qed.

Lemma ipOfZ_ipToZ (a b c d : Z) :
  byte a → byte b → byte c → byte d → ipOfZ (ipToZ [a; b; c; d]) = [a; b; c; d].
Proof.
  unfold byte, ipOfZ, ipToZ. intros Ha Hb Hc Hd.
  repeat f_equal; arith.
Qed.

Lemma ipToZ_range (ip : Net.IP) : isIPv4 ip → 0 ≤ ipToZ ip < 2 ^ 32.
Proof.
  intros (a & b & c & d & -> & Ha & Hb & Hc & Hd).
  unfold byte, ipToZ in *. lia.
Qed.

Lemma ipToZ_inj (ip ip' : Net.IP) :
  isIPv4 ip → isIPv4 ip' → ipToZ ip = ipToZ ip' → ip = ip'.
Proof.
  intros (a & b & c & d & -> & Ha & Hb & Hc & Hd)
         (a' & b' & c' & d' & -> & Ha' & Hb' & Hc' & Hd') Heq.
  unfold byte, ipToZ in *.
  assert (a = a' ∧ b = b' ∧ c = c' ∧ d = d') as (-> & -> & -> & ->) by lia.
  done.
Qed.

Lemma Equal_spec (ip ip' : Net.IP) :
  isIPv4 ip → isIPv4 ip' →
  Net.Equal ip ip' = bool_decide (ipToZ ip = ipToZ ip').
Proof.
  intros Hip Hip'. unfold Net.Equal.
  apply bool_decide_ext. split; [by intros ->|]. by apply ipToZ_inj.
Qed.

Section HostsLoop.
Variables (ipNet : Net.IPNet) (broadcast : Net.IP) (N H : Z).
Hypothesis Hnet : isIPv4 (Net.IPNet_IP ipNet) ∧ ipToZ (Net.IPNet_IP ipNet) = N.
Hypothesis Hbc : isIPv4 broadcast ∧ ipToZ broadcast = N + H - 1.
Hypothesis Hrange : 0 ≤ N ∧ N + H ≤ 2 ^ 32 ∧ 1 ≤ H.
Hypothesis Hcontains : ∀ a b c d, byte a → byte b → byte c → byte d →
  (Net.Contains ipNet [a; b; c; d] = true ↔ N ≤ ipToZ [a; b; c; d] < N + H).

Lemma Contains_range (ip : Net.IP) :
  isIPv4 ip →
  Net.Contains ipNet ip = bool_decide (N ≤ ipToZ ip < N + H).
Proof.
  intros (a & b & c & d & -> & Ha & Hb & Hc & Hd).
  specialize (Hcontains a b c d Ha Hb Hc Hd).
  case_bool_decide as Hr.
  - by apply Hcontains.
  - destruct (Net.Contains ipNet [a; b; c; d]); [|done].
    exfalso. apply Hr. by apply Hcontains.
Qed.

Lemma incrementIP_isIPv4 (ip : Net.IP) :
  isIPv4 ip →
  isIPv4 (Utils.incrementIP ip)
  ∧ ipToZ (Utils.incrementIP ip) = (ipToZ ip + 1) mod 2 ^ 32.
Proof.
  intros (a & b & c & d & -> & Ha & Hb & Hc & Hd). by apply incrementIP_spec.
Qed.

Lemma hostsLoop_step (fuel : nat) (ip : Net.IP) (hosts : list string) :
  isIPv4 ip → N ≤ ipToZ ip < N + H →
  Utils.hostsLoop (S fuel) ipNet broadcast ip hosts
  = Utils.hostsLoop fuel ipNet broadcast (Utils.incrementIP ip)
      (if bool_decide (ipToZ ip ≠ N ∧ ipToZ ip ≠ N + H - 1)
       then hosts ++ [hostString (ipToZ ip)] else hosts).
Proof.
  intros Hip Hin. cbn [Utils.hostsLoop].
  rewrite (Contains_range ip Hip), bool_decide_eq_true_2 by done.
  rewrite !Equal_spec by (done || apply Hnet || apply Hbc).
  destruct Hnet as [_ ->]. destruct Hbc as [_ ->].
  assert (hostString (ipToZ ip) = Net.String_ ip) as ->.
  { destruct Hip as (a & b & c & d & -> & Ha & Hb' & Hc & Hd).
    unfold hostString. by rewrite ipOfZ_ipToZ. }
  f_equal.
  repeat case_bool_decide; simpl; try done; lia.
Qed.

(** Inside a proper subnet the loop leaves after the broadcast address. *)
Lemma hostsLoop_exits (k : nat) :
  H < 2 ^ 32 →
  ∀ (ip : Net.IP) (hosts : list string) (fuel : nat),
    isIPv4 ip → ipToZ ip = N + H - Z.of_nat (S k) → N ≤ ipToZ ip →
    (S (S k) ≤ fuel)%nat →
    Utils.hostsLoop fuel ipNet broadcast ip hosts
    = Some (hosts ++ (hostString <$>
              seqZ (Z.max (ipToZ ip) (N + 1))
                   (N + H - 1 - Z.max (ipToZ ip) (N + 1)))).
Proof.
  intros Hproper. induction k as [|k IH]; intros ip hosts fuel Hip Hv HN Hfuel.
  - destruct fuel as [|[|fuel]]; [lia..|].
    rewrite hostsLoop_step by (done || lia).
    rewrite bool_decide_eq_false_2 by lia.
    destruct (incrementIP_isIPv4 ip Hip) as [Hip' Hv'].
    cbn [Utils.hostsLoop].
    rewrite (Contains_range _ Hip'), bool_decide_eq_false_2.
    + rewrite seqZ_nil by lia. by rewrite app_nil_r.
    + rewrite Hv'. intros Hr.
      destruct (Z.eq_dec (N + H) (2 ^ 32)) as [Hfull|Hfull].
      * replace (ipToZ ip + 1) with (2 ^ 32) in Hr by lia.
        rewrite Z.mod_same in Hr by lia. lia.
      * rewrite Z.mod_small in Hr by lia. lia.
  - destruct fuel as [|fuel]; [lia|].
    rewrite hostsLoop_step by (done || lia).
    destruct (incrementIP_isIPv4 ip Hip) as [Hip' Hv'].
    rewrite Z.mod_small in Hv' by lia.
    rewrite (IH _ _ fuel Hip') by lia.
    rewrite Hv'. f_equal.
    case_bool_decide as Hmid.
    + rewrite <- app_assoc. f_equal.
      rewrite (Z.max_l (ipToZ ip)) by lia.
      rewrite (seqZ_cons (ipToZ ip)) by lia.
      rewrite Z.max_l by lia. simpl. do 3 f_equal; lia.
    + assert (ipToZ ip = N) as -> by lia.
      f_equal. rewrite Z.max_l, Z.max_r by lia. done.
Qed.

(** When the network is the whole address space the condition of the
    loop never fails. *)
Lemma hostsLoop_never_exits :
  N = 0 → H = 2 ^ 32 →
  ∀ (fuel : nat) (ip : Net.IP) (hosts : list string),
    isIPv4 ip → Utils.hostsLoop fuel ipNet broadcast ip hosts = None.
Proof.
  intros HN HH. induction fuel as [|fuel IH]; intros ip hosts Hip; [done|].
  pose proof (ipToZ_range ip Hip).
  rewrite hostsLoop_step by (done || lia).
  apply IH. by apply incrementIP_isIPv4.
Qed.

End HostsLoop.

Lemma parseIPv4_loop_bytes (s : string) :
  ∀ (fields : list Z) (val : Z) (digLen : nat) (ip : Net.IP),
    Net.parseIPv4_loop s fields val digLen = Some ip →
    Forall byte fields → byte val → (length fields ≤ 3)%nat → isIPv4 ip.
Proof.
  induction s as [|c s IH]; intros fields val digLen ip Hparse Hfields Hval Hlen.
  - cbn [Net.parseIPv4_loop] in Hparse.
    destruct (Nat.ltb_spec (length fields) 3); [discriminate|].
    injection Hparse as <-.
    destruct fields as [|a [|b [|c' [|? ?]]]]; simpl in *; try lia.
    apply Forall_cons in Hfields as [Ha Hfields].
    apply Forall_cons in Hfields as [Hb Hfields].
    apply Forall_cons in Hfields as [Hc _].
    by exists a, b, c', val.
  - cbn [Net.parseIPv4_loop] in Hparse.
    destruct (GoStrings.isDigit c) eqn:Hd.
    + destruct ((digLen =? 1)%nat && (val =? 0)); [discriminate|].
      destruct (Z.ltb_spec 255 (val * 10 + GoStrings.digitVal c)); [discriminate|].
      eapply IH; [exact Hparse|done| |done].
      pose proof (isDigit_digitVal c Hd). unfold byte in *. lia.
    + destruct (Ascii.eqb c "."); [|discriminate].
      destruct (digLen =? 0)%nat; [discriminate|].
      case_bool_decide; [discriminate|].
      destruct (Nat.eqb_spec (length fields) 3); [discriminate|].
      eapply IH; [exact Hparse| | |].
      * apply Forall_app. split; [done|]. by apply Forall_singleton.
      * unfold byte; lia.
      * rewrite length_app. simpl. lia.
Qed.

Lemma Index_nonempty (s sub : string) (i : nat) :
  GoStrings.Index s sub = Some i → sub ≠ EmptyString → s ≠ EmptyString.
Proof. intros Hi Hsub ->. destruct sub; [done|]. discriminate Hi. Qed.

Lemma ParseCIDR_inv (s : string) (ip : Net.IP) (ipNet : Net.IPNet) :
  Net.ParseCIDR s = Some (ip, ipNet) →
  s ≠ EmptyString
  ∧ isIPv4 ip
  ∧ ∃ p, 0 ≤ p ≤ 32
         ∧ ipNet = {| Net.IPNet_IP := Net.Mask ip (Net.CIDRMask p 32);
                      Net.IPNet_Mask := Net.CIDRMask p 32 |}.
Proof.
  unfold Net.ParseCIDR. intros Hparse.
  destruct (GoStrings.Index s "/") as [i|] eqn:Hi; [|discriminate].
  split; [by eapply Index_nonempty|].
  simpl in Hparse.
  destruct (GoStrings.slice_to s i) as [addr|]; [|discriminate].
  destruct (GoStrings.slice_from s (S i)) as [mask|]; [|discriminate].
  simpl in Hparse.
  destruct (Net.parseIPv4 addr) as [ip'|] eqn:Hip; [|discriminate].
  simpl in Hparse.
  destruct (Net.dtoi mask) as [[n j] ok].
  destruct ok; simpl in Hparse; [|discriminate].
  destruct (j =? String.length mask)%nat; simpl in Hparse; [|discriminate].
  destruct (Z.ltb_spec n 0); simpl in Hparse; [discriminate|].
  destruct (Z.ltb_spec 32 n); simpl in Hparse; [discriminate|].
  injection Hparse as <- <-.
  split.
  - eapply parseIPv4_loop_bytes; [exact Hip|constructor|unfold byte; lia|simpl; lia].
  - exists n. split; [lia|done].
Qed.

Lemma maskOnes_CIDRMask (p : Z) : 0 ≤ p ≤ 32 → maskOnes (Net.CIDRMask p 32) = p.
Proof.
  intros Hp.
  assert (p ∈ seqZ 0 33) as Hin by (apply elem_of_seqZ; lia).
  assert (forallb (λ p, maskOnes (Net.CIDRMask p 32) =? p) (seqZ 0 33) = true)
    as Hall by (vm_compute; reflexivity).
  rewrite forallb_forall in Hall.
  apply Z.eqb_eq, Hall, list_elem_of_In, Hin.
Qed.

(** CIDR expansion: for every CIDR string that parses (as an IPv4 network),
    [GetSubnetHosts] returns, with enough steps of the loop, the addresses
    strictly between the network and the broadcast address in ascending
    order, provided the prefix length is at least 1; with a prefix length of
    0 the loop never exits. *)
Theorem GetSubnetHosts_spec
    (defaultSubnet : option string) (s : string) (ip : Net.IP)
    (ipNet : Net.IPNet) :
  Net.ParseCIDR s = Some (ip, ipNet) →
  let ones := maskOnes (Net.IPNet_Mask ipNet) in
  (1 ≤ ones →
   ∀ fuel, (Z.to_nat (2 ^ (32 - ones)) + 1 ≤ fuel)%nat →
     Utils.GetSubnetHosts defaultSubnet fuel s = Some (Ok (hostAddresses ipNet)))
  ∧ (ones = 0 →
     ∀ fuel, Utils.GetSubnetHosts defaultSubnet fuel s = None).
Proof.
  intros Hparse ones.
  destruct (ParseCIDR_inv s ip ipNet Hparse)
    as (Hs & (x0 & x1 & x2 & x3 & -> & H0 & H1 & H2 & H3) & p & Hp & ->).
  subst ones. cbn [Net.IPNet_Mask]. rewrite maskOnes_CIDRMask by done.
  destruct (cidr_bridge p x0 x1 x2 x3 Hp H0 H1 H2 H3)
    as (Hnip & Hidem & HN0 & HNH & Hbip & Hbc & Hcont).
  assert (0 < 2 ^ (32 - p)) as Hpos by (apply Z.pow_pos_nonneg; lia).
  unfold Utils.GetSubnetHosts, Utils.ParseSubnet.
  rewrite bool_decide_eq_false_2 by done.
  rewrite Hparse. cbn [Net.IPNet_IP Net.IPNet_Mask].
  rewrite !Hidem.
  set (m := Net.CIDRMask p 32) in *.
  set (nip := Net.Mask [x0; x1; x2; x3] m) in *.
  set (ipn := {| Net.IPNet_IP := nip; Net.IPNet_Mask := m |}) in *.
  split.
  - intros Hp1 fuel Hfuel.
    assert (2 ^ (32 - p) < 2 ^ 32) as Hproper
      by (apply Z.pow_lt_mono_r; lia).
    pose proof (ipToZ_range _ Hnip) as HNr.
    destruct (Z.to_nat (2 ^ (32 - p))) as [|k] eqn:Hk; [lia|].
    rewrite (hostsLoop_exits ipn (Utils.broadcastBytes nip m) (ipToZ nip)
               (2 ^ (32 - p)) (conj Hnip eq_refl) (conj Hbip Hbc)
               ltac:(lia) Hcont k Hproper) by (done || lia).
    simpl. unfold hostAddresses. cbn [Net.IPNet_IP Net.IPNet_Mask ipn].
    subst m. rewrite maskOnes_CIDRMask by done.
    rewrite Z.max_r by lia. do 4 f_equal. lia.
  - intros -> fuel.
    change (2 ^ (32 - 0)) with (2 ^ 32) in *.
    assert (ipToZ nip = 0) as HN by lia.
    rewrite (hostsLoop_never_exits ipn (Utils.broadcastBytes nip m) (ipToZ nip)
               (2 ^ 32) (conj Hnip eq_refl) (conj Hbip Hbc) Hcont
               HN eq_refl) by done.
    done.
Qed.

(** C3: on the network 0.0.0.0/0, a valid CIDR string, the loop of
    [GetSubnetHosts] never exits: after the address 255.255.255.255 the
    increment wraps to 0.0.0.0, which the network contains again.  However
    many steps are allowed, the function has not returned. *)
Theorem GetSubnetHosts_whole_space_never_returns :
  ∀ fuel, Utils.GetSubnetHosts None fuel "0.0.0.0/0" = None.
Proof.
  intros fuel.
  assert (Net.ParseCIDR "0.0.0.0/0"
          = Some ([0; 0; 0; 0],
                  {| Net.IPNet_IP := [0; 0; 0; 0];
                     Net.IPNet_Mask := [0; 0; 0; 0] |})) as Hparse
    by reflexivity.
  exact (proj2 (GetSubnetHosts_spec None _ _ _ Hparse) eq_refl fuel).
Qed.

(** The two boundary cases of the specification. *)
Example hosts_24 :
  Utils.GetSubnetHosts None 300 "192.168.1.0/24"
  = Some (Ok ((λ i, "192.168.1." +:+ Fmt.itoa i) <$> seqZ 1 254)).
Proof. vm_compute. reflexivity. Qed.

Example hosts_30 :
  Utils.GetSubnetHosts None 300 "192.168.1.0/30"
  = Some (Ok ["192.168.1.1"; "192.168.1.2"]).
Proof. vm_compute. reflexivity. Qed.

(** The general statement at 192.168.1.0/30. *)
Example GetSubnetHosts_spec_at_30 :
  Utils.GetSubnetHosts None 5 "192.168.1.0/30"
  = Some (Ok (hostAddresses {| Net.IPNet_IP := [192; 168; 1; 0];
                               Net.IPNet_Mask := [255; 255; 255; 252] |})).
Proof.
  assert (Net.ParseCIDR "192.168.1.0/30"
          = Some ([192; 168; 1; 0],
                  {| Net.IPNet_IP := [192; 168; 1; 0];
                     Net.IPNet_Mask := [255; 255; 255; 252] |})) as Hparse
    by reflexivity.
  refine (proj1 (GetSubnetHosts_spec None _ _ _ Hparse) _ 5%nat _).
  - vm_compute. discriminate.
  - vm_compute. lia.
Defined.

(* --------------------------------------------------------------------- *)
(** ** The RTSP session client: sequence numbers (C4)                    *)
(* --------------------------------------------------------------------- *)

Section Session.
Context `{Text}.

Lemma sentSince_refl (c : Rtsp.Client) : sentSince c c [].
Proof.
  unfold sentSince. rewrite app_nil_r. simpl. split; [done|]. split; [lia|].
  intros i request Hi. by rewrite lookup_nil in Hi.
Qed.

Lemma sentSince_trans (c1 c2 c3 : Rtsp.Client) (r1 r2 : list string) :
  sentSince c1 c2 r1 → sentSince c2 c3 r2 → sentSince c1 c3 (r1 ++ r2).
Proof.
  intros (Hs1 & Hc1 & Hr1) (Hs2 & Hc2 & Hr2). unfold sentSince.
  rewrite Hs2, Hs1, Hc2, Hc1, length_app, app_assoc.
  split; [done|]. split; [lia|].
  intros i request Hi. apply lookup_app_Some in Hi as [Hi|[Hlen Hi]].
  - by apply Hr1.
  - specialize (Hr2 _ _ Hi). rewrite Hc1 in Hr2.
    replace (Rtsp.cseq c1 + 1 + Z.of_nat i)
      with (Rtsp.cseq c1 + Z.of_nat (length r1) + 1 + Z.of_nat (i - length r1))
      by lia.
    done.
Qed.

Lemma sendRequest_sentSince (c : Rtsp.Client) (method path : string)
    (headers : list (string * string)) :
  ∃ request, sentSince c (Rtsp.sendRequest c method path headers).1 [request].
Proof.
  unfold Rtsp.sendRequest.
  destruct (Rtsp.readResponse _) as [response rest]. simpl.
  eexists. unfold sentSince. simpl. split; [reflexivity|]. split; [lia|].
  intros [|i] request Hi; simpl in Hi; [|by rewrite lookup_nil in Hi].
  injection Hi as <-. eexists _, method, path, headers. split; [|reflexivity].
  simpl. lia.
Qed.

Lemma sentSince_same (c c1 c2 : Rtsp.Client) (requests : list string) :
  sentSince c c1 requests →
  Rtsp.sent c2 = Rtsp.sent c1 → Rtsp.cseq c2 = Rtsp.cseq c1 →
  sentSince c c2 requests.
Proof. intros (Hs & Hc & Hr) Hs2 Hc2. unfold sentSince. by rewrite Hs2, Hc2. Qed.

Lemma parseAuthHeader_sentSince (c : Rtsp.Client) (header : string) :
  sentSince c (Rtsp.parseAuthHeader c header) [].
Proof.
  apply (sentSince_same c c); [apply sentSince_refl|..];
    unfold Rtsp.parseAuthHeader;
    destruct (HasPrefix header "Basic");
    try destruct (Index header "realm=");
    try destruct (HasPrefix header "Digest");
    try destruct (Rtsp.parseDigestParts _ _ _); reflexivity.
Qed.

Lemma perform_sentSince (c : Rtsp.Client) (k : Rtsp.call) :
  ∃ requests, sentSince c (Rtsp.perform c k) requests.
Proof.
  destruct k as [| |transport|]; simpl.
  - destruct (sendRequest_sentSince c "OPTIONS" "*" []) as [r Hr]. eauto.
  - unfold Rtsp.Describe.
    destruct (sendRequest_sentSince c "DESCRIBE" (Rtsp.requestPath c)
                [("Accept", "application/sdp")]) as [r Hr].
    destruct (Rtsp.sendRequest c "DESCRIBE" _ _) as [c1 [response|e]];
      simpl in *; [|eauto].
    destruct (Rtsp.StatusCode response =? 401); [|eauto].
    destruct (negb _); [|eauto].
    destruct (sendRequest_sentSince
                (Rtsp.parseAuthHeader c1
                   (default EmptyString
                      (Rtsp.Headers response !! "WWW-Authenticate")))
                "DESCRIBE" (Rtsp.requestPath c)
                [("Accept", "application/sdp")]) as [r' Hr'].
    eexists. eapply sentSince_trans; [exact Hr|].
    eapply (sentSince_trans _ _ _ []); [apply parseAuthHeader_sentSince|exact Hr'].
  - unfold Rtsp.Setup.
    destruct (sendRequest_sentSince c "SETUP" (Rtsp.requestPath c)
                [("Transport", transport)]) as [r Hr].
    destruct (Rtsp.sendRequest c "SETUP" _ _) as [c1 [response|e]];
      simpl in *; [|eauto].
    destruct (Rtsp.Headers response !! "Session"); simpl; [|eauto].
    eexists. by eapply sentSince_same.
  - unfold Rtsp.Play.
    destruct (sendRequest_sentSince c "PLAY" (Rtsp.requestPath c)
                (if negb (bool_decide (Rtsp.sessionID c = EmptyString))
                 then [("Session", Rtsp.sessionID c)] else [])) as [r Hr].
    eauto.
Qed.

Lemma session_sentSince (calls : list Rtsp.call) :
  ∀ c, ∃ requests, sentSince c (Rtsp.session c calls) requests.
Proof.
  induction calls as [|k calls IH]; intros c; simpl.
  - exists []. apply sentSince_refl.
  - destruct (perform_sentSince c k) as [r1 Hr1].
    destruct (IH (Rtsp.perform c k)) as [r2 Hr2].
    exists (r1 ++ r2). by eapply sentSince_trans.
Qed.

(** Over one session the sequence numbers are consecutive: the request
    sent in position [i] (from 0) by a client created by [NewClient]
    carries [i + 2]. *)
Lemma session_cseq_consecutive
    (parsedURL : Rtsp.URL) (input username password : string)
    (calls : list Rtsp.call) (c : Rtsp.Client) :
  Rtsp.NewClient (Ok parsedURL) (Some input) username password = Ok c →
  ∀ (i : nat) request,
    Rtsp.sent (Rtsp.session c calls) !! i = Some request →
    carriesCSeq request (Z.of_nat i + 2).
Proof.
  intros Hnew i request Hi. injection Hnew as <-.
  destruct (session_sentSince calls
    {| Rtsp.reader := input; Rtsp.sent := []; Rtsp.url := parsedURL;
       Rtsp.username := username; Rtsp.password := password;
       Rtsp.sessionID := EmptyString; Rtsp.cseq := 1;
       Rtsp.authMethod := EmptyString; Rtsp.realm := EmptyString;
       Rtsp.nonce := EmptyString |}) as (requests & Hs & _ & Hr).
  rewrite Hs in Hi. simpl in Hi, Hr.
  specialize (Hr _ _ Hi). by replace (Z.of_nat i + 2) with (1 + 1 + Z.of_nat i) by lia.
Qed.

End Session.

(** C4: the first request of a session does not carry CSeq 1.  [NewClient]
    sets the counter to 1 and [sendRequest] increments it before it writes
    the request, so the OPTIONS request that opens a session carries
    CSeq 2 (and the DESCRIBE that follows carries 3). *)
Theorem first_request_carries_cseq_2 :
  ∃ c, Rtsp.NewClient (Ok camera_url)
         (Some ("RTSP/1.0 200 OK" +:+ CRLF +:+ CRLF +:+
                "RTSP/1.0 200 OK" +:+ CRLF +:+ CRLF))
         "admin" "12345" = Ok c
       ∧ Rtsp.cseq c = 1
       ∧ Rtsp.sent (Rtsp.session c [Rtsp.CallOptions; Rtsp.CallDescribe])
         = [ "OPTIONS * RTSP/1.0" +:+ CRLF +:+ "CSeq: 2" +:+ CRLF +:+
             "User-Agent: Local-video-server/1.0" +:+ CRLF +:+ CRLF;
             "DESCRIBE /live RTSP/1.0" +:+ CRLF +:+ "CSeq: 3" +:+ CRLF +:+
             "Accept: application/sdp" +:+ CRLF +:+
             "User-Agent: Local-video-server/1.0" +:+ CRLF +:+ CRLF ].
Proof. eexists. split; [reflexivity|]. split; reflexivity. Qed.

(* --------------------------------------------------------------------- *)
(** ** The RTSP session client: status lines (C5)                        *)
(* --------------------------------------------------------------------- *)

(** C5, as stated, fails: the status line "HTTP/1.1 200 OK" is not rejected;
    the reader returns a parsed response with status code 200. *)
Lemma readResponse_accepts_http_status_line :
  Rtsp.readResponse ("HTTP/1.1 200 OK" +:+ CRLF +:+ CRLF) = parsed 200 "OK"
  ∧ ¬ (∃ e rest, Rtsp.readResponse ("HTTP/1.1 200 OK" +:+ CRLF +:+ CRLF)
                 = (Err e, rest)).
Proof.
  split; [reflexivity|]. intros (e & rest & Herr). discriminate Herr.
Qed.

(** C5, amended: the response reader parses "RTSP/1.0 200 OK" to status
    code 200 with reason "OK" and "RTSP/1.0 401 Unauthorized" to 401 with
    reason "Unauthorized"; it does not look at the version token, so the
    status line "HTTP/1.1 200 OK" is parsed to 200 with reason "OK" as
    well, and whatever follows it is read exactly as after
    "RTSP/1.0 200 OK". *)
Theorem readResponse_status_lines :
  Rtsp.readResponse ("RTSP/1.0 200 OK" +:+ CRLF +:+ CRLF) = parsed 200 "OK"
  ∧ Rtsp.readResponse ("RTSP/1.0 401 Unauthorized" +:+ CRLF +:+ CRLF)
    = parsed 401 "Unauthorized"
  ∧ Rtsp.readResponse ("HTTP/1.1 200 OK" +:+ CRLF +:+ CRLF) = parsed 200 "OK"
  ∧ ∀ rest : string,
      Rtsp.readResponse ("HTTP/1.1 200 OK" +:+ CRLF +:+ rest)
      = Rtsp.readResponse ("RTSP/1.0 200 OK" +:+ CRLF +:+ rest).
Proof.
  split; [reflexivity|]. split; [reflexivity|]. split; [reflexivity|].
  intros rest. reflexivity.
Qed.

(* --------------------------------------------------------------------- *)
(** ** The RTSP session client: Digest authentication (C6)               *)
(* --------------------------------------------------------------------- *)

(** C6: in Digest state the Authorization header carries
    response = md5(md5(user:realm:pass):nonce:md5(method:uri)), next to
    the user name, realm, nonce and uri. *)
Theorem buildAuthHeader_digest (c : Rtsp.Client) (method uri : string) :
  Rtsp.authMethod c = "Digest" →
  Rtsp.buildAuthHeader c method uri
  = digestHeader (Rtsp.username c) (Rtsp.password c) (Rtsp.realm c)
      (Rtsp.nonce c) method uri.
Proof.
  intros Hd. unfold Rtsp.buildAuthHeader. rewrite Hd.
  rewrite bool_decide_eq_false_2 by discriminate.
  rewrite bool_decide_eq_true_2 by reflexivity.
  unfold digestHeader, digestResponse.
  generalize Rtsp.md5Hash. intros h.
  cbv -[String.append].
  autorewrite with app_norm.
  reflexivity.
Qed.

(** The statement at the fixture of the specification. *)
Lemma buildAuthHeader_digest_witness :
  Rtsp.buildAuthHeader digest_client "DESCRIBE" "rtsp://x/"
  = digestHeader "admin" "12345" "IPCam" "abc" "DESCRIBE" "rtsp://x/".
Proof. apply (buildAuthHeader_digest digest_client). reflexivity. Defined.

Example digest_fixture_value :
  digestResponse "admin" "12345" "IPCam" "abc" "DESCRIBE" "rtsp://x/"
  = Rtsp.md5Hash ("4f1be267cbc21190d26e480ea227aa10:abc:"
                  +:+ Rtsp.md5Hash "DESCRIBE:rtsp://x/")
  ∧ Rtsp.md5Hash "admin:IPCam:12345" = "4f1be267cbc21190d26e480ea227aa10".
Proof. split; vm_compute; reflexivity. Qed.

(* --------------------------------------------------------------------- *)
(** ** The orchestrator merge (C7)                                       *)
(* --------------------------------------------------------------------- *)

Section Merge.
Import Models.

Lemma buildProtocolMap_lookup (protocols : list Protocol)
    (m : gmap string Protocol) (k : string) :
  Detector.buildProtocolMap protocols m !! k = None
  ↔ (k ∉ keys protocols) ∧ m !! k = None.
Proof.
  revert m. induction protocols as [|p protocols IH]; intros m; simpl.
  - unfold keys. simpl. split; [|by intros [_ ?]].
    intros Hm. split; [|done]. apply not_elem_of_nil.
  - rewrite IH. unfold keys. simpl. rewrite not_elem_of_cons.
    destruct (decide (Detector.protocolKey p = k)) as [->|Hne].
    + rewrite lookup_insert_eq. naive_solver.
    + rewrite lookup_insert_ne by done. naive_solver.
Qed.

Lemma appendMissing_spec (existing news acc : list Protocol) :
  Detector.appendMissing (Detector.buildProtocolMap existing ∅) news acc
  = acc ++ List.filter (missingFrom existing) news.
Proof.
  revert acc. induction news as [|p news IH]; intros acc; simpl.
  - by rewrite app_nil_r.
  - rewrite IH. unfold missingFrom at 2.
    destruct (Detector.buildProtocolMap existing ∅ !! Detector.protocolKey p)
      as [q|] eqn:Hq.
    + rewrite bool_decide_eq_false_2; [done|].
      intros Hk. assert (Detector.buildProtocolMap existing ∅
                         !! Detector.protocolKey p = None) as Hn
        by (apply buildProtocolMap_lookup; split; [done|apply lookup_empty]).
      congruence.
    + apply buildProtocolMap_lookup in Hq as [Hk _].
      rewrite bool_decide_eq_true_2 by done. simpl.
      by rewrite <- app_assoc.
Qed.

Lemma mergeDevices_Protocols (now : Time) (existing new : Device) :
  Protocols (Detector.mergeDevices now existing new)
  = Protocols existing
    ++ List.filter (missingFrom (Protocols existing)) (Protocols new).
Proof. unfold Detector.mergeDevices. simpl. apply appendMissing_spec. Qed.

Lemma filter_filter_and {A : Type} (f g : A → bool) (l : list A) :
  List.filter f (List.filter g l) = List.filter (λ x, g x && f x) l.
Proof.
  induction l as [|x l IH]; simpl; [done|].
  destruct (g x); simpl; [destruct (f x)|]; by rewrite ?IH.
Qed.

Lemma keys_merge (a b : list Protocol) (k : string) :
  k ∈ keys (a ++ List.filter (missingFrom a) b) ↔ k ∈ keys a ∨ k ∈ keys b.
Proof.
  unfold keys. rewrite fmap_app, elem_of_app, !list_elem_of_fmap.
  split.
  - intros [Ha|(p & -> & Hp)]; [by left|].
    apply list_elem_of_In, filter_In in Hp as [Hp _]. right.
    exists p. split; [done|]. by apply list_elem_of_In.
  - intros [Ha|(p & -> & Hp)]; [by left|].
    destruct (decide (Detector.protocolKey p ∈ keys a)) as [Hin|Hnin].
    + left. by apply list_elem_of_fmap in Hin.
    + right. exists p. split; [done|].
      apply list_elem_of_In, filter_In. split; [by apply list_elem_of_In|].
      unfold missingFrom. by apply bool_decide_eq_true_2.
Qed.

Lemma fillIfEmpty_assoc (a b c : string) :
  Detector.fillIfEmpty (Detector.fillIfEmpty a b) c
  = Detector.fillIfEmpty a (Detector.fillIfEmpty b c).
Proof.
  unfold Detector.fillIfEmpty.
  repeat (case_bool_decide; simpl; subst; try done).
Qed.

Lemma fillIfEmpty_spec (existing new : string) :
  (existing ≠ EmptyString → Detector.fillIfEmpty existing new = existing)
  ∧ (existing = EmptyString → Detector.fillIfEmpty existing new = new).
Proof.
  unfold Detector.fillIfEmpty.
  repeat (case_bool_decide; simpl; subst; try done).
Qed.

End Merge.

(** C7, as stated, fails: merging the two reports of the camera 10.0.0.5 in
    the two orders gives two different devices: the manufacturer and the
    order of the protocol list are those of whichever report came first. *)
Lemma mergeDevices_not_commutative :
  Models.Manufacturer (Detector.mergeDevices 30 swept announced) = "Hikvision"
  ∧ Models.Manufacturer (Detector.mergeDevices 30 announced swept) = "HIKVISION"
  ∧ keys (Models.Protocols (Detector.mergeDevices 30 swept announced))
    = ["RTSP:554"; "ONVIF:80"]
  ∧ keys (Models.Protocols (Detector.mergeDevices 30 announced swept))
    = ["ONVIF:80"; "RTSP:554"]
  ∧ Detector.mergeDevices 30 swept announced
    ≠ Detector.mergeDevices 30 announced swept.
Proof.
  split; [reflexivity|]. split; [reflexivity|].
  split; [vm_compute; reflexivity|]. split; [vm_compute; reflexivity|].
  intros Heq. apply (f_equal Models.Manufacturer) in Heq. discriminate Heq.
Qed.

(** C7, amended: the merge is associative, not commutative.  For devices
    D, D', D'' of one IP, merge(merge(D, D'), D'') and
    merge(D, merge(D', D'')) have the same protocol list (the protocols of
    D, then those of D' whose (tag, port) key D lacks, then those of D''
    whose key D and D' lack) and the same MAC, hostname, manufacturer and
    model (the first non-empty value in the order D, D', D''), IP and
    discovery time; merge(D, D') lists the protocols of D first, and
    merging in the opposite order only keeps the set of (tag, port)
    keys. *)
Theorem mergeDevices_associative
    (t1 t2 t3 t4 : Time) (D D' D'' : Models.Device) :
  let left := Detector.mergeDevices t2 (Detector.mergeDevices t1 D D') D'' in
  let right := Detector.mergeDevices t4 D (Detector.mergeDevices t3 D' D'') in
  Models.Protocols left = Models.Protocols right
  ∧ Models.MAC left = Models.MAC right
  ∧ Models.Hostname left = Models.Hostname right
  ∧ Models.Manufacturer left = Models.Manufacturer right
  ∧ Models.Model left = Models.Model right
  ∧ Models.IP left = Models.IP right
  ∧ Models.DiscoveredAt left = Models.DiscoveredAt right
  ∧ Models.Protocols (Detector.mergeDevices t1 D D')
    = Models.Protocols D
      ++ List.filter (missingFrom (Models.Protocols D)) (Models.Protocols D')
  ∧ (∀ k, k ∈ keys (Models.Protocols (Detector.mergeDevices t1 D D'))
          ↔ k ∈ keys (Models.Protocols (Detector.mergeDevices t1 D' D))).
Proof.
  intros left right. subst left right.
  split; [|repeat split; try apply fillIfEmpty_assoc;
            try apply mergeDevices_Protocols].
  - rewrite !mergeDevices_Protocols, <- app_assoc. f_equal.
    rewrite List.filter_app, filter_filter_and. f_equal.
    apply filter_ext. intros p. unfold missingFrom.
    rewrite <- bool_decide_and. apply bool_decide_ext.
    rewrite keys_merge. tauto.
  - rewrite !mergeDevices_Protocols, keys_merge, keys_merge. tauto.
  - rewrite !mergeDevices_Protocols, keys_merge, keys_merge. tauto.
Qed.

(* --------------------------------------------------------------------- *)
(** ** Updates of a recorded device (C8)                                 *)
(* --------------------------------------------------------------------- *)

Section RegistryFacts.
Import Models.

Lemma AddDevice_existing (now : Time) (r : Registry.DeviceRegistry)
    (device stored : Device) :
  Registry.devices r !! IP device = Some stored →
  Registry.GetDevice (Registry.AddDevice now r device) (IP device)
  = Some {| IP := IP stored; MAC := MAC device; Hostname := Hostname device;
            Manufacturer := Manufacturer device; Model := Model device;
            Protocols := Protocols device; RTSPStreams := RTSPStreams device;
            DiscoveredAt := DiscoveredAt stored; LastSeen := now |}.
Proof.
  intros Hs. unfold Registry.GetDevice, Registry.AddDevice. rewrite Hs.
  simpl. apply lookup_insert_eq.
Qed.

Lemma AddDevice_new (now : Time) (r : Registry.DeviceRegistry) (device : Device) :
  Registry.devices r !! IP device = None →
  Registry.GetDevice (Registry.AddDevice now r device) (IP device)
  = Some {| IP := IP device; MAC := MAC device; Hostname := Hostname device;
            Manufacturer := Manufacturer device; Model := Model device;
            Protocols := Protocols device; RTSPStreams := RTSPStreams device;
            DiscoveredAt := now; LastSeen := now |}.
Proof.
  intros Hs. unfold Registry.GetDevice, Registry.AddDevice. rewrite Hs.
  simpl. apply lookup_insert_eq.
Qed.

End RegistryFacts.

Lemma registry_with_camera_lookup :
  Registry.devices registry_with_camera !! "192.168.1.100"
  = Some camera_01_stored.
Proof.
  exact (AddDevice_new 100 (Registry.NewDeviceRegistry 3600) camera_01
           (lookup_empty _)).
Qed.

(** C8, as stated, fails on the registry path: after AddDevice of a report
    of 192.168.1.100 that carries no MAC, hostname, manufacturer or model,
    the recorded device has lost all four, although the stored values were
    not empty. *)
Lemma AddDevice_erases_attributes :
  ∃ d, Registry.GetDevice (Registry.AddDevice 200 registry_with_camera bare_report)
         "192.168.1.100" = Some d
       ∧ Models.MAC d = EmptyString ∧ Models.Hostname d = EmptyString
       ∧ Models.Manufacturer d = EmptyString ∧ Models.Model d = EmptyString.
Proof.
  eexists. split.
  - exact (AddDevice_existing 200 registry_with_camera bare_report _
             registry_with_camera_lookup).
  - done.
Qed.

(** C8, amended: the orchestrator merge is monotonic in MAC, hostname,
    manufacturer and model (a non-empty stored value is kept, an empty one
    takes the new value); the registry's AddDevice on an IP it already
    holds is not: it replaces the four attributes, and the protocol and
    stream lists, by those of the device it is given, empty or not. *)
Theorem attribute_updates
    (now : Time) (existing new : Models.Device)
    (r : Registry.DeviceRegistry) (device stored : Models.Device) :
  let merged := Detector.mergeDevices now existing new in
  ((Models.MAC existing ≠ EmptyString → Models.MAC merged = Models.MAC existing)
   ∧ (Models.MAC existing = EmptyString → Models.MAC merged = Models.MAC new))
  ∧ ((Models.Hostname existing ≠ EmptyString →
      Models.Hostname merged = Models.Hostname existing)
     ∧ (Models.Hostname existing = EmptyString →
        Models.Hostname merged = Models.Hostname new))
  ∧ ((Models.Manufacturer existing ≠ EmptyString →
      Models.Manufacturer merged = Models.Manufacturer existing)
     ∧ (Models.Manufacturer existing = EmptyString →
        Models.Manufacturer merged = Models.Manufacturer new))
  ∧ ((Models.Model existing ≠ EmptyString →
      Models.Model merged = Models.Model existing)
     ∧ (Models.Model existing = EmptyString →
        Models.Model merged = Models.Model new))
  ∧ (Registry.devices r !! Models.IP device = Some stored →
     ∃ d, Registry.GetDevice (Registry.AddDevice now r device) (Models.IP device)
          = Some d
          ∧ Models.MAC d = Models.MAC device
          ∧ Models.Hostname d = Models.Hostname device
          ∧ Models.Manufacturer d = Models.Manufacturer device
          ∧ Models.Model d = Models.Model device
          ∧ Models.Protocols d = Models.Protocols device
          ∧ Models.RTSPStreams d = Models.RTSPStreams device).
Proof.
  intros merged. subst merged. unfold Detector.mergeDevices. simpl.
  repeat (split; [apply fillIfEmpty_spec|]).
  intros Hs. eexists. split; [by apply AddDevice_existing|]. done.
Qed.

(** The amended statement on the two reports of 10.0.0.5 and on the
    registry of the counterexample. *)
Lemma attribute_updates_witness :
  Models.Manufacturer (Detector.mergeDevices 200 swept announced) = "Hikvision"
  ∧ Models.Model (Detector.mergeDevices 200 swept announced) = "DS-2CD2042WD"
  ∧ ∃ d, Registry.GetDevice
           (Registry.AddDevice 200 registry_with_camera bare_report)
           "192.168.1.100" = Some d
         ∧ Models.MAC d = EmptyString
         ∧ Models.Hostname d = EmptyString
         ∧ Models.Manufacturer d = EmptyString
         ∧ Models.Model d = EmptyString
         ∧ Models.Protocols d = Models.Protocols bare_report
         ∧ Models.RTSPStreams d = [].
Proof.
  pose proof (attribute_updates 200 swept announced registry_with_camera
                bare_report camera_01_stored)
    as (_ & _ & [Hman _] & [_ Hmod] & Hreg).
  split; [apply Hman; discriminate|].
  split; [apply Hmod; reflexivity|].
  exact (Hreg registry_with_camera_lookup).
Defined.

(* --------------------------------------------------------------------- *)
(** ** The registry cache (C9)                                           *)
(* --------------------------------------------------------------------- *)

Section CacheFacts.
Import Models.

Lemma cacheAll_entries (expiresAt : Time) (devs : list Device) :
  ∀ m : gmap string Registry.CachedDevice,
    NoDup (IP <$> devs) →
    (∀ d, d ∈ devs → m !! IP d = None) →
    map_to_list (Registry.cacheAll devs expiresAt m)
    ≡ₚ (cached expiresAt <$> devs) ++ map_to_list m.
Proof.
  induction devs as [|d devs IH]; intros m Hnd Hfresh; simpl; [done|].
  rewrite fmap_cons in Hnd. apply NoDup_cons in Hnd as [Hd Hnd].
  rewrite IH.
  - rewrite map_to_list_insert by (apply Hfresh; left).
    unfold cached at 3. by rewrite Permutation_middle.
  - done.
  - intros d' Hd'. rewrite lookup_insert_ne.
    + apply Hfresh. by right.
    + intros Heq. apply Hd. rewrite Heq. by apply list_elem_of_fmap_2.
Qed.

Lemma collectValid_spec (now : Time)
    (entries : list (string * Registry.CachedDevice)) (acc : list Device) :
  Registry.collectValid now entries acc
  = acc ++ (Registry.Device_ <$>
              List.filter (λ c, Before now (Registry.ExpiresAt c)) (snd <$> entries)).
Proof.
  revert acc. induction entries as [|[k c] entries IH]; intros acc; simpl.
  - by rewrite app_nil_r.
  - rewrite IH. destruct (Before now (Registry.ExpiresAt c)); simpl; [|done].
    by rewrite <- app_assoc.
Qed.

Lemma cacheAll_expiry (expiresAt : Time) (devs : list Device) :
  ∀ (m : gmap string Registry.CachedDevice),
    (∀ k c, m !! k = Some c → Registry.ExpiresAt c = expiresAt) →
    ∀ k c, Registry.cacheAll devs expiresAt m !! k = Some c →
           Registry.ExpiresAt c = expiresAt.
Proof.
  induction devs as [|d devs IH]; intros m Hm k c; simpl; [apply Hm|].
  apply IH. intros k' c'. destruct (decide (IP d = k')) as [->|Hne].
  - rewrite lookup_insert_eq. by intros [= <-].
  - rewrite lookup_insert_ne by done. apply Hm.
Qed.

Lemma saved_entries_expiry (expiresAt : Time) (devs : list Device) :
  Forall (λ c, Registry.ExpiresAt c = expiresAt)
    (snd <$> map_to_list (Registry.cacheAll devs expiresAt ∅)).
Proof.
  apply Forall_fmap, Forall_forall. intros [k c] Hin. simpl.
  apply elem_of_map_to_list in Hin.
  eapply cacheAll_expiry; [|exact Hin]. intros k' c'. by rewrite lookup_empty.
Qed.

Lemma filter_none {A : Type} (f : A → bool) (l : list A) :
  Forall (λ x, f x = false) l → List.filter f l = [].
Proof.
  induction 1 as [|x l Hx _ IH]; simpl; [done|]. by rewrite Hx.
Qed.

Lemma filter_all {A : Type} (f : A → bool) (l : list A) :
  Forall (λ x, f x = true) l → List.filter f l = l.
Proof.
  induction 1 as [|x l Hx _ IH]; simpl; [done|]. by rewrite Hx, IH.
Qed.

(** A read at or after the instant of expiry finds no valid entry. *)
Lemma GetFromCache_expired (r : Registry.DeviceRegistry) (devs : list Device)
    (saved t : Time) :
  saved + Registry.defaultTTL (Registry.cache r) ≤ t →
  Registry.GetFromCache t (Registry.SaveToCache saved r devs) = ([], false).
Proof.
  intros Ht. unfold Registry.GetFromCache, Registry.SaveToCache. simpl.
  destruct (IsZero saved || After t _); [done|].
  rewrite collectValid_spec, filter_none; [done|].
  eapply Forall_impl; [apply saved_entries_expiry|].
  intros c ->. unfold Before. apply Z.ltb_ge. lia.
Qed.

Lemma GetFromCache_fresh (r : Registry.DeviceRegistry) (devs : list Device)
    (saved t : Time) :
  t < saved + Registry.defaultTTL (Registry.cache r) →
  saved ≠ 0 → devs ≠ [] → NoDup (IP <$> devs) →
  ∃ found,
    Registry.GetFromCache t (Registry.SaveToCache saved r devs) = (found, true)
    ∧ found ≡ₚ devs.
Proof.
  intros Ht Hsaved Hdevs Hnd.
  unfold Registry.GetFromCache, Registry.SaveToCache. simpl.
  unfold IsZero, After.
  rewrite (proj2 (Z.eqb_neq _ _) Hsaved), (proj2 (Z.ltb_ge _ _)) by lia.
  simpl. rewrite collectValid_spec, filter_all.
  2:{ eapply Forall_impl; [apply saved_entries_expiry|].
      intros c ->. unfold Before. apply Z.ltb_lt. lia. }
  simpl.
  assert (Registry.Device_ <$>
            (snd <$> map_to_list
               (Registry.cacheAll devs
                  (saved + Registry.defaultTTL (Registry.cache r)) ∅))
          ≡ₚ devs) as Hperm.
  { rewrite cacheAll_entries by (done || intros; apply lookup_empty).
    rewrite map_to_list_empty, app_nil_r, <- !list_fmap_compose.
    by rewrite list_fmap_id. }
  case_bool_decide as Hlen.
  - apply length_zero_iff_nil in Hlen. rewrite Hlen in Hperm.
    apply Permutation_nil_l in Hperm. congruence.
  - eauto.
Qed.

End CacheFacts.

(** C9, as stated, fails: a read at the instant last_scan + TTL itself
    reports the cache as absent; so does any read of an empty snapshot,
    however early; and of a snapshot holding two devices of one IP only
    the later one is reported. *)
Lemma cache_reads_not_as_claimed :
  Registry.GetFromCache 3700
    (Registry.SaveToCache 100 (Registry.NewDeviceRegistry 3600) [swept])
  = ([], false)
  ∧ Registry.GetFromCache 101
      (Registry.SaveToCache 100 (Registry.NewDeviceRegistry 3600) [])
    = ([], false)
  ∧ Registry.GetFromCache 101
      (Registry.SaveToCache 100 (Registry.NewDeviceRegistry 3600)
         [swept; announced])
    = ([announced], true).
Proof.
  split; [by apply GetFromCache_expired|].
  split; [reflexivity|].
  vm_compute. reflexivity.
Qed.

(** C9, amended: after SaveToCache at time last_scan with TTL t, every
    read strictly after last_scan + t reports the cache as absent, and
    every read strictly before that instant reports the saved snapshot as
    present, as a list holding the saved devices in some order, provided
    the snapshot is not empty and holds one device per IP; an empty
    snapshot is reported as absent by every read. *)
Theorem cache_snapshot_expiry
    (r : Registry.DeviceRegistry) (devs : list Models.Device)
    (last_scan t : Time) :
  let ttl := Registry.defaultTTL (Registry.cache r) in
  let r' := Registry.SaveToCache last_scan r devs in
  (last_scan + ttl < t → Registry.GetFromCache t r' = ([], false))
  ∧ (t < last_scan + ttl → last_scan ≠ 0 → devs ≠ [] →
     NoDup (Models.IP <$> devs) →
     ∃ found, Registry.GetFromCache t r' = (found, true) ∧ found ≡ₚ devs)
  ∧ (devs = [] → Registry.GetFromCache t r' = ([], false)).
Proof.
  intros ttl r'. subst ttl r'. split; [|split].
  - intros Ht. apply GetFromCache_expired. lia.
  - apply GetFromCache_fresh.
  - intros ->. unfold Registry.GetFromCache, Registry.SaveToCache. simpl.
    by destruct (IsZero last_scan || After t _).
Qed.

(** The amended statement on a snapshot of two cameras saved at time 100
    with a TTL of 3600. *)
Lemma cache_snapshot_expiry_witness :
  Registry.GetFromCache 3701
    (Registry.SaveToCache 100 (Registry.NewDeviceRegistry 3600)
       [swept; camera_01]) = ([], false)
  ∧ ∃ found,
      Registry.GetFromCache 3699
        (Registry.SaveToCache 100 (Registry.NewDeviceRegistry 3600)
           [swept; camera_01]) = (found, true)
      ∧ found ≡ₚ [swept; camera_01].
Proof.
  split.
  - apply (proj1 (cache_snapshot_expiry (Registry.NewDeviceRegistry 3600)
                    [swept; camera_01] 100 3701)).
    simpl. lia.
  - apply (proj1 (proj2 (cache_snapshot_expiry (Registry.NewDeviceRegistry 3600)
                    [swept; camera_01] 100 3699))).
    + simpl. lia.
    + lia.
    + discriminate.
    + simpl. repeat constructor; set_solver.
Defined.

(* --------------------------------------------------------------------- *)
(** ** The SDP parser (C10)                                              *)
(* --------------------------------------------------------------------- *)

Lemma slice_from_is_Some (s : string) (n : nat) :
  (n ≤ String.length s)%nat → is_Some (slice_from s n).
Proof.
  revert s. induction n as [|n IH]; intros s Hn; simpl.
  - destruct s; eauto.
  - destruct s as [|c s]; simpl in *; [lia|]. apply IH. lia.
Qed.

Lemma slice_to_is_Some (s : string) (n : nat) :
  (n ≤ String.length s)%nat →
  ∃ t, slice_to s n = Some t ∧ String.length t = n.
Proof.
  revert s. induction n as [|n IH]; intros s Hn; simpl.
  - destruct s; by exists EmptyString.
  - destruct s as [|c s]; simpl in *; [lia|].
    destruct (IH s) as (t & -> & Ht); [lia|]. simpl.
    exists (String c t). simpl. by rewrite Ht.
Qed.

Lemma slice_is_Some (s : string) (lo hi : nat) :
  (lo ≤ hi)%nat → (hi ≤ String.length s)%nat → is_Some (slice s lo hi).
Proof.
  intros Hlo Hhi. unfold slice.
  destruct (Nat.ltb_spec hi lo); [lia|].
  destruct (slice_to_is_Some s hi Hhi) as (t & -> & Ht). simpl.
  apply slice_from_is_Some. lia.
Qed.

Lemma prefix_length (p s : string) :
  String.prefix p s = true → (String.length p ≤ String.length s)%nat.
Proof.
  revert s. induction p as [|c p IH]; intros s Hp; simpl; [lia|].
  destruct s as [|d s]; simpl in *; [discriminate|].
  destruct (ascii_dec c d); [|discriminate]. specialize (IH s Hp). lia.
Qed.

Lemma HasPrefix_slice_from (s p : string) :
  HasPrefix s p = true → is_Some (slice_from s (String.length p)).
Proof. intros Hp. by apply slice_from_is_Some, prefix_length. Qed.

Lemma Index_bound (s sub : string) (i : nat) :
  Index s sub = Some i → (i + String.length sub ≤ String.length s)%nat.
Proof.
  revert i. induction s as [|c s IH]; intros i; cbn [Index].
  - destruct (String.prefix sub EmptyString) eqn:Hp; [|discriminate].
    intros [= <-]. apply prefix_length in Hp. lia.
  - destruct (String.prefix sub (String c s)) eqn:Hp.
    + intros [= <-]. apply prefix_length in Hp. lia.
    + destruct (Index s sub) as [j|]; [|discriminate].
      intros [= <-]. specialize (IH j eq_refl). simpl. lia.
Qed.

Lemma byte_at_is_Some (s : string) (i : nat) :
  (i < String.length s)%nat → is_Some (byte_at s i).
Proof.
  unfold byte_at. revert s. induction i as [|i IH]; intros [|c s] Hi;
    simpl in *; try lia; eauto. apply IH. lia.
Qed.

Lemma Split_nonempty (s : string) (sep : ascii) : Split s sep ≠ [].
Proof.
  destruct s as [|c s]; simpl; [done|].
  destruct (Ascii.eqb c sep); [done|]. by destruct (Split s sep).
Qed.

Lemma index_is_Some {A : Type} (l : list A) (i : Z) :
  0 ≤ i < Sdp.lenOf l → is_Some (Sdp.index l i).
Proof.
  unfold Sdp.index, Sdp.lenOf. intros Hi.
  destruct (Z.leb_spec 0 i); [|lia].
  apply lookup_lt_is_Some. lia.
Qed.

Lemma update_is_Some {A : Type} (l : list A) (i : Z) (f : A → A) :
  0 ≤ i < Sdp.lenOf l → is_Some (Sdp.update l i f).
Proof.
  unfold Sdp.update, Sdp.lenOf. intros Hi.
  destruct (Z.leb_spec 0 i); [|lia].
  destruct (Z.ltb_spec i (Z.of_nat (length l))); [|lia]. simpl. eauto.
Qed.

Lemma update_last_is_Some {A : Type} (l : list A) (f : A → A) :
  (0 <? Sdp.lenOf l) = true → is_Some (Sdp.update l (Sdp.lenOf l - 1) f).
Proof. intros Hl%Z.ltb_lt. apply update_is_Some. lia. Qed.

Section SdpTotal.
Context `{Text}.
Variable ParseFloat : string → option float64.

Lemma attrRtpmap_total attr media info :
  is_Some (Sdp.attrRtpmap attr media info).
Proof.
  unfold Sdp.attrRtpmap.
  destruct (HasPrefix attr "rtpmap:") eqn:Hp; [|eauto].
  destruct (HasPrefix_slice_from _ _ Hp) as [rest Hrest].
  simpl in Hrest. rewrite Hrest. simpl.
  destruct (Z.leb_spec 2 (Sdp.lenOf (Fields rest))) as [Hlen|]; [|eauto].
  destruct (index_is_Some (Fields rest) 1) as [codecInfo ->]; [lia|]. simpl.
  destruct (index_is_Some (Split codecInfo "/") 0) as [codec ->].
  { pose proof (Split_nonempty codecInfo "/").
    unfold Sdp.lenOf. destruct (Split codecInfo "/"); [done|]. simpl. lia. }
  simpl.
  destruct (bool_decide (Sdp.Type_ media = "video")).
  { destruct (0 <? Sdp.lenOf (Sdp.VideoTracks info)) eqn:Hv; [|eauto].
    destruct (update_last_is_Some (Sdp.VideoTracks info)
                (Sdp.setVtCodec (Sdp.normalizeCodec codec)) Hv) as [t ->].
    simpl. eauto. }
  destruct (bool_decide (Sdp.Type_ media = "audio")); [|eauto].
  destruct (0 <? Sdp.lenOf (Sdp.AudioTracks info)) eqn:Hv; [|eauto].
  destruct (update_last_is_Some (Sdp.AudioTracks info)
              (Sdp.setAtCodec (Sdp.normalizeAudioCodec codec)) Hv) as [t ->].
  simpl. eauto.
Qed.

Lemma parseFmtpPair_total param media info :
  is_Some (Sdp.parseFmtpPair param media info).
Proof.
  unfold Sdp.parseFmtpPair.
  destruct (Index (TrimSpace param) "=") as [idx|] eqn:Hidx; [|eauto].
  apply Index_bound in Hidx. simpl in Hidx.
  destruct (slice_to_is_Some (TrimSpace param) idx) as (k & -> & _); [lia|].
  destruct (slice_from_is_Some (TrimSpace param) (idx + 1)) as [v ->]; [lia|].
  simpl.
  destruct (bool_decide (Sdp.Type_ media = "video")); simpl; [|eauto].
  destruct (0 <? Sdp.lenOf (Sdp.VideoTracks info)) eqn:Hv; [|eauto].
  destruct (index_is_Some (Sdp.VideoTracks info)
              (Sdp.lenOf (Sdp.VideoTracks info) - 1)) as [track ->].
  { apply Z.ltb_lt in Hv. lia. }
  simpl.
  destruct (bool_decide (TrimSpace k = "profile-level-id")).
  { destruct (Z.leb_spec 6 (len (TrimSpace v))) as [Hlen|]; [|eauto].
    unfold len in Hlen.
    destruct (slice_is_Some (TrimSpace v) 0 2) as [profile ->]; [lia..|].
    destruct (slice_is_Some (TrimSpace v) 4 6) as [level ->]; [lia..|].
    simpl.
    destruct (update_last_is_Some (Sdp.VideoTracks info)
                (Sdp.setVtProfileLevel profile level) Hv) as [t ->].
    simpl. eauto. }
  destruct (bool_decide (TrimSpace k = "sprop-parameter-sets")); [|eauto].
  unfold Sdp.extractResolutionFromSPS. simpl. eauto.
Qed.

Lemma parseFmtpPairs_total paramPairs media info :
  is_Some (Sdp.parseFmtpPairs paramPairs media info).
Proof.
  revert info. induction paramPairs as [|param rest IH]; intros info; simpl;
    [eauto|].
  destruct (parseFmtpPair_total param media info) as [info' ->]. simpl.
  apply IH.
Qed.

Lemma attrFmtp_total attr media info :
  is_Some (Sdp.attrFmtp attr media info).
Proof.
  unfold Sdp.attrFmtp.
  destruct (HasPrefix attr "fmtp:") eqn:Hp; [|eauto].
  destruct (HasPrefix_slice_from _ _ Hp) as [rest Hrest].
  simpl in Hrest. rewrite Hrest. simpl.
  destruct (SplitN rest " " 2) as [|a [|b [|c l]]]; eauto.
  apply parseFmtpPairs_total.
Qed.

Lemma attrFramerate_total attr media info :
  is_Some (Sdp.attrFramerate ParseFloat attr media info).
Proof.
  unfold Sdp.attrFramerate.
  destruct (HasPrefix attr "framerate:") eqn:Hp; [|eauto].
  destruct (HasPrefix_slice_from _ _ Hp) as [rest Hrest].
  simpl in Hrest. rewrite Hrest. simpl.
  destruct (ParseFloat (TrimSpace rest)) as [fps|]; [|eauto].
  destruct (bool_decide (Sdp.Type_ media = "video")); simpl; [|eauto].
  destruct (0 <? Sdp.lenOf (Sdp.VideoTracks info)) eqn:Hv; [|eauto].
  destruct (update_last_is_Some (Sdp.VideoTracks info) (Sdp.setVtFPS fps) Hv)
    as [t ->].
  simpl. eauto.
Qed.

Lemma attrDimensions_total attr media info :
  is_Some (Sdp.attrDimensions attr media info).
Proof.
  unfold Sdp.attrDimensions.
  destruct (HasPrefix attr "x-dimensions:") eqn:Hp; [|eauto].
  destruct (HasPrefix_slice_from _ _ Hp) as [rest Hrest].
  simpl in Hrest. rewrite Hrest. simpl.
  destruct (Split (TrimSpace rest) "x") as [|w [|h [|c l]]]; eauto.
  destruct (Atoi w) as [width|]; [|eauto].
  destruct (Atoi h) as [height|]; [|eauto].
  destruct (bool_decide (Sdp.Type_ media = "video")); simpl; [|eauto].
  destruct (0 <? Sdp.lenOf (Sdp.VideoTracks info)) eqn:Hv; [|eauto].
  match goal with
  | |- context [Sdp.update ?l _ ?f] =>
      destruct (update_last_is_Some l f Hv) as [t ->]
  end.
  simpl. eauto.
Qed.

Lemma attrSprop_total attr media info :
  Sdp.attrSprop attr media info = Some info.
Proof.
  unfold Sdp.attrSprop, Sdp.extractResolutionFromSPS.
  by destruct (Contains attr "sprop-parameter-sets=").
Qed.

Lemma parseAttribute_total line media info :
  (2 ≤ String.length line)%nat →
  is_Some (Sdp.parseAttribute ParseFloat line media info).
Proof.
  intros Hlen. unfold Sdp.parseAttribute.
  destruct (slice_from_is_Some line 2 Hlen) as [attr ->]. simpl.
  destruct (attrRtpmap_total attr media info) as [i1 ->]. simpl.
  destruct (attrFmtp_total attr media i1) as [i2 ->]. simpl.
  destruct (attrFramerate_total attr media i2) as [i3 ->]. simpl.
  destruct (attrDimensions_total attr media i3) as [i4 ->]. simpl.
  rewrite attrSprop_total. eauto.
Qed.

Lemma parseLine_total line st :
  is_Some (Sdp.parseLine ParseFloat line st).
Proof.
  unfold Sdp.parseLine. destruct st as [info currentMedia].
  case_bool_decide; [eauto|].
  destruct (Z.ltb_spec (len (TrimSpace line)) 2) as [|Hlen]; [eauto|].
  unfold len in Hlen.
  destruct (byte_at_is_Some (TrimSpace line) 1) as [c1 ->]; [lia|]. simpl.
  destruct (Ascii.eqb c1 "="); simpl; [|eauto].
  destruct (byte_at_is_Some (TrimSpace line) 0) as [c0 ->]; [lia|]. simpl.
  destruct (slice_from_is_Some (TrimSpace line) 2) as [value ->]; [lia|]. simpl.
  destruct (Ascii.eqb c0 "m").
  { destruct (Z.leb_spec 2 (Sdp.lenOf (Fields value))); [|eauto].
    destruct (index_is_Some (Fields value) 0) as [mediaType ->]; [lia|]. simpl.
    repeat case_bool_decide; eauto. }
  destruct (Ascii.eqb c0 "a"); [|eauto].
  destruct currentMedia as [media|]; [|eauto].
  destruct (parseAttribute_total (TrimSpace line) media info) as [info' ->];
    [lia|].
  simpl. eauto.
Qed.

Lemma parseLines_total lines st :
  is_Some (Sdp.parseLines ParseFloat lines st).
Proof.
  revert st. induction lines as [|line rest IH]; intros st; simpl; [eauto|].
  destruct (parseLine_total line st) as [st' ->]. simpl. apply IH.
Qed.

Lemma summarize_total info : is_Some (Sdp.summarize info).
Proof.
  unfold Sdp.summarize.
  destruct (0 <? Sdp.lenOf (Sdp.VideoTracks info)) eqn:Hv.
  - destruct (index_is_Some (Sdp.VideoTracks info) 0) as [v ->];
      [apply Z.ltb_lt in Hv; lia|]. simpl.
    destruct (0 <? Sdp.lenOf (Sdp.AudioTracks info)) eqn:Ha; [|eauto].
    destruct (index_is_Some (Sdp.AudioTracks info) 0) as [a ->];
      [apply Z.ltb_lt in Ha; lia|]. simpl. eauto.
  - simpl.
    destruct (0 <? Sdp.lenOf (Sdp.AudioTracks info)) eqn:Ha; [|eauto].
    destruct (index_is_Some (Sdp.AudioTracks info) 0) as [a ->];
      [apply Z.ltb_lt in Ha; lia|]. simpl. eauto.
Qed.

End SdpTotal.

Lemma parseLine_skips `{Text} (ParseFloat : string → option float64)
    (line : string) (st : Sdp.StreamInfo * option Sdp.MediaDescription) :
  mediaOrAttribute (TrimSpace line) = false →
  Sdp.parseLine ParseFloat line st = Some st.
Proof.
  intros Hskip. unfold Sdp.parseLine. destruct st as [info currentMedia].
  destruct (TrimSpace line) as [|c [|e l]]; [done| |].
  { rewrite bool_decide_eq_false_2 by done. reflexivity. }
  rewrite bool_decide_eq_false_2 by done.
  cbn -[Ascii.eqb len] in *.
  destruct (Z.ltb_spec (len (String c (String e l))) 2) as [Hlen|_].
  { unfold len in Hlen. simpl in Hlen. lia. }
  destruct (Ascii.eqb e "="); simpl in *; [|done].
  apply orb_false_iff in Hskip as [-> ->].
  by destruct l.
Qed.

(** C10: SDP parsing is total and never fails.  For every input string,
    whatever the Unicode-dependent library functions and [ParseFloat]
    return, [ParseSDP] runs into no slice or index out of range and returns
    a StreamInfo with a nil error; a line that is neither a media
    description nor an attribute is skipped, leaving every field as it
    was. *)
Theorem ParseSDP_total `{Text} (ParseFloat : string → option float64) :
  (∀ sdp, ∃ info, Sdp.ParseSDP ParseFloat sdp = Some (Ok info))
  ∧ (∀ line st,
       mediaOrAttribute (TrimSpace line) = false →
       Sdp.parseLine ParseFloat line st = Some st).
Proof.
  split; [|apply parseLine_skips].
  intros sdp. unfold Sdp.ParseSDP.
  destruct (parseLines_total ParseFloat (Split sdp LF) (Sdp.emptyInfo, None))
    as [[info media] ->].
  simpl. destruct (summarize_total info) as [info' ->]. simpl. eauto.
Qed.

(** The statement on the ASCII implementation of the library: a session
    description of one line, and a session-name line met before any media
    section. *)
Lemma ParseSDP_total_witness :
  (∃ info, Sdp.ParseSDP (λ _, None) "v=0" = Some (Ok info))
  ∧ Sdp.parseLine (λ _, None) "s=camera" (Sdp.emptyInfo, None)
    = Some (Sdp.emptyInfo, None).
Proof.
  split.
  - apply (proj1 (ParseSDP_total (λ _, None))).
  - apply (proj2 (ParseSDP_total (λ _, None))). reflexivity.
Defined.

(** Malformed input on the ASCII implementation of the library: text that
    is no SDP, an attribute before any media section, and a video section
    whose attributes are all malformed. *)
Example ParseSDP_malformed :
  Sdp.ParseSDP (λ _, None) EmptyString = Some (Ok Sdp.emptyInfo)
  ∧ Sdp.ParseSDP (λ _, None) "HTTP/1.1 404 Not Found" = Some (Ok Sdp.emptyInfo)
  ∧ Sdp.ParseSDP (λ _, None) "a=rtpmap:96 H264/90000" = Some (Ok Sdp.emptyInfo)
  ∧ Sdp.ParseSDP (λ _, None)
      ("m=video 0 RTP/AVP 96" +:+ CRLF +:+ "a=rtpmap:" +:+ CRLF +:+
       "a=fmtp:96 profile-level-id=42" +:+ CRLF +:+
       "a=x-dimensions:1920" +:+ CRLF +:+ "a=framerate:abc" +:+ CRLF +:+ "a=")
    = Some (Ok (Sdp.setVideoTracks [Sdp.zeroVideoTrack] Sdp.emptyInfo)).
Proof. repeat split; vm_compute; reflexivity. Qed.

(* ===================================================================== *)
(** * Further properties of the code                                     *)
(* ===================================================================== *)

(* --------------------------------------------------------------------- *)
(** ** pkg/utils/network.go                                              *)
(* --------------------------------------------------------------------- *)

Lemma cidr_aligned (p x0 x1 x2 x3 : Z) :
  0 ≤ p ≤ 32 → byte x0 → byte x1 → byte x2 → byte x3 →
  let m := Net.CIDRMask p 32 in
  let nip := Net.Mask [x0; x1; x2; x3] m in
  let N := ipToZ nip in
  let H := 2 ^ (32 - p) in
  N mod H = 0 ∧ N ≤ ipToZ [x0; x1; x2; x3] < N + H.
Proof.
  intros Hp H0 H1 H2 H3.
  assert (∃ n : nat, (n ≤ 32)%nat ∧ p = Z.of_nat n) as (n & Hn & ->)
    by (exists (Z.to_nat p); lia).
  clear Hp. revert Hn.
  do 33 (destruct n as [|n]; [intros _; bridge_case|]).
  lia.
Qed.

(** What a parsed CIDR string denotes, in numbers. *)
Lemma ParseCIDR_numbers (s : string) (ip : Net.IP) (ipNet : Net.IPNet) :
  Net.ParseCIDR s = Some (ip, ipNet) →
  let p := maskOnes (Net.IPNet_Mask ipNet) in
  let size := 2 ^ (32 - p) in
  let network := ipToZ (Net.IPNet_IP ipNet) in
  s ≠ EmptyString ∧ 0 ≤ p ≤ 32 ∧ isIPv4 ip
  ∧ isIPv4 (Net.IPNet_IP ipNet)
  ∧ network = size * (ipToZ ip / size)
  ∧ 0 ≤ network ∧ network + size ≤ 2 ^ 32
  ∧ isIPv4 (Utils.broadcastBytes (Net.IPNet_IP ipNet) (Net.IPNet_Mask ipNet))
  ∧ ipToZ (Utils.broadcastBytes (Net.IPNet_IP ipNet) (Net.IPNet_Mask ipNet))
    = network + size - 1
  ∧ ∀ x, isIPv4 x →
      Net.Contains ipNet x = bool_decide (network ≤ ipToZ x < network + size).
Proof.
  intros Hparse.
  destruct (ParseCIDR_inv s ip ipNet Hparse)
    as (Hs & (x0 & x1 & x2 & x3 & -> & H0 & H1 & H2 & H3) & p & Hp & ->).
  cbn [Net.IPNet_Mask Net.IPNet_IP]. rewrite maskOnes_CIDRMask by done.
  destruct (cidr_bridge p x0 x1 x2 x3 Hp H0 H1 H2 H3)
    as (Hnip & Hidem & HN0 & HNH & Hbip & Hbc & Hcont).
  destruct (cidr_aligned p x0 x1 x2 x3 Hp H0 H1 H2 H3) as [Hal Hin].
  assert (0 < 2 ^ (32 - p)) as Hpos by (apply Z.pow_pos_nonneg; lia).
  repeat split; try done; try lia.
  - by exists x0, x1, x2, x3.
  - set (N := ipToZ (Net.Mask [x0; x1; x2; x3] (Net.CIDRMask p 32))) in *.
    set (H := 2 ^ (32 - p)) in *.
    set (v := ipToZ [x0; x1; x2; x3]) in *.
    apply Z.mod_divide in Hal as [k Hk]; [|lia].
    assert (v / H = k) as ->; [|lia].
    symmetry. apply (Z.div_unique v H k (v - k * H)); lia.
  - intros x Hx. by apply Contains_range.
Qed.

Lemma length_hostAddresses (ipNet : Net.IPNet) :
  Z.of_nat (length (hostAddresses ipNet))
  = Z.max 0 (2 ^ (32 - maskOnes (Net.IPNet_Mask ipNet)) - 2).
Proof.
  unfold hostAddresses. rewrite length_fmap, length_seqZ. lia.
Qed.

(** X1: CIDR expansion.  For every CIDR string that parses to an IPv4
    network with a prefix length p of at least 1, [GetSubnetHosts] returns
    (once the loop has had its 2^(32-p) + 1 steps) the addresses strictly
    between the network address and the broadcast address, in ascending
    order: 2^(32-p) - 2 of them, and none for p = 31 and p = 32. *)
Theorem GetSubnetHosts_hosts_and_count
    (defaultSubnet : option string) (s : string) (ip : Net.IP)
    (ipNet : Net.IPNet) (fuel : nat) :
  Net.ParseCIDR s = Some (ip, ipNet) →
  let p := maskOnes (Net.IPNet_Mask ipNet) in
  1 ≤ p →
  (Z.to_nat (2 ^ (32 - p)) + 1 ≤ fuel)%nat →
  ∃ hosts,
    Utils.GetSubnetHosts defaultSubnet fuel s = Some (Ok hosts)
    ∧ hosts = hostAddresses ipNet
    ∧ Z.of_nat (length hosts) = Z.max 0 (2 ^ (32 - p) - 2).
Proof.
  intros Hparse p Hp Hfuel.
  exists (hostAddresses ipNet). split; [|split; [done|]].
  - by apply (proj1 (GetSubnetHosts_spec defaultSubnet s ip ipNet Hparse)).
  - apply length_hostAddresses.
Qed.

(** The statement at 10.1.2.0/24: 254 hosts. *)
Lemma GetSubnetHosts_hosts_and_count_witness :
  ∃ hosts,
    Utils.GetSubnetHosts None 300 "10.1.2.0/24" = Some (Ok hosts)
    ∧ hosts = hostAddresses {| Net.IPNet_IP := [10; 1; 2; 0];
                               Net.IPNet_Mask := [255; 255; 255; 0] |}
    ∧ Z.of_nat (length hosts) = Z.max 0 (2 ^ (32 - 24) - 2).
Proof.
  refine (GetSubnetHosts_hosts_and_count None "10.1.2.0/24" [10; 1; 2; 0]
            {| Net.IPNet_IP := [10; 1; 2; 0];
               Net.IPNet_Mask := [255; 255; 255; 0] |} 300 _ _ _).
  - reflexivity.
  - vm_compute. discriminate.
  - vm_compute. lia.
Defined.

Lemma ipToZ_ipOfZ (v : Z) : 0 ≤ v < 2 ^ 32 → isIPv4 (ipOfZ v) ∧ ipToZ (ipOfZ v) = v.
Proof.
  intros Hv. unfold ipOfZ, ipToZ, isIPv4, byte. split.
  - eexists _, _, _, _. split; [reflexivity|]. arith.
  - arith.
Qed.

Lemma parseIPv4_loop_run (ds : string) :
  ∀ val digLen v n rest fields,
    digitRun ds val digLen = Some (v, n) →
    Net.parseIPv4_loop (ds +:+ rest) fields val digLen
    = Net.parseIPv4_loop rest fields v n.
Proof.
  induction ds as [|c ds IH]; intros val digLen v n rest fields Hrun.
  - injection Hrun as -> ->. by rewrite append_nil_l.
  - rewrite append_cons. cbn [digitRun Net.parseIPv4_loop] in Hrun |- *.
    destruct (isDigit c); [|discriminate].
    destruct ((digLen =? 1)%nat && (val =? 0)); [discriminate|].
    destruct (255 <? val * 10 + digitVal c); [discriminate|].
    by apply IH.
Qed.

Lemma printsAsByte_all : forallb printsAsByte (seqZ 0 256) = true.
Proof. vm_compute. reflexivity. Qed.

Lemma itoa_byte (x : Z) :
  byte x →
  ∃ n, digitRun (Fmt.itoa x) 0 0 = Some (x, S n)
       ∧ ∃ c r, Fmt.itoa x = String c r.
Proof.
  intros Hx.
  pose proof printsAsByte_all as Hall. rewrite forallb_forall in Hall.
  assert (x ∈ seqZ 0 256) as Hin by (apply elem_of_seqZ; unfold byte in Hx; lia).
  specialize (Hall x (proj1 (list_elem_of_In _ _) Hin)).
  unfold printsAsByte in Hall.
  destruct (digitRun (Fmt.itoa x) 0 0) as [[v n]|] eqn:Hrun; [|discriminate].
  apply andb_true_iff in Hall as [Hv Hn].
  apply Z.eqb_eq in Hv as ->. apply Nat.ltb_lt in Hn.
  destruct n as [|n]; [lia|]. exists n. split; [done|].
  destruct (Fmt.itoa x) as [|c r]; [discriminate Hrun|eauto].
Qed.

Lemma parseIPv4_field (x y : Z) (rest : string) (fields : list Z) :
  byte x → byte y → (length fields < 3)%nat →
  Net.parseIPv4_loop (Fmt.itoa x +:+ "." +:+ Fmt.itoa y +:+ rest) fields 0 0
  = Net.parseIPv4_loop (Fmt.itoa y +:+ rest) (fields ++ [x]) 0 0.
Proof.
  intros Hx Hy Hlen.
  destruct (itoa_byte x Hx) as (n & Hrun & _).
  destruct (itoa_byte y Hy) as (_ & _ & c & r & Hy').
  rewrite (parseIPv4_loop_run _ _ _ _ _ _ _ Hrun).
  rewrite append_cons, append_nil_l.
  cbn [Net.parseIPv4_loop]. change (isDigit ".") with false.
  cbn [Ascii.eqb Bool.eqb Nat.eqb].
  rewrite Hy', append_cons. rewrite bool_decide_eq_false_2 by done.
  destruct (Nat.eqb_spec (length fields) 3); [lia|done].
Qed.

(** Dotted decimal reads back as the address it prints. *)
Lemma parseIPv4_String (ip : Net.IP) :
  isIPv4 ip → Net.parseIPv4 (Net.String_ ip) = Some ip.
Proof.
  intros (a & b & c & d & -> & Ha & Hb & Hc & Hd).
  unfold Net.parseIPv4, Net.String_.
  rewrite <- (append_nil_r (Fmt.itoa d)).
  rewrite !parseIPv4_field by (done || simpl; lia).
  destruct (itoa_byte d Hd) as (n & Hrun & _).
  rewrite (parseIPv4_loop_run _ _ _ _ _ _ _ Hrun). done.
Qed.

Lemma hostsLoop_fuel (fuel : nat) :
  ∀ ipNet broadcast ip hosts r (more : nat),
    Utils.hostsLoop fuel ipNet broadcast ip hosts = Some r →
    Utils.hostsLoop (fuel + more) ipNet broadcast ip hosts = Some r.
Proof.
  induction fuel as [|fuel IH]; intros ipNet broadcast ip hosts r more Hrun;
    [discriminate|].
  cbn [Utils.hostsLoop Nat.add] in Hrun |- *.
  destruct (Net.Contains ipNet ip); [|done]. by apply IH.
Qed.

Lemma GetSubnetHosts_fuel (d : option string) (s : string) (fuel more : nat)
    (hosts : list string) :
  Utils.GetSubnetHosts d fuel s = Some (Ok hosts) →
  Utils.GetSubnetHosts d (fuel + more) s = Some (Ok hosts).
Proof.
  unfold Utils.GetSubnetHosts.
  destruct (Utils.ParseSubnet d s) as [ipNet|e]; [|done].
  cbn zeta.
  destruct (Utils.hostsLoop fuel _ _ _ _) as [r|] eqn:Hrun; [|discriminate].
  intros [= ->]. by rewrite (hostsLoop_fuel _ _ _ _ _ _ more Hrun).
Qed.

(** Whenever the expansion of a CIDR string returns, it has returned the
    host addresses of the network. *)
Lemma GetSubnetHosts_returned (d : option string) (s : string) (fuel : nat)
    (ip : Net.IP) (ipNet : Net.IPNet) (hosts : list string) :
  Net.ParseCIDR s = Some (ip, ipNet) →
  Utils.GetSubnetHosts d fuel s = Some (Ok hosts) →
  1 ≤ maskOnes (Net.IPNet_Mask ipNet) ∧ hosts = hostAddresses ipNet.
Proof.
  intros Hparse Hrun.
  destruct (ParseCIDR_numbers s ip ipNet Hparse) as (_ & Hp & _).
  destruct (GetSubnetHosts_spec d s ip ipNet Hparse) as [Hpos Hzero].
  destruct (Z.eq_dec (maskOnes (Net.IPNet_Mask ipNet)) 0) as [H0|H0].
  - rewrite (Hzero H0 fuel) in Hrun. discriminate.
  - split; [lia|].
    set (more := (Z.to_nat (2 ^ (32 - maskOnes (Net.IPNet_Mask ipNet))) + 1)%nat).
    pose proof (GetSubnetHosts_fuel d s fuel more hosts Hrun) as Hrun'.
    rewrite (Hpos ltac:(lia) (fuel + more)%nat ltac:(lia)) in Hrun'.
    by injection Hrun' as <-.
Qed.

(** X2: every host string [GetSubnetHosts] returns for a CIDR string is
    accepted by [ValidateIP], is inside the subnet according to
    [IsIPInSubnet], and is neither what [GetNetworkAddress] nor what
    [GetBroadcastAddress] returns for that subnet. *)
Theorem GetSubnetHosts_members
    (defaultSubnet : option string) (s : string) (fuel : nat)
    (ip : Net.IP) (ipNet : Net.IPNet) (hosts : list string) (h : string) :
  Net.ParseCIDR s = Some (ip, ipNet) →
  Utils.GetSubnetHosts defaultSubnet fuel s = Some (Ok hosts) →
  h ∈ hosts →
  Utils.ValidateIP h = true
  ∧ Utils.IsIPInSubnet defaultSubnet h s = Ok true
  ∧ Utils.GetNetworkAddress defaultSubnet s ≠ Ok h
  ∧ Utils.GetBroadcastAddress defaultSubnet s ≠ Ok h.
Proof.
  intros Hparse Hrun Hh.
  destruct (GetSubnetHosts_returned _ _ _ _ _ _ Hparse Hrun) as [Hp1 ->].
  destruct (ParseCIDR_numbers s ip ipNet Hparse)
    as (Hs & Hp & Haddr & Hnip & HN & HN0 & HNH & Hbip & Hbc & Hcont).
  unfold hostAddresses in Hh.
  apply list_elem_of_fmap in Hh as (v & -> & Hv).
  apply elem_of_seqZ in Hv.
  set (N := ipToZ (Net.IPNet_IP ipNet)) in *.
  set (H := 2 ^ (32 - maskOnes (Net.IPNet_Mask ipNet))) in *.
  assert (0 ≤ v < 2 ^ 32) as Hv32 by lia.
  destruct (ipToZ_ipOfZ v Hv32) as [Hv4 Hvz].
  assert (Net.parseIPv4 (hostString v) = Some (ipOfZ v)) as Hback
    by (by apply parseIPv4_String).
  unfold Utils.ValidateIP, Utils.IsIPInSubnet, Utils.GetNetworkAddress,
    Utils.GetBroadcastAddress, Utils.ParseSubnet, Net.ParseIP.
  rewrite Hback, bool_decide_eq_false_2, Hparse by done.
  rewrite (Hcont _ Hv4), Hvz.
  split; [done|]. split; [by rewrite bool_decide_eq_true_2 by lia|].
  split; intros [= Heq].
  - assert (Net.parseIPv4 (Net.String_ (Net.IPNet_IP ipNet)) = Some (ipOfZ v)) as Hp'
      by (by rewrite Heq).
    rewrite parseIPv4_String in Hp' by done. injection Hp' as Hp'.
    subst N. rewrite Hp', Hvz in Hv. lia.
  - assert (Net.parseIPv4 (Net.String_ (Utils.broadcastBytes (Net.IPNet_IP ipNet)
              (Net.IPNet_Mask ipNet))) = Some (ipOfZ v)) as Hp'
      by (by rewrite Heq).
    rewrite parseIPv4_String in Hp' by done. injection Hp' as Hp'.
    rewrite Hp', Hvz in Hbc. lia.
Qed.

(** The statement at the host 192.168.1.2 of 192.168.1.0/30. *)
Lemma GetSubnetHosts_members_witness :
  Utils.ValidateIP "192.168.1.2" = true
  ∧ Utils.IsIPInSubnet None "192.168.1.2" "192.168.1.0/30" = Ok true
  ∧ Utils.GetNetworkAddress None "192.168.1.0/30" ≠ Ok "192.168.1.2"
  ∧ Utils.GetBroadcastAddress None "192.168.1.0/30" ≠ Ok "192.168.1.2".
Proof.
  apply (GetSubnetHosts_members None "192.168.1.0/30" 5 [192; 168; 1; 0]
           {| Net.IPNet_IP := [192; 168; 1; 0];
              Net.IPNet_Mask := [255; 255; 255; 252] |}
           ["192.168.1.1"; "192.168.1.2"] "192.168.1.2").
  - reflexivity.
  - vm_compute. reflexivity.
  - apply list_elem_of_In. simpl. tauto.
Defined.

Lemma parseIPv4_loop_no_slash (s : string) :
  ∀ fields val digLen ip,
    Net.parseIPv4_loop s fields val digLen = Some ip →
    Index s "/" = None ∧ Contains s "/" = false.
Proof.
  induction s as [|c s IH]; intros fields val digLen ip Hparse; [done|].
  cbn [Net.parseIPv4_loop] in Hparse.
  assert (c ≠ "/"%char ∧
          ∃ fields' val' digLen', Net.parseIPv4_loop s fields' val' digLen' = Some ip)
    as [Hc (f' & v' & n' & Hrec)].
  { destruct (isDigit c) eqn:Hd.
    - split.
      + intros ->. discriminate Hd.
      + destruct ((digLen =? 1)%nat && (val =? 0)); [discriminate|].
        destruct (255 <? val * 10 + digitVal c); [discriminate|]. eauto.
    - destruct (Ascii.eqb_spec c ".") as [->|]; [|discriminate].
      split; [done|].
      destruct (digLen =? 0)%nat; [discriminate|].
      case_bool_decide; [discriminate|].
      destruct (length fields =? 3)%nat; [discriminate|]. eauto. }
  destruct (IH _ _ _ _ Hrec) as [Hi Hcont].
  cbn [Index Contains String.prefix].
  destruct (ascii_dec "/" c) as [<-|_]; [done|].
  cbn. rewrite Hi, Hcont. done.
Qed.

Lemma Index_app_sep (s : string) (c : ascii) (t : string) :
  Index s (String c EmptyString) = None →
  Index (s +:+ String c t) (String c EmptyString) = Some (String.length s)
  ∧ slice_to (s +:+ String c t) (String.length s) = Some s
  ∧ slice_from (s +:+ String c t) (S (String.length s)) = Some t.
Proof.
  induction s as [|d s IH]; intros Hi.
  - rewrite append_nil_l. cbn [Index String.prefix String.length slice_to slice_from].
    destruct (ascii_dec c c); [|done].
    split; [by destruct t|]. split; [done|]. by destruct t.
  - rewrite append_cons. cbn [Index String.prefix] in Hi |- *.
    destruct (ascii_dec c d).
    + by destruct s.
    + destruct (Index s (String c EmptyString)) eqn:Hs; [discriminate|].
      destruct (IH eq_refl) as (-> & Hto & Hfrom).
      split; [done|]. cbn [slice_to slice_from String.length].
      rewrite Hto. split; [done|]. exact Hfrom.
Qed.

(** X3: a subnet given as a bare IPv4 address a.b.c.d, without a prefix
    length, is read by [ParseSubnet] as the network a.b.c.0 with mask
    255.255.255.0. *)
Theorem ParseSubnet_bare_address
    (defaultSubnet : option string) (s : string) (a b c d : Z) :
  Net.parseIPv4 s = Some [a; b; c; d] →
  Utils.ParseSubnet defaultSubnet s
  = Ok {| Net.IPNet_IP := [a; b; c; 0];
          Net.IPNet_Mask := [255; 255; 255; 0] |}.
Proof.
  intros Hparse.
  destruct (parseIPv4_loop_no_slash s _ _ _ _ Hparse) as [Hi Hc].
  assert (isIPv4 [a; b; c; d]) as (a' & b' & c' & d' & [= <- <- <- <-] & Ha & Hb & Hcc & Hd).
  { eapply parseIPv4_loop_bytes; [exact Hparse|constructor|unfold byte; lia|simpl; lia]. }
  assert (s ≠ EmptyString) as Hs by (intros ->; discriminate Hparse).
  unfold Utils.ParseSubnet.
  rewrite bool_decide_eq_false_2 by done.
  unfold Net.ParseCIDR at 1. rewrite Hi. cbn. rewrite Hc.
  unfold Net.ParseCIDR.
  destruct (Index_app_sep s "/" "24" Hi) as (-> & Hto & Hfrom).
  cbn [mbind option_bind]. rewrite Hto. cbn [mbind option_bind].
  rewrite Hfrom. cbn [mbind option_bind]. rewrite Hparse. cbn [mbind option_bind].
  change (Net.dtoi "24") with (24, 2%nat, true).
  cbn -[Z.land Net.CIDRMask].
  change (Net.CIDRMask 24 32) with [255; 255; 255; 0].
  cbn -[Z.land]. do 2 f_equal.
  unfold byte in *.
  rewrite !Z.land_0_r.
  change 255 with (Z.ones 8). rewrite !Z.land_ones by lia.
  rewrite !Z.mod_small by lia. done.
Qed.

(** The statement at 192.168.1.77. *)
Lemma ParseSubnet_bare_address_witness :
  Utils.ParseSubnet None "192.168.1.77"
  = Ok {| Net.IPNet_IP := [192; 168; 1; 0];
          Net.IPNet_Mask := [255; 255; 255; 0] |}.
Proof. apply (ParseSubnet_bare_address None "192.168.1.77" 192 168 1 77). reflexivity. Defined.

(** X4: [IsIPInSubnet] decides a numeric interval.  For an IPv4 address
    and a CIDR string addr/p it answers whether the address, read as a
    32-bit number, lies in [network, network + 2^(32-p)), where network is
    addr rounded down to a multiple of 2^(32-p). *)
Theorem IsIPInSubnet_range
    (defaultSubnet : option string) (ipStr subnet : string)
    (ip addr : Net.IP) (ipNet : Net.IPNet) :
  Net.ParseIP ipStr = Some ip →
  Net.ParseCIDR subnet = Some (addr, ipNet) →
  let size := 2 ^ (32 - maskOnes (Net.IPNet_Mask ipNet)) in
  let network := size * (ipToZ addr / size) in
  Utils.IsIPInSubnet defaultSubnet ipStr subnet
  = Ok (bool_decide (network ≤ ipToZ ip < network + size)).
Proof.
  intros Hip Hparse size network.
  destruct (ParseCIDR_numbers subnet addr ipNet Hparse)
    as (Hs & Hp & Haddr & Hnip & HN & HN0 & HNH & Hbip & Hbc & Hcont).
  assert (isIPv4 ip) as Hv4.
  { eapply parseIPv4_loop_bytes; [exact Hip|constructor|unfold byte; lia|simpl; lia]. }
  unfold Utils.IsIPInSubnet, Utils.ParseSubnet.
  rewrite Hip, bool_decide_eq_false_2, Hparse by done.
  rewrite (Hcont ip Hv4). subst network size. by rewrite <- HN.
Qed.

(** The statement at 192.168.1.130 and 192.168.1.77/25. *)
Lemma IsIPInSubnet_range_witness :
  Utils.IsIPInSubnet None "192.168.1.130" "192.168.1.77/25"
  = Ok (bool_decide
          (2 ^ (32 - 25) * (ipToZ [192; 168; 1; 77] / 2 ^ (32 - 25))
           ≤ ipToZ [192; 168; 1; 130]
           < 2 ^ (32 - 25) * (ipToZ [192; 168; 1; 77] / 2 ^ (32 - 25))
             + 2 ^ (32 - 25))).
Proof.
  apply (IsIPInSubnet_range None "192.168.1.130" "192.168.1.77/25"
           [192; 168; 1; 130] [192; 168; 1; 77]
           {| Net.IPNet_IP := [192; 168; 1; 0];
              Net.IPNet_Mask := [255; 255; 255; 128] |});
    reflexivity.
Defined.

(** X5: for a CIDR string addr/p, [GetNetworkAddress] prints addr rounded
    down to a multiple of 2^(32-p) and [GetBroadcastAddress] prints that
    number plus 2^(32-p) - 1. *)
Theorem network_and_broadcast_address
    (defaultSubnet : option string) (s : string) (ip : Net.IP)
    (ipNet : Net.IPNet) :
  Net.ParseCIDR s = Some (ip, ipNet) →
  let size := 2 ^ (32 - maskOnes (Net.IPNet_Mask ipNet)) in
  let network := size * (ipToZ ip / size) in
  Utils.GetNetworkAddress defaultSubnet s = Ok (hostString network)
  ∧ Utils.GetBroadcastAddress defaultSubnet s
    = Ok (hostString (network + size - 1)).
Proof.
  intros Hparse size network.
  destruct (ParseCIDR_numbers s ip ipNet Hparse)
    as (Hs & Hp & Haddr & Hnip & HN & HN0 & HNH & Hbip & Hbc & Hcont).
  unfold Utils.GetNetworkAddress, Utils.GetBroadcastAddress, Utils.ParseSubnet.
  rewrite bool_decide_eq_false_2, Hparse by done.
  subst network size. rewrite <- HN, <- Hbc.
  unfold hostString.
  destruct Hbip as (a' & b' & c' & d' & -> & ? & ? & ? & ?).
  destruct Hnip as (a & b & c & d & -> & ? & ? & ? & ?).
  by rewrite !ipOfZ_ipToZ.
Qed.

(** The statement at 10.20.30.40/12, whose broadcast address is
    10.31.255.255. *)
Lemma network_and_broadcast_address_witness :
  Utils.GetNetworkAddress None "10.20.30.40/12"
  = Ok (hostString (2 ^ (32 - 12) * (ipToZ [10; 20; 30; 40] / 2 ^ (32 - 12))))
  ∧ Utils.GetBroadcastAddress None "10.20.30.40/12"
    = Ok (hostString (2 ^ (32 - 12) * (ipToZ [10; 20; 30; 40] / 2 ^ (32 - 12))
                      + 2 ^ (32 - 12) - 1)).
Proof.
  apply (network_and_broadcast_address None "10.20.30.40/12" [10; 20; 30; 40]
           {| Net.IPNet_IP := [10; 16; 0; 0];
              Net.IPNet_Mask := [255; 240; 0; 0] |}).
  reflexivity.
Defined.

Example broadcast_of_10_20_30_40_12 :
  Utils.GetBroadcastAddress None "10.20.30.40/12" = Ok "10.31.255.255".
Proof. reflexivity. Qed.

(** X6: [incrementIP] adds one to the address read as a 32-bit number,
    carrying from byte to byte; applied k times it adds k modulo 2^32, so
    255.255.255.255 is followed by 0.0.0.0. *)
Theorem incrementIP_iterated (k : nat) (ip : Net.IP) :
  isIPv4 ip →
  isIPv4 (Nat.iter k Utils.incrementIP ip)
  ∧ ipToZ (Nat.iter k Utils.incrementIP ip)
    = (ipToZ ip + Z.of_nat k) mod 2 ^ 32.
Proof.
  intros Hip. induction k as [|k [IH1 IH2]].
  - simpl. split; [done|]. pose proof (ipToZ_range ip Hip).
    rewrite Z.add_0_r, Z.mod_small; lia.
  - change (Nat.iter (S k) Utils.incrementIP ip)
      with (Utils.incrementIP (Nat.iter k Utils.incrementIP ip)).
    destruct (incrementIP_isIPv4 _ IH1) as [H1 H2].
    split; [done|]. rewrite H2, IH2.
    rewrite Zplus_mod_idemp_l. f_equal. lia.
Qed.

(** The statement at 10.0.255.255, incremented twice. *)
Lemma incrementIP_iterated_witness :
  isIPv4 (Nat.iter 2 Utils.incrementIP [10; 0; 255; 255])
  ∧ ipToZ (Nat.iter 2 Utils.incrementIP [10; 0; 255; 255])
    = (ipToZ [10; 0; 255; 255] + Z.of_nat 2) mod 2 ^ 32.
Proof.
  apply (incrementIP_iterated 2 [10; 0; 255; 255]).
  exists 10, 0, 255, 255. unfold byte. repeat split; lia.
Defined.


(* --------------------------------------------------------------------- *)
(** ** internal/scanner: the parallel sweep                              *)
(* --------------------------------------------------------------------- *)

Section Parallel.
Import Models.
Variable net : Network.t.
Variable ports : list Z.
Variable now : nat → Time.


Lemma dispatch_false (cancelled : nat → bool) (hosts : list string) (i j : nat) :
  (i ≤ j < i + length hosts)%nat → cancelled j = true →
  Scanner.dispatch cancelled i hosts = false.
Proof.
  revert i. induction hosts as [|h hosts IH]; intros i Hj Hc; [simpl in Hj; lia|].
  cbn [Scanner.dispatch]. destruct (cancelled i) eqn:Hi; [done|].
  apply IH; [|done]. simpl in Hj.
  destruct (decide (i = j)) as [->|]; [congruence|lia].
Qed.





End Parallel.

Lemma dropTrailingDot_dot (h : string) :
  Scanner.dropTrailingDot (h +:+ ".") = h.
Proof.
  induction h as [|c h IH]; [done|].
  rewrite append_cons. cbn [Scanner.dropTrailingDot]. rewrite IH.
  destruct h; by rewrite ?append_nil_l, ?append_cons.
Qed.

Lemma dropTrailingDot_other (name : string) :
  (∀ h, name ≠ h +:+ ".") → Scanner.dropTrailingDot name = name.
Proof.
  induction name as [|c name IH]; intros Hno; [done|].
  cbn [Scanner.dropTrailingDot]. destruct name as [|d name].
  - destruct (Ascii.eqb c ".") eqn:Hc; [|done].
    apply Ascii.eqb_eq in Hc as ->. by destruct (Hno EmptyString).
  - rewrite IH; [done|]. intros h Hh. apply (Hno (String c h)).
    by rewrite append_cons, Hh.
Qed.

Lemma dotted (name : string) :
  (∃ h, name = h +:+ ".") ∨ (∀ h, name ≠ h +:+ ".").
Proof.
  induction name as [|c name IH]; [right; by intros [|??]|].
  destruct name as [|d name].
  - destruct (Ascii.eqb c ".") eqn:Hc.
    + apply Ascii.eqb_eq in Hc as ->. left. by exists EmptyString.
    + right. intros [|e [|??]]; cbn; intros [=]; subst.
      by rewrite Ascii.eqb_refl in Hc.
  - destruct IH as [[h ->]|Hno].
    + left. exists (String c h). by rewrite append_cons.
    + right. intros [|e h]; [done|]. rewrite append_cons. intros [= -> Hh].
      by apply (Hno h).
Qed.

(** [ResolveHostname] returns the first name of the reverse lookup
    without one trailing dot, the empty string when the lookup returns no
    name, and the error of the lookup. *)
Theorem ResolveHostname_drops_one_trailing_dot
    (net : Network.t) (ip : string) :
  match Network.LookupAddr net ip with
  | Err e => Scanner.ResolveHostname net ip = Err e
  | Ok [] => Scanner.ResolveHostname net ip = Ok EmptyString
  | Ok (name :: _) =>
      ∃ h, Scanner.ResolveHostname net ip = Ok h
           ∧ (name = h +:+ "." ∨ (name = h ∧ ∀ t, name ≠ t +:+ "."))
  end.
Proof.
  unfold Scanner.ResolveHostname.
  destruct (Network.LookupAddr net ip) as [[|name rest]|e]; [done| |done].
  destruct (dotted name) as [[h ->]|Hno].
  - exists h. rewrite dropTrailingDot_dot. auto.
  - exists name. rewrite dropTrailingDot_other; auto.
Qed.




(** X8: when the context is found cancelled while the hosts are being
    dispatched, [scanPortsParallel] returns no device at all, whatever the
    hosts dispatched before that point answer. *)
Theorem scanPortsParallel_cancelled_returns_nothing
    (net : Network.t) (ports : list Z) (now : nat → Time)
    (cancelled : nat → bool) (hosts : list string) (i : nat) :
  (i < length hosts)%nat → cancelled i = true →
  Scanner.scanPortsParallel net ports now cancelled hosts = [].
Proof.
  intros Hi Hc. unfold Scanner.scanPortsParallel.
  by rewrite (dispatch_false cancelled hosts 0 i) by (done || lia).
Qed.

(** The statement on a sweep cancelled before its second host, the first
    of which listens on port 554. *)
Lemma scanPortsParallel_cancelled_returns_nothing_witness :
  Scanner.scanPortsParallel (answering "10.0.0.5" 554 "RTSP/1.0 200 OK")
    [80; 554] (λ _, 7) (λ i, bool_decide (i = 1%nat))
    ["10.0.0.5"; "10.0.0.6"] = [].
Proof.
  apply (scanPortsParallel_cancelled_returns_nothing
           (answering "10.0.0.5" 554 "RTSP/1.0 200 OK") [80; 554] (λ _, 7)
           (λ i, bool_decide (i = 1%nat)) ["10.0.0.5"; "10.0.0.6"] 1).
  - simpl. lia.
  - reflexivity.
Defined.




(* --------------------------------------------------------------------- *)
(** ** internal/protocols/rtsp.go: accepted replies                      *)
(* --------------------------------------------------------------------- *)

Lemma Detect_available (net : Network.t) (now : Time) (ip : string) (port : Z) :
  Models.Available (Protocols.Detect net now ip port).1 = true →
  Protocols.Detect net now ip port
  = ({| Models.Type_ := "RTSP"; Models.Port := port;
        Models.URL := "rtsp://" +:+ ip +:+ ":" +:+ Fmt.itoa port;
        Models.Available := true; Models.DetectedAt := now |}, None).
Proof.
  unfold Protocols.Detect.
  destruct (Network.dial net ip port) as [conn|]; [|discriminate].
  destruct (negb (Network.writeOk conn)); [discriminate|].
  destruct (ReadString (Network.incoming conn)) as [[response rest]|];
    [|discriminate].
  destruct (negb (Contains response "RTSP/1.0")); [discriminate|].
  destruct (Contains response "200" || Contains response "401");
    [|discriminate].
  intros _. do 2 f_equal.
  cbv -[String.append Fmt.itoa]. by autorewrite with app_norm.
Qed.

(** X10: the detector accepts every reply whose status line is the
    version RTSP/1.0, a status code that reads as 200 or 401, and any
    reason phrase: it reports the protocol RTSP on the probed port as
    available, with the URL rtsp://ip:port and no error. *)
Theorem Detect_reports_endpoint_on_200_or_401
    (now : Time) (ip : string) (port : Z) (code reason : string) :
  Atoi code = Some 200 ∨ Atoi code = Some 401 →
  Protocols.Detect
    (answering ip port ("RTSP/1.0 " +:+ code +:+ " " +:+ reason)) now ip port
  = ({| Models.Type_ := "RTSP"; Models.Port := port;
        Models.URL := "rtsp://" +:+ ip +:+ ":" +:+ Fmt.itoa port;
        Models.Available := true; Models.DetectedAt := now |}, None).
Proof.
  intros Hcode. apply Detect_available. by apply Detect_accepts_200_401.
Qed.

(** The statement at a 401 reply on 10.0.0.5:8554. *)
Lemma Detect_reports_endpoint_on_200_or_401_witness :
  Protocols.Detect
    (answering "10.0.0.5" 8554 ("RTSP/1.0 " +:+ "401" +:+ " " +:+ "Unauthorized"))
    7 "10.0.0.5" 8554
  = ({| Models.Type_ := "RTSP"; Models.Port := 8554;
        Models.URL := "rtsp://" +:+ "10.0.0.5" +:+ ":" +:+ Fmt.itoa 8554;
        Models.Available := true; Models.DetectedAt := 7 |}, None).
Proof.
  apply (Detect_reports_endpoint_on_200_or_401 7 "10.0.0.5" 8554 "401"
           "Unauthorized").
  right. reflexivity.
Defined.


(* --------------------------------------------------------------------- *)
(** ** internal/rtsp/client.go: requests, challenges, bodies             *)
(* --------------------------------------------------------------------- *)

(** X11: over any sequence of OPTIONS, DESCRIBE, SETUP and PLAY calls of a
    client made by [NewClient], the counter equals one plus the number of
    requests written, and the request written in position i (from 0)
    carries CSeq i + 2, retries after a challenge included. *)
Theorem session_requests_numbered `{Text}
    (parsedURL : Rtsp.URL) (input username password : string)
    (calls : list Rtsp.call) (c : Rtsp.Client) :
  Rtsp.NewClient (Ok parsedURL) (Some input) username password = Ok c →
  let c' := Rtsp.session c calls in
  Rtsp.cseq c' = 1 + Z.of_nat (length (Rtsp.sent c'))
  ∧ ∀ (i : nat) request,
      Rtsp.sent c' !! i = Some request → carriesCSeq request (Z.of_nat i + 2).
Proof.
  intros Hnew c'. subst c'. injection Hnew as <-.
  destruct (session_sentSince calls
    {| Rtsp.reader := input; Rtsp.sent := []; Rtsp.url := parsedURL;
       Rtsp.username := username; Rtsp.password := password;
       Rtsp.sessionID := EmptyString; Rtsp.cseq := 1;
       Rtsp.authMethod := EmptyString; Rtsp.realm := EmptyString;
       Rtsp.nonce := EmptyString |}) as (requests & Hs & Hc & Hr).
  rewrite Hs, Hc. cbn [Rtsp.sent Rtsp.cseq app] in *. split; [done|].
  intros i request Hi. specialize (Hr _ _ Hi).
  by replace (Z.of_nat i + 2) with (1 + 1 + Z.of_nat i) by lia.
Qed.

(** The statement on a DESCRIBE that is challenged and retried, followed
    by a PLAY. *)
Lemma session_requests_numbered_witness :
  ∃ c, Rtsp.NewClient (Ok camera_url) (Some challenge_then_ok)
         "admin" "12345" = Ok c
  ∧ let c' := Rtsp.session c [Rtsp.CallDescribe; Rtsp.CallPlay] in
    Rtsp.cseq c' = 1 + Z.of_nat (length (Rtsp.sent c'))
    ∧ ∀ (i : nat) request,
        Rtsp.sent c' !! i = Some request → carriesCSeq request (Z.of_nat i + 2).
Proof.
  eexists. split; [reflexivity|].
  exact (session_requests_numbered camera_url challenge_then_ok "admin" "12345"
           [Rtsp.CallDescribe; Rtsp.CallPlay] _ eq_refl).
Defined.

Lemma sendRequest_sent `{Text} (c : Rtsp.Client) (method path : string)
    (headers : list (string * string)) :
  let c' := (Rtsp.sendRequest c method path headers).1 in
  length (Rtsp.sent c') = S (length (Rtsp.sent c))
  ∧ (Rtsp.sendRequest c method path headers).2 = (Rtsp.readResponse (Rtsp.reader c)).1.
Proof.
  unfold Rtsp.sendRequest. cbn [Rtsp.reader].
  destruct (Rtsp.readResponse (Rtsp.reader c)) as [response rest]. cbn.
  rewrite length_app. simpl. split; [lia|done].
Qed.

Lemma parseAuthHeader_sent `{Text} (c : Rtsp.Client) (header : string) :
  Rtsp.sent (Rtsp.parseAuthHeader c header) = Rtsp.sent c.
Proof. destruct (parseAuthHeader_sentSince c header) as [Hs _]. by rewrite Hs, app_nil_r. Qed.

Lemma Describe_sent `{Text} (c : Rtsp.Client) :
  length (Rtsp.sent (Rtsp.Describe c).1)
  = (length (Rtsp.sent c)
     + (if challenged (Rtsp.readResponse (Rtsp.reader c)).1 then 2 else 1))%nat
  ∧ (challenged (Rtsp.readResponse (Rtsp.reader c)).1 = false →
     (Rtsp.Describe c).2 = (Rtsp.readResponse (Rtsp.reader c)).1).
Proof.
  unfold Rtsp.Describe.
  destruct (sendRequest_sent c "DESCRIBE" (Rtsp.requestPath c)
              [("Accept", "application/sdp")]) as [Hlen Hres].
  destruct (Rtsp.sendRequest c "DESCRIBE" _ _) as [c1 r1]. cbn [fst snd] in *.
  rewrite <- Hres. destruct r1 as [response|e]; cbn [challenged fst snd].
  - destruct (Rtsp.StatusCode response =? 401); cbn [andb fst snd]; [|split; [lia|done]].
    destruct (negb _) eqn:Hh; cbn [fst snd]; [|split; [lia|done]].
    split; [|done].
    destruct (sendRequest_sent (Rtsp.parseAuthHeader c1
                (default EmptyString (Rtsp.Headers response !! "WWW-Authenticate")))
                "DESCRIBE" (Rtsp.requestPath c) [("Accept", "application/sdp")])
      as [Hlen2 _].
    cbn zeta in Hlen2. rewrite Hlen2, parseAuthHeader_sent. lia.
  - split; [lia|done].
Qed.

(** X12: [Describe] writes one request, or two when the first reply is a
    401 that carries a WWW-Authenticate header: it retries at most once,
    and returns the first reply whenever it does not retry. *)
Theorem Describe_retries_at_most_once `{Text} (c : Rtsp.Client) :
  let first := (Rtsp.readResponse (Rtsp.reader c)).1 in
  length (Rtsp.sent (Rtsp.Describe c).1)
  = (length (Rtsp.sent c) + (if challenged first then 2 else 1))%nat
  ∧ (challenged first = false → (Rtsp.Describe c).2 = first).
Proof. intros first. apply Describe_sent. Qed.

Section BasicChallenge.
Context `{Text}.

Lemma requestText_lines (c : Rtsp.Client) (method path : string)
    (headers : list (string * string)) :
  Rtsp.requestText c method path headers
  = method +:+ " " +:+ path +:+ " RTSP/1.0" +:+ CRLF +:+
    "CSeq: " +:+ Fmt.itoa (Rtsp.cseq c) +:+ CRLF +:+
    Rtsp.headerLines headers +:+
    "User-Agent: Local-video-server/1.0" +:+ CRLF +:+
    Rtsp.authLine c method path +:+ CRLF.
Proof.
  unfold Rtsp.requestText.
  generalize (Rtsp.headerLines headers) (Rtsp.authLine c method path).
  intros h a. cbv -[String.append Fmt.itoa].
  repeat (progress (rewrite ?append_assoc; autorewrite with app_norm)).
  done.
Qed.

Lemma authLine_basic (c : Rtsp.Client) (method path : string) :
  Rtsp.authMethod c = "Basic" →
  Rtsp.username c ≠ EmptyString → Rtsp.password c ≠ EmptyString →
  Rtsp.authLine c method path
  = "Authorization: Basic "
    +:+ Crypto.base64
          (Crypto.bytes_of_string (Rtsp.username c +:+ ":" +:+ Rtsp.password c))
    +:+ CRLF.
Proof.
  intros Hm Hu Hp. unfold Rtsp.authLine, Rtsp.buildAuthHeader. rewrite Hm.
  rewrite (bool_decide_eq_false_2 ("Basic" = EmptyString)) by done.
  rewrite (bool_decide_eq_false_2 (Rtsp.username c = _)) by done.
  rewrite (bool_decide_eq_false_2 (Rtsp.password c = _)) by done.
  rewrite (bool_decide_eq_true_2 ("Basic" = "Basic")) by done.
  cbn [negb andb].
  generalize (Crypto.base64
                (Crypto.bytes_of_string (Rtsp.username c +:+ ":" +:+ Rtsp.password c))).
  intros e. cbv -[String.append]. by autorewrite with app_norm.
Qed.

Lemma parseAuthHeader_basic (c : Rtsp.Client) (header : string) :
  HasPrefix header "Basic" = true →
  Rtsp.authMethod (Rtsp.parseAuthHeader c header) = "Basic"
  ∧ Rtsp.username (Rtsp.parseAuthHeader c header) = Rtsp.username c
  ∧ Rtsp.password (Rtsp.parseAuthHeader c header) = Rtsp.password c
  ∧ Rtsp.cseq (Rtsp.parseAuthHeader c header) = Rtsp.cseq c
  ∧ Rtsp.sent (Rtsp.parseAuthHeader c header) = Rtsp.sent c.
Proof.
  intros Hb. unfold Rtsp.parseAuthHeader. rewrite Hb.
  by destruct (Index header "realm=").
Qed.

End BasicChallenge.

(** X13: answering a Basic challenge.  When the first reply to DESCRIBE
    is a 401 whose WWW-Authenticate header starts with Basic, and the
    client has a user name and a password, the second request written is
    the DESCRIBE of the same path with the next sequence number and the
    header Authorization: Basic base64(user:password). *)
Theorem Describe_answers_basic_challenge `{Text}
    (c : Rtsp.Client) (challenge : Rtsp.Response) (header : string) :
  (Rtsp.readResponse (Rtsp.reader c)).1 = Ok challenge →
  Rtsp.StatusCode challenge = 401 →
  Rtsp.Headers challenge !! "WWW-Authenticate" = Some header →
  HasPrefix header "Basic" = true →
  Rtsp.username c ≠ EmptyString → Rtsp.password c ≠ EmptyString →
  ∃ first,
    Rtsp.sent (Rtsp.Describe c).1
    = Rtsp.sent c ++
      [first;
       "DESCRIBE " +:+ Rtsp.requestPath c +:+ " RTSP/1.0" +:+ CRLF +:+
       "CSeq: " +:+ Fmt.itoa (Rtsp.cseq c + 2) +:+ CRLF +:+
       "Accept: application/sdp" +:+ CRLF +:+
       "User-Agent: Local-video-server/1.0" +:+ CRLF +:+
       "Authorization: Basic "
       +:+ Crypto.base64
             (Crypto.bytes_of_string
                (Rtsp.username c +:+ ":" +:+ Rtsp.password c))
       +:+ CRLF +:+ CRLF].
Proof.
  intros Hfirst H401 Hheader Hbasic Hu Hp.
  assert (header ≠ EmptyString) as Hne by (intros ->; discriminate Hbasic).
  unfold Rtsp.Describe. unfold Rtsp.sendRequest at 1. cbn [Rtsp.reader].
  destruct (Rtsp.readResponse (Rtsp.reader c)) as [response rest].
  cbn [fst] in Hfirst. subst response.
  rewrite H401, Z.eqb_refl, Hheader. cbn [default from_option id].
  rewrite bool_decide_eq_false_2 by done. cbn [negb].
  set (c1 := {| Rtsp.reader := rest |}).
  destruct (parseAuthHeader_basic c1 header Hbasic)
    as (Hm & Hu' & Hp' & Hc' & Hs').
  unfold Rtsp.sendRequest.
  set (c2 := {| Rtsp.reader := Rtsp.reader (Rtsp.parseAuthHeader c1 header) |}).
  destruct (Rtsp.readResponse _) as [response2 rest2]. cbn [fst Rtsp.sent].
  eexists.
  assert (Rtsp.sent c2 = Rtsp.sent c ++ [Rtsp.requestText
            {| Rtsp.reader := Rtsp.reader c; Rtsp.sent := Rtsp.sent c;
               Rtsp.url := Rtsp.url c; Rtsp.username := Rtsp.username c;
               Rtsp.password := Rtsp.password c;
               Rtsp.sessionID := Rtsp.sessionID c; Rtsp.cseq := Rtsp.cseq c + 1;
               Rtsp.authMethod := Rtsp.authMethod c; Rtsp.realm := Rtsp.realm c;
               Rtsp.nonce := Rtsp.nonce c |}
            "DESCRIBE" (Rtsp.requestPath c) [("Accept", "application/sdp")]])
    as -> by (subst c2; cbn [Rtsp.sent]; by rewrite Hs').
  rewrite <- app_assoc. f_equal. cbn [app]. f_equal. f_equal.
  rewrite requestText_lines.
  assert (Rtsp.authMethod c2 = "Basic") as Hm2 by (subst c2; exact Hm).
  assert (Rtsp.cseq c2 = Rtsp.cseq c + 2) as Hc2
    by (subst c2; cbn [Rtsp.cseq]; rewrite Hc'; subst c1; cbn; lia).
  assert (Rtsp.username c2 = Rtsp.username c) as Hu2
    by (subst c2; cbn [Rtsp.username]; by rewrite Hu').
  assert (Rtsp.password c2 = Rtsp.password c) as Hp2
    by (subst c2; cbn [Rtsp.password]; by rewrite Hp').
  rewrite (authLine_basic c2) by (done || by rewrite ?Hu2, ?Hp2).
  rewrite Hc2, Hu2, Hp2.
  generalize (Crypto.base64
                (Crypto.bytes_of_string (Rtsp.username c +:+ ":" +:+ Rtsp.password c)))
    (Fmt.itoa (Rtsp.cseq c + 2)) (Rtsp.requestPath c).
  intros e n p.
  cbv -[String.append].
  repeat (progress (rewrite ?append_assoc; autorewrite with app_norm)).
  done.
Qed.

(** The statement on the client admin / 12345 of the stream /live. *)
Lemma Describe_answers_basic_challenge_witness :
  ∃ first,
    Rtsp.sent (Rtsp.Describe waiting_client).1
    = Rtsp.sent waiting_client ++
      [first;
       "DESCRIBE " +:+ Rtsp.requestPath waiting_client +:+ " RTSP/1.0" +:+ CRLF +:+
       "CSeq: " +:+ Fmt.itoa (Rtsp.cseq waiting_client + 2) +:+ CRLF +:+
       "Accept: application/sdp" +:+ CRLF +:+
       "User-Agent: Local-video-server/1.0" +:+ CRLF +:+
       "Authorization: Basic "
       +:+ Crypto.base64
             (Crypto.bytes_of_string
                (Rtsp.username waiting_client +:+ ":"
                 +:+ Rtsp.password waiting_client))
       +:+ CRLF +:+ CRLF].
Proof.
  apply (Describe_answers_basic_challenge waiting_client basic_challenge
           "Basic realm=cam").
  - vm_compute. reflexivity.
  - reflexivity.
  - reflexivity.
  - reflexivity.
  - discriminate.
  - discriminate.
Defined.

Example basic_authorization_value :
  Crypto.base64 (Crypto.bytes_of_string "admin:12345") = "YWRtaW46MTIzNDU=".
Proof. vm_compute. reflexivity. Qed.

Lemma Split_app_sep (a rest : string) (sep : ascii) :
  noByte sep a = true →
  Split (a +:+ String sep rest) sep = a :: Split rest sep.
Proof.
  induction a as [|c a IH]; intros Ha.
  - rewrite append_nil_l. cbn [Split]. by rewrite Ascii.eqb_refl.
  - rewrite append_cons. cbn [Split noByte] in *.
    apply andb_true_iff in Ha as [Hc Ha].
    destruct (Ascii.eqb c sep); [done|]. by rewrite IH.
Qed.

Lemma Split_no_sep (a : string) (sep : ascii) :
  noByte sep a = true → Split a sep = [a].
Proof.
  induction a as [|c a IH]; intros Ha; [done|].
  cbn [Split noByte] in *. apply andb_true_iff in Ha as [Hc Ha].
  destruct (Ascii.eqb c sep); [done|]. by rewrite IH.
Qed.

Lemma noByte_app (c : ascii) (a b : string) :
  noByte c (a +:+ b) = noByte c a && noByte c b.
Proof.
  induction a as [|d a IH]; [by rewrite append_nil_l|].
  rewrite append_cons. cbn [noByte]. rewrite IH. by rewrite andb_assoc.
Qed.

Lemma trimRightSpace_cons (c : ascii) (s : string) :
  isSpace c = false → ∃ t, trimRightSpace (String c s) = String c t.
Proof.
  intros Hc. cbn [trimRightSpace]. rewrite Hc.
  destruct (trimRightSpace s); eauto.
Qed.

Lemma trimRightSpace_end (s : string) (c : ascii) :
  isSpace c = false →
  trimRightSpace (s +:+ String c EmptyString) = s +:+ String c EmptyString.
Proof.
  intros Hc. induction s as [|d s IH].
  - rewrite append_nil_l. cbn. by rewrite Hc.
  - rewrite append_cons. cbn [trimRightSpace]. rewrite IH.
    destruct s; by rewrite ?append_nil_l, ?append_cons.
Qed.

Lemma TrimRight1_end (s : string) (c : ascii) :
  noByte c s = true → TrimRight1 (s +:+ String c EmptyString) c = s.
Proof.
  induction s as [|d s IH]; intros Hs.
  - rewrite append_nil_l. cbn. by rewrite Ascii.eqb_refl.
  - rewrite append_cons. cbn [TrimRight1 noByte] in *.
    apply andb_true_iff in Hs as [Hd Hs]. rewrite IH by done.
    destruct s; [|done]. apply negb_true_iff in Hd. by rewrite Hd.
Qed.

Lemma TrimLeft1_noByte (s : string) (c : ascii) (t : string) :
  noByte c s = true → s ≠ EmptyString → TrimLeft1 (s +:+ t) c = s +:+ t.
Proof.
  destruct s as [|d s]; [done|]. intros Hs _.
  rewrite append_cons. cbn [TrimLeft1 noByte] in *.
  apply andb_true_iff in Hs as [Hd _]. apply negb_true_iff in Hd. by rewrite Hd.
Qed.

Lemma Trim1_quoted (s : string) :
  noByte Rtsp.dquote s = true →
  Trim1 (Rtsp.dq +:+ s +:+ Rtsp.dq) Rtsp.dquote = s.
Proof.
  intros Hs. unfold Trim1, Rtsp.dq.
  rewrite append_cons, append_nil_l. cbn [TrimLeft1]. rewrite Ascii.eqb_refl.
  destruct s as [|d s].
  - rewrite append_nil_l. cbn. done.
  - rewrite TrimLeft1_noByte by done. by apply TrimRight1_end.
Qed.

(** X14: in a Digest challenge the parameter that follows the scheme name
    is never read.  For a header Digest <first>, nonce="<n>", whatever
    the first parameter is (the realm, in the usual order), ASCII
    [parseAuthHeader] takes the nonce and leaves the realm of the client
    as it was. *)
Theorem parseAuthHeader_digest_skips_first_parameter
    (c : Rtsp.Client) (first nonce : string) :
  noByte "," first = true →
  noByte "," nonce = true → noByte Rtsp.dquote nonce = true →
  Rtsp.parseAuthHeader c
    ("Digest " +:+ first +:+ ", nonce=" +:+ Rtsp.dq +:+ nonce +:+ Rtsp.dq)
  = Rtsp.setAuth c "Digest" (Rtsp.realm c) nonce.
Proof.
  intros Hfirst Hcomma Hquote.
  unfold Rtsp.parseAuthHeader.
  assert (HasPrefix ("Digest " +:+ first +:+ ", nonce=" +:+ Rtsp.dq +:+ nonce +:+ Rtsp.dq) "Basic" = false) as ->.
  { autorewrite with app_norm. reflexivity. }
  assert (HasPrefix ("Digest " +:+ first +:+ ", nonce=" +:+ Rtsp.dq +:+ nonce +:+ Rtsp.dq) "Digest" = true) as ->.
  { autorewrite with app_norm. reflexivity. }
  replace ("Digest " +:+ first +:+ ", nonce=" +:+ Rtsp.dq +:+ nonce +:+ Rtsp.dq)
    with (("Digest " +:+ first) +:+ String "," (" nonce=" +:+ Rtsp.dq +:+ nonce +:+ Rtsp.dq))
    by (autorewrite with app_norm; rewrite ?append_assoc; by autorewrite with app_norm).
  rewrite Split_app_sep
    by (rewrite noByte_app; apply andb_true_iff; split; [reflexivity|done]).
  rewrite Split_no_sep.
  2:{ rewrite !noByte_app. unfold Rtsp.dq. cbn [noByte].
      rewrite Hcomma. reflexivity. }
  cbn [Rtsp.parseDigestParts].
  (* the first part *)
  assert (∃ t, TrimSpace ("Digest " +:+ first) = String "D" t) as [t ->].
  { autorewrite with app_norm. cbn [TrimSpace ascii_text trimLeftSpace].
    change (isSpace "D") with false. cbn iota.
    by apply trimRightSpace_cons. }
  change (HasPrefix (String "D" t) "realm=") with false.
  change (HasPrefix (String "D" t) "nonce=") with false.
  cbn iota.
  (* the second part *)
  assert (TrimSpace (" nonce=" +:+ Rtsp.dq +:+ nonce +:+ Rtsp.dq)
          = "nonce=" +:+ Rtsp.dq +:+ nonce +:+ Rtsp.dq) as ->.
  { cbn [TrimSpace ascii_text].
    replace (" nonce=" +:+ Rtsp.dq +:+ nonce +:+ Rtsp.dq)
      with (String " " ("nonce=" +:+ Rtsp.dq +:+ nonce +:+ Rtsp.dq))
      by (by autorewrite with app_norm).
    cbn [trimLeftSpace]. change (isSpace " ") with true. cbn iota.
    autorewrite with app_norm. cbn [trimLeftSpace].
    change (isSpace "n") with false. cbn iota.
    replace (String "n" (String "o" (String "n" (String "c" (String "e" (String "=" (Rtsp.dq +:+ nonce +:+ Rtsp.dq)))))))
      with (("nonce=" +:+ Rtsp.dq +:+ nonce) +:+ String Rtsp.dquote EmptyString)
      by (unfold Rtsp.dq; rewrite !append_assoc; by autorewrite with app_norm).
    by rewrite trimRightSpace_end. }
  autorewrite with app_norm.
  unfold HasPrefix. cbn [String.prefix]. cbn.
  destruct (Rtsp.dq +:+ nonce +:+ Rtsp.dq) eqn:Hq.
  { unfold Rtsp.dq in Hq. rewrite append_cons in Hq. discriminate. }
  cbn [String.prefix slice_from default]. cbn iota.
  change (TrimRight1 (TrimLeft1 (id (String a s)) Rtsp.dquote) Rtsp.dquote)
    with (Trim1 (String a s) Rtsp.dquote).
  rewrite <- Hq. by rewrite Trim1_quoted.
Qed.

(** The statement on the challenge of the comment in the source,
    realm first: the realm stays empty. *)
Lemma parseAuthHeader_digest_skips_first_parameter_witness :
  Rtsp.parseAuthHeader waiting_client
    ("Digest " +:+ ("realm=" +:+ Rtsp.dq +:+ "IP Camera(12345)" +:+ Rtsp.dq)
     +:+ ", nonce=" +:+ Rtsp.dq +:+ "abc123" +:+ Rtsp.dq)
  = Rtsp.setAuth waiting_client "Digest" (Rtsp.realm waiting_client) "abc123".
Proof.
  apply (parseAuthHeader_digest_skips_first_parameter waiting_client
           ("realm=" +:+ Rtsp.dq +:+ "IP Camera(12345)" +:+ Rtsp.dq) "abc123");
    reflexivity.
Defined.

Lemma ReadString_split (input line rest : string) :
  ReadString input = Some (line, rest) → input = line +:+ rest.
Proof.
  revert line. induction input as [|c input IH]; intros line Hread; [done|].
  cbn [ReadString] in Hread. destruct (Ascii.eqb c LF).
  - injection Hread as <- <-. by rewrite append_cons, append_nil_l.
  - destruct (ReadString input) as [[l r]|]; [|done]. cbn in Hread.
    injection Hread as <- <-. rewrite append_cons. f_equal. by apply IH.
Qed.

Lemma ReadFull_split (n : nat) :
  ∀ input body rest,
    ReadFull input n = Some (body, rest) →
    input = body +:+ rest ∧ String.length body = n.
Proof.
  induction n as [|n IH]; intros input body rest Hread.
  - destruct input; injection Hread as <- <-; by rewrite append_nil_l.
  - destruct input as [|c input]; [done|]. cbn [ReadFull] in Hread.
    destruct (ReadFull input n) as [[b r]|] eqn:Hrec; [|done]. cbn in Hread.
    injection Hread as <- <-. destruct (IH _ _ _ Hrec) as [-> <-].
    by rewrite append_cons.
Qed.

Lemma readHeaders_split `{Text} (input : string) :
  ∀ line headers headers' rest,
    Rtsp.readHeaders input line headers = Some (headers', rest) →
    ∃ consumed, input = consumed +:+ rest.
Proof.
  induction input as [|c input IH]; intros line headers headers' rest Hread;
    [done|].
  cbn [Rtsp.readHeaders] in Hread.
  assert (∀ l h, Rtsp.readHeaders input l h = Some (headers', rest) →
            ∃ consumed, String c input = consumed +:+ rest) as Hstep.
  { intros l h Hr. destruct (IH _ _ _ _ Hr) as [consumed ->].
    exists (String c consumed). by rewrite append_cons. }
  destruct (Ascii.eqb c LF); [|by eapply Hstep].
  case_bool_decide.
  - injection Hread as <- <-. exists (String c EmptyString).
    by rewrite append_cons, append_nil_l.
  - destruct (SplitN _ ":" 2) as [|k [|v [|? ?]]]; by eapply Hstep.
Qed.

(** X15: the body of a reply is framed by Content-Length.  When
    [readResponse] returns a response, its body is exactly the bytes that
    follow the blank line, as many as the Content-Length header announces
    (none when the header is missing, unreadable or not positive), and
    the reader is left right after them. *)
Theorem readResponse_frames_body `{Text}
    (input : string) (response : Rtsp.Response) (rest : string) :
  Rtsp.readResponse input = (Ok response, rest) →
  (∃ head, input = head +:+ Rtsp.Body response +:+ rest)
  ∧ match Rtsp.Headers response !! "Content-Length" ≫= Atoi with
    | Some n => len (Rtsp.Body response) = Z.max 0 n
    | None => Rtsp.Body response = EmptyString
    end.
Proof.
  unfold Rtsp.readResponse. intros Hread.
  destruct (ReadString input) as [[statusLine rest0]|] eqn:Hline; [|done].
  apply ReadString_split in Hline as ->.
  destruct (SplitN (TrimSpace statusLine) " " 3) as [|? [|code [|text [|? ?]]]];
    try discriminate.
  destruct (Atoi code) as [statusCode|]; [|discriminate].
  destruct (Rtsp.readHeaders rest0 EmptyString ∅) as [[headers rest1]|] eqn:Hh;
    [|discriminate].
  apply readHeaders_split in Hh as [consumed ->].
  assert (∀ r, r = (Ok {| Rtsp.StatusCode := statusCode; Rtsp.StatusText := text;
                           Rtsp.Headers := headers; Rtsp.Body := EmptyString |}, rest1) →
            r = (Ok response, rest) →
            (∃ head, statusLine +:+ consumed +:+ rest1
                     = head +:+ Rtsp.Body response +:+ rest)
            ∧ Rtsp.Body response = EmptyString ∧ Rtsp.Headers response = headers)
    as Hempty.
  { intros r -> [= <- <-]. cbn. split; [|done].
    exists (statusLine +:+ consumed). by rewrite append_nil_l, append_assoc. }
  destruct (headers !! "Content-Length") as [contentLengthStr|] eqn:Hcl.
  - destruct (Atoi contentLengthStr) as [contentLength|] eqn:Hn.
    + destruct (Z.ltb_spec 0 contentLength) as [Hpos|Hneg].
      * destruct (ReadFull rest1 (Z.to_nat contentLength)) as [[body rest2]|] eqn:Hb;
          [|discriminate].
        injection Hread as <- <-. cbn.
        apply ReadFull_split in Hb as [-> Hlen]. split.
        -- exists (statusLine +:+ consumed). by rewrite !append_assoc.
        -- rewrite Hcl. cbn. rewrite Hn. unfold len. lia.
      * destruct (Hempty _ eq_refl Hread) as (Hhead & Hbody & Hheaders).
        split; [done|]. rewrite Hbody, Hheaders, Hcl. cbn. rewrite Hn.
        unfold len. simpl. lia.
    + destruct (Hempty _ eq_refl Hread) as (Hhead & Hbody & Hheaders).
      split; [done|]. rewrite Hbody, Hheaders, Hcl. cbn. by rewrite Hn.
  - destruct (Hempty _ eq_refl Hread) as (Hhead & Hbody & Hheaders).
    split; [done|]. by rewrite Hbody, Hheaders, Hcl.
Qed.

(** The statement on a reply with a body of three bytes that is followed
    by a second reply. *)
Lemma readResponse_frames_body_witness :
  ∃ response rest,
    Rtsp.readResponse reply_with_body = (Ok response, rest)
    ∧ Rtsp.Body response = "v=0"
    ∧ rest = "RTSP/1.0 200 OK" +:+ CRLF +:+ CRLF
    ∧ (∃ head, reply_with_body = head +:+ Rtsp.Body response +:+ rest)
    ∧ match Rtsp.Headers response !! "Content-Length" ≫= Atoi with
      | Some n => len (Rtsp.Body response) = Z.max 0 n
      | None => Rtsp.Body response = EmptyString
      end.
Proof.
  eexists _, _. split; [reflexivity|]. split; [reflexivity|].
  split; [reflexivity|].
  apply (readResponse_frames_body reply_with_body). reflexivity.
Defined.

Lemma Split_head (s : string) (sep : ascii) :
  ∃ seg, head (Split s sep) = Some seg ∧ noByte sep seg = true
         ∧ (s = seg ∨ ∃ rest, s = seg +:+ String sep rest).
Proof.
  induction s as [|c s (seg & Hh & Hn & Hs)].
  - exists EmptyString. cbn. auto.
  - cbn [Split]. destruct (Ascii.eqb c sep) eqn:Hc.
    + apply Ascii.eqb_eq in Hc as ->. exists EmptyString. cbn. split; [done|].
      split; [done|]. right. exists s. by rewrite append_nil_l.
    + destruct (Split s sep) as [|h t]; [done|]. cbn in Hh. injection Hh as ->.
      exists (String c seg). cbn [head noByte]. rewrite Hc, Hn. split; [done|].
      split; [done|]. destruct Hs as [->|[rest ->]]; [by left|].
      right. exists rest. by rewrite append_cons.
Qed.

Lemma authLine_same (c c' : Rtsp.Client) (method path : string) :
  Rtsp.authMethod c' = Rtsp.authMethod c →
  Rtsp.username c' = Rtsp.username c → Rtsp.password c' = Rtsp.password c →
  Rtsp.realm c' = Rtsp.realm c → Rtsp.nonce c' = Rtsp.nonce c →
  Rtsp.authLine c' method path = Rtsp.authLine c method path.
Proof.
  intros Hm Hu Hp Hr Hn. unfold Rtsp.authLine, Rtsp.buildAuthHeader.
  by rewrite Hm, Hu, Hp, Hr, Hn.
Qed.

(** X28: the session of SETUP is the one PLAY names.  When the reply to
    SETUP carries a Session header, [Setup] keeps the text that precedes
    its first semicolon, trimmed of white space (so a timeout parameter
    is dropped), and a [Play] that follows writes it in a Session line
    between the CSeq and User-Agent lines, with the sequence number two
    above the one the client had before SETUP. *)
Theorem Setup_stores_session_for_Play `{Text}
    (c : Rtsp.Client) (transport : string) (response : Rtsp.Response)
    (header : string) :
  (Rtsp.readResponse (Rtsp.reader c)).1 = Ok response →
  Rtsp.Headers response !! "Session" = Some header →
  let c1 := (Rtsp.Setup c transport).1 in
  ∃ id,
    noByte ";" id = true
    ∧ (header = id ∨ ∃ params, header = id +:+ ";" +:+ params)
    ∧ Rtsp.sessionID c1 = TrimSpace id
    ∧ (TrimSpace id ≠ EmptyString →
       last (Rtsp.sent (Rtsp.Play c1).1)
       = Some ("PLAY " +:+ Rtsp.requestPath c +:+ " RTSP/1.0" +:+ CRLF +:+
               "CSeq: " +:+ Fmt.itoa (Rtsp.cseq c + 2) +:+ CRLF +:+
               "Session: " +:+ TrimSpace id +:+ CRLF +:+
               "User-Agent: Local-video-server/1.0" +:+ CRLF +:+
               Rtsp.authLine c "PLAY" (Rtsp.requestPath c) +:+ CRLF)).
Proof.
  intros Hfirst Hheader c1.
  destruct (Split_head header ";") as (id & Hhead & Hno & Hsplit).
  exists id. split; [exact Hno|]. split.
  { destruct Hsplit as [->|[rest ->]]; [by left|right]. exists rest.
    by autorewrite with app_norm. }
  assert (Rtsp.sessionID c1 = TrimSpace id
          ∧ Rtsp.cseq c1 = Rtsp.cseq c + 1
          ∧ Rtsp.url c1 = Rtsp.url c
          ∧ Rtsp.authMethod c1 = Rtsp.authMethod c
          ∧ Rtsp.username c1 = Rtsp.username c
          ∧ Rtsp.password c1 = Rtsp.password c
          ∧ Rtsp.realm c1 = Rtsp.realm c ∧ Rtsp.nonce c1 = Rtsp.nonce c)
    as (Hid & Hcseq & Hurl & Hm & Hu & Hp & Hr & Hn).
  { subst c1. unfold Rtsp.Setup, Rtsp.sendRequest. cbn [Rtsp.reader].
    destruct (Rtsp.readResponse (Rtsp.reader c)) as [r rest].
    cbn [fst] in Hfirst. subst r. rewrite Hheader, Hhead. cbn. done. }
  clearbody c1. split; [exact Hid|]. intros Hne.
  unfold Rtsp.Play. rewrite Hid.
  rewrite (bool_decide_eq_false_2 (TrimSpace id = EmptyString)) by done.
  cbn [negb]. unfold Rtsp.sendRequest. cbn [Rtsp.reader].
  destruct (Rtsp.readResponse (Rtsp.reader c1)) as [r2 rest2].
  cbn [fst Rtsp.sent].
  rewrite last_snoc. f_equal. rewrite requestText_lines.
  cbn [Rtsp.cseq Rtsp.headerLines].
  assert (Rtsp.requestPath c1 = Rtsp.requestPath c) as ->
    by (unfold Rtsp.requestPath; by rewrite Hurl).
  rewrite Hcseq, <- Z.add_assoc. change (1 + 1) with 2.
  rewrite (authLine_same c); [|cbn; congruence..].
  generalize (Rtsp.authLine c "PLAY" (Rtsp.requestPath c)). intros a.
  generalize (TrimSpace id) (Fmt.itoa (Rtsp.cseq c + 2)) (Rtsp.requestPath c).
  intros i n p. cbv -[String.append].
  repeat (progress (rewrite ?append_assoc; autorewrite with app_norm)).
  done.
Qed.

(** The statement on the reply Session: 123456; timeout=60. *)
Lemma Setup_stores_session_for_Play_witness :
  ∃ id,
    noByte ";" id = true
    ∧ ("123456; timeout=60" = id ∨ ∃ params, "123456; timeout=60" = id +:+ ";" +:+ params)
    ∧ Rtsp.sessionID (Rtsp.Setup setup_client "RTP/AVP;unicast").1 = TrimSpace id
    ∧ (TrimSpace id ≠ EmptyString →
       last (Rtsp.sent (Rtsp.Play (Rtsp.Setup setup_client "RTP/AVP;unicast").1).1)
       = Some ("PLAY " +:+ Rtsp.requestPath setup_client +:+ " RTSP/1.0" +:+ CRLF +:+
               "CSeq: " +:+ Fmt.itoa (Rtsp.cseq setup_client + 2) +:+ CRLF +:+
               "Session: " +:+ TrimSpace id +:+ CRLF +:+
               "User-Agent: Local-video-server/1.0" +:+ CRLF +:+
               Rtsp.authLine setup_client "PLAY" (Rtsp.requestPath setup_client)
               +:+ CRLF)).
Proof.
  apply (Setup_stores_session_for_Play setup_client "RTP/AVP;unicast"
           session_granted "123456; timeout=60").
  - vm_compute. reflexivity.
  - reflexivity.
Defined.

Example session_id_of_the_comment :
  Rtsp.sessionID (Rtsp.Setup setup_client "RTP/AVP;unicast").1 = "123456".
Proof. vm_compute. reflexivity. Qed.




(* --------------------------------------------------------------------- *)
(** ** internal/rtsp/parser.go: what ParseSDP reports                    *)
(* --------------------------------------------------------------------- *)

Lemma update_Some {A : Type} (l l' : list A) (i : Z) (f : A → A) :
  Sdp.update l i f = Some l' → l' = alter f (Z.to_nat i) l ∧ l ≠ [].
Proof.
  unfold Sdp.update. destruct (Z.leb_spec 0 i); [|done].
  destruct (Z.ltb_spec i (Z.of_nat (length l))); [|done].
  intros [= <-]. split; [done|]. destruct l; [simpl in *; lia|done].
Qed.

Lemma alter_nil_inv {A : Type} (f : A → A) (i : nat) (l : list A) :
  alter f i l = [] → l = [].
Proof. intros Hl. apply (f_equal length) in Hl. rewrite length_alter in Hl. by destruct l. Qed.

Ltac sdp_update :=
  repeat match goal with
  | H : Sdp.update _ _ _ = Some _ |- _ => apply update_Some in H as [-> ?]
  end.

Ltac sdp_inv :=
  match goal with
  | Hinv : sdpInv _ |- sdpInv _ =>
      try exact Hinv;
      sdp_update;
      destruct Hinv as (? & ? & ? & ? & ? & ? & ? & ?);
      unfold sdpInv; cbn;
      repeat match goal with |- _ ∧ _ => split end;
      try done;
      try (intros Hnil; apply alter_nil_inv in Hnil; done);
      try (by apply Forall_alter)
  end.

Section SdpInvariant.
Context `{Text}.
Variable ParseFloat : string → option float64.

Lemma attrRtpmap_inv attr media info info' :
  Sdp.attrRtpmap attr media info = Some info' → sdpInv info → sdpInv info'.
Proof.
  unfold Sdp.attrRtpmap. intros Hstep Hinv.
  repeat (case_match; simplify_option_eq); sdp_inv.
Qed.

Lemma parseFmtpPair_inv param media info info' :
  Sdp.parseFmtpPair param media info = Some info' → sdpInv info → sdpInv info'.
Proof.
  unfold Sdp.parseFmtpPair, Sdp.extractResolutionFromSPS. intros Hstep Hinv.
  repeat (case_match; simplify_option_eq); sdp_inv.
Qed.

Lemma parseFmtpPairs_inv paramPairs media :
  ∀ info info',
    Sdp.parseFmtpPairs paramPairs media info = Some info' →
    sdpInv info → sdpInv info'.
Proof.
  induction paramPairs as [|param rest IH]; intros info info' Hstep Hinv.
  - by injection Hstep as <-.
  - cbn [Sdp.parseFmtpPairs] in Hstep.
    destruct (Sdp.parseFmtpPair param media info) as [info1|] eqn:H1;
      [|discriminate].
    eapply IH; [exact Hstep|]. by eapply parseFmtpPair_inv.
Qed.

Lemma attrFmtp_inv attr media info info' :
  Sdp.attrFmtp attr media info = Some info' → sdpInv info → sdpInv info'.
Proof.
  unfold Sdp.attrFmtp, Sdp.parseFmtpParams. intros Hstep Hinv.
  repeat (case_match; simplify_option_eq); try sdp_inv;
    by eapply parseFmtpPairs_inv.
Qed.

Lemma attrFramerate_inv attr media info info' :
  Sdp.attrFramerate ParseFloat attr media info = Some info' →
  sdpInv info → sdpInv info'.
Proof.
  unfold Sdp.attrFramerate. intros Hstep Hinv.
  repeat (case_match; simplify_option_eq); sdp_inv.
Qed.

Lemma attrDimensions_inv attr media info info' :
  Sdp.attrDimensions attr media info = Some info' → sdpInv info → sdpInv info'.
Proof.
  unfold Sdp.attrDimensions. intros Hstep Hinv.
  repeat (case_match; simplify_option_eq); sdp_inv.
Qed.

Lemma attrSprop_inv attr media info info' :
  Sdp.attrSprop attr media info = Some info' → sdpInv info → sdpInv info'.
Proof.
  unfold Sdp.attrSprop, Sdp.extractResolutionFromSPS. intros Hstep Hinv.
  repeat (case_match; simplify_option_eq); sdp_inv.
Qed.

Lemma parseAttribute_inv line media info info' :
  Sdp.parseAttribute ParseFloat line media info = Some info' →
  sdpInv info → sdpInv info'.
Proof.
  unfold Sdp.parseAttribute. intros Hstep Hinv.
  destruct (slice_from line 2) as [attr|]; [|discriminate]. cbn in Hstep.
  destruct (Sdp.attrRtpmap attr media info) as [i1|] eqn:H1; [|discriminate].
  cbn in Hstep.
  destruct (Sdp.attrFmtp attr media i1) as [i2|] eqn:H2; [|discriminate].
  cbn in Hstep.
  destruct (Sdp.attrFramerate ParseFloat attr media i2) as [i3|] eqn:H3;
    [|discriminate].
  cbn in Hstep.
  destruct (Sdp.attrDimensions attr media i3) as [i4|] eqn:H4; [|discriminate].
  cbn in Hstep.
  eapply attrSprop_inv; [exact Hstep|].
  eapply attrDimensions_inv; [exact H4|].
  eapply attrFramerate_inv; [exact H3|].
  eapply attrFmtp_inv; [exact H2|].
  by eapply attrRtpmap_inv.
Qed.

Lemma parseLine_inv line st st' :
  Sdp.parseLine ParseFloat line st = Some st' → sdpInv st.1 → sdpInv st'.1.
Proof.
  unfold Sdp.parseLine. destruct st as [info currentMedia]. intros Hstep Hinv.
  cbn [fst] in Hinv.
  repeat (case_match; simplify_option_eq); cbn [fst]; try done;
    try (by eapply parseAttribute_inv);
    destruct Hinv as (? & ? & ? & ? & ? & ? & ? & ?);
    unfold sdpInv; cbn; repeat split; try done;
    try (intros Hnil; by apply app_eq_nil in Hnil as [_ ?]);
    try (apply Forall_app; split; [done|]; by apply Forall_singleton);
    try (exfalso;
         match goal with
         | Hn : _ ++ [_] = [] |- _ => by apply app_eq_nil in Hn as [_ ?]
         end);
    naive_solver.
Qed.

Lemma parseLines_inv lines :
  ∀ st st', Sdp.parseLines ParseFloat lines st = Some st' →
            sdpInv st.1 → sdpInv st'.1.
Proof.
  induction lines as [|line rest IH]; intros st st' Hstep Hinv.
  - by injection Hstep as <-.
  - cbn [Sdp.parseLines] in Hstep.
    destruct (Sdp.parseLine ParseFloat line st) as [st1|] eqn:H1; [|discriminate].
    eapply IH; [exact Hstep|]. by eapply parseLine_inv.
Qed.

Lemma emptyInfo_inv : sdpInv Sdp.emptyInfo.
Proof. unfold sdpInv. cbn. repeat split; done. Qed.

Lemma ParseSDP_result (sdp : string) :
  ∃ info0 media info,
    Sdp.parseLines ParseFloat (Split sdp LF) (Sdp.emptyInfo, None)
    = Some (info0, media)
    ∧ Sdp.summarize info0 = Some info
    ∧ Sdp.ParseSDP ParseFloat sdp = Some (Ok info)
    ∧ sdpInv info0.
Proof.
  unfold Sdp.ParseSDP.
  destruct (parseLines_total ParseFloat (Split sdp LF) (Sdp.emptyInfo, None))
    as [[info0 media] Hlines].
  destruct (summarize_total info0) as [info Hsum].
  exists info0, media, info. rewrite Hlines. cbn. rewrite Hsum. cbn.
  split; [done|]. split; [done|]. split; [done|].
  apply (parseLines_inv _ _ _ Hlines). apply emptyInfo_inv.
Qed.

End SdpInvariant.

Lemma lenOf_nil {A : Type} : (0 <? Sdp.lenOf (@nil A)) = false.
Proof. reflexivity. Qed.

Lemma lenOf_cons {A : Type} (x : A) (l : list A) :
  (0 <? Sdp.lenOf (x :: l)) = true ∧ Sdp.index (x :: l) 0 = Some x.
Proof. split; [|done]. apply Z.ltb_lt. unfold Sdp.lenOf. simpl. lia. Qed.

Lemma summarize_fields (info0 info : Sdp.StreamInfo) :
  Sdp.summarize info0 = Some info →
  sdpInv info0 →
  Sdp.VideoTracks info = Sdp.VideoTracks info0
  ∧ Sdp.AudioTracks info = Sdp.AudioTracks info0
  ∧ Sdp.URL info = EmptyString ∧ Sdp.Available info = false
  ∧ Sdp.Codec info = Sdp.vt_Codec (firstVideo info)
  ∧ Sdp.Resolution info = Sdp.vt_Resolution (firstVideo info)
  ∧ Sdp.FPS info = Sdp.vt_FPS (firstVideo info)
  ∧ Sdp.Bitrate info = 0
  ∧ Sdp.AudioCodec info = Sdp.at_Codec (firstAudio info)
  ∧ Sdp.Channels info = 0.
Proof.
  unfold Sdp.summarize, firstVideo, firstAudio.
  intros Hsum (HU & HA & HB & HC & HV & HAu & HFv & HFa).
  destruct (Sdp.VideoTracks info0) as [|v vs] eqn:Hv;
    destruct (Sdp.AudioTracks info0) as [|a as_] eqn:Ha;
    rewrite ?lenOf_nil, ?(proj1 (lenOf_cons _ _)), ?(proj2 (lenOf_cons _ _)) in Hsum;
    cbn in Hsum; rewrite ?Hv, ?Ha in Hsum;
    rewrite ?lenOf_nil, ?(proj1 (lenOf_cons _ _)), ?(proj2 (lenOf_cons _ _)) in Hsum;
    cbn in Hsum; injection Hsum as <-; cbn; rewrite ?Hv, ?Ha; cbn.
  - destruct (HV eq_refl) as (-> & -> & ->). rewrite (HAu eq_refl). done.
  - destruct (HV eq_refl) as (-> & -> & ->).
    apply Forall_cons in HFa as [(-> & _) _]. done.
  - apply Forall_cons in HFv as [-> _]. rewrite (HAu eq_refl). done.
  - apply Forall_cons in HFv as [-> _].
    apply Forall_cons in HFa as [(-> & _) _]. done.
Qed.

(** X17: the primary fields [ParseSDP] reports are those of the first
    tracks.  For every input, codec, resolution and frame rate of the
    result are those of its first video track and the audio codec is that
    of its first audio track, whatever later tracks declare; without a
    video (audio) track they are empty or zero. *)
Theorem ParseSDP_reports_first_tracks `{Text}
    (ParseFloat : string → option float64) (sdp : string) :
  ∃ info,
    Sdp.ParseSDP ParseFloat sdp = Some (Ok info)
    ∧ Sdp.Codec info = Sdp.vt_Codec (firstVideo info)
    ∧ Sdp.Resolution info = Sdp.vt_Resolution (firstVideo info)
    ∧ Sdp.FPS info = Sdp.vt_FPS (firstVideo info)
    ∧ Sdp.AudioCodec info = Sdp.at_Codec (firstAudio info).
Proof.
  destruct (ParseSDP_result ParseFloat sdp)
    as (info0 & media & info & _ & Hsum & Hparse & Hinv).
  destruct (summarize_fields _ _ Hsum Hinv)
    as (_ & _ & _ & _ & ? & ? & ? & _ & ? & _).
  by exists info.
Qed.

(** X18: [ParseSDP] never reports a bitrate, a channel count or a sample
    rate.  For every input the result has bitrate 0 and 0 channels, an
    empty URL and is not marked available, and every track it lists has
    bitrate 0 (audio tracks also 0 channels and sample rate 0). *)
Theorem ParseSDP_never_reports_bitrate_or_channels `{Text}
    (ParseFloat : string → option float64) (sdp : string) :
  ∃ info,
    Sdp.ParseSDP ParseFloat sdp = Some (Ok info)
    ∧ Sdp.Bitrate info = 0 ∧ Sdp.Channels info = 0
    ∧ Sdp.URL info = EmptyString ∧ Sdp.Available info = false
    ∧ Forall videoUnmeasured (Sdp.VideoTracks info)
    ∧ Forall audioUnmeasured (Sdp.AudioTracks info).
Proof.
  destruct (ParseSDP_result ParseFloat sdp)
    as (info0 & media & info & _ & Hsum & Hparse & Hinv).
  destruct (summarize_fields _ _ Hsum Hinv)
    as (Hv & Ha & ? & ? & _ & _ & _ & ? & _ & ?).
  exists info. rewrite Hv, Ha.
  destruct Hinv as (_ & _ & _ & _ & _ & _ & ? & ?). done.
Qed.

Lemma prefix_app_l (a b s : string) :
  String.prefix (a +:+ b) s = true → String.prefix a s = true.
Proof.
  revert s. induction a as [|c a IH]; intros s; [by destruct s|].
  rewrite append_cons. destruct s as [|d s]; [done|]. cbn [String.prefix].
  destruct (ascii_dec c d); [apply IH|done].
Qed.

Lemma Contains_shorter (s a b : string) :
  Contains s (a +:+ b) = true → Contains s a = true.
Proof.
  induction s as [|c s IH]; cbn [Contains]; intros Hc.
  - apply orb_true_iff in Hc as [Hc|?]; [|done].
    by rewrite (prefix_app_l a b).
  - apply orb_true_iff in Hc as [Hc|Hc].
    + by rewrite (prefix_app_l a b).
    + rewrite IH by done. by rewrite orb_true_r.
Qed.

(** X19: the G.711 case of [normalizeAudioCodec] is never taken.  The
    function returns G.711 only for a codec name that reads G.711 itself
    once upper-cased; PCMU and PCMA, which the G.711 case tests for, are
    caught by the PCM case before it. *)
Theorem normalizeAudioCodec_never_maps_to_G711 `{Text} (codec : string) :
  Sdp.normalizeAudioCodec codec = "G.711" → ToUpper codec = "G.711".
Proof.
  unfold Sdp.normalizeAudioCodec.
  destruct (Contains (ToUpper codec) "AAC"); [discriminate|].
  destruct (Contains (ToUpper codec) "PCM") eqn:Hpcm; [discriminate|].
  destruct (Contains (ToUpper codec) "PCMU") eqn:Hu.
  { apply (Contains_shorter _ "PCM" "U") in Hu. congruence. }
  destruct (Contains (ToUpper codec) "PCMA") eqn:Ha.
  { apply (Contains_shorter _ "PCM" "A") in Ha. congruence. }
  cbn. destruct (Contains (ToUpper codec) "G722"); [discriminate|done].
Qed.

(** The statement at g.711, next to what PCMU and PCMA map to. *)
Lemma normalizeAudioCodec_never_maps_to_G711_witness :
  ToUpper "g.711" = "G.711"
  ∧ Sdp.normalizeAudioCodec "PCMU" = "PCM"
  ∧ Sdp.normalizeAudioCodec "PCMA" = "PCM".
Proof.
  split; [|split; reflexivity].
  apply (normalizeAudioCodec_never_maps_to_G711 "g.711"). reflexivity.
Defined.

Lemma upperByte_idem (c : ascii) : upperByte (upperByte c) = upperByte c.
Proof. by destruct c as [[] [] [] [] [] [] [] []]. Qed.

Lemma ToUpper_idem (s : string) : ToUpper (ToUpper s) = ToUpper s.
Proof.
  cbn [ToUpper ascii_text]. induction s as [|c s IH]; [done|].
  cbn [mapBytes]. by rewrite upperByte_idem, IH.
Qed.

(** X20: the codec names the parser reports are stable.  On ASCII names,
    normalising a normalised video or audio codec name gives it back. *)
Theorem normalizeCodec_idempotent (codec : string) :
  Sdp.normalizeCodec (Sdp.normalizeCodec codec) = Sdp.normalizeCodec codec
  ∧ Sdp.normalizeAudioCodec (Sdp.normalizeAudioCodec codec)
    = Sdp.normalizeAudioCodec codec.
Proof.
  split.
  - unfold Sdp.normalizeCodec at 2 3. set (u := ToUpper codec).
    destruct (Contains u "H264" || Contains u "H.264"
              || bool_decide (u = "AVC")) eqn:H1; [reflexivity|].
    destruct (Contains u "H265" || Contains u "H.265"
              || bool_decide (u = "HEVC")) eqn:H2; [reflexivity|].
    destruct (Contains u "MJPEG" || Contains u "JPEG") eqn:H3; [reflexivity|].
    destruct (Contains u "MPEG4" || Contains u "MPEG-4") eqn:H4; [reflexivity|].
    unfold Sdp.normalizeCodec. subst u. by rewrite ToUpper_idem, H1, H2, H3, H4.
  - unfold Sdp.normalizeAudioCodec at 2 3. set (u := ToUpper codec).
    destruct (Contains u "AAC") eqn:H1; [reflexivity|].
    destruct (Contains u "PCM") eqn:H2; [reflexivity|].
    destruct (Contains u "PCMU" || Contains u "PCMA") eqn:H3; [reflexivity|].
    destruct (Contains u "G722") eqn:H4; [reflexivity|].
    unfold Sdp.normalizeAudioCodec. subst u.
    by rewrite ToUpper_idem, H1, H2, H3, H4.
Qed.


(* --------------------------------------------------------------------- *)
(** ** internal/scanner/detector.go: merging reports                     *)
(* --------------------------------------------------------------------- *)

Lemma string_of_uint_no_colon (d : Decimal.uint) :
  noByte ":" (NilEmpty.string_of_uint d) = true.
Proof. induction d; cbn; done. Qed.

Lemma itoa_no_colon (n : Z) : noByte ":" (Fmt.itoa n) = true.
Proof.
  unfold Fmt.itoa, NilZero.string_of_int.
  destruct (Z.to_int n) as [d|d]; unfold NilZero.string_of_uint;
    destruct d; cbn; try done; apply string_of_uint_no_colon.
Qed.

Lemma itoa_inj (n m : Z) : Fmt.itoa n = Fmt.itoa m → n = m.
Proof.
  unfold Fmt.itoa. intros Heq.
  assert (∀ z, NilZero.int_of_string (NilZero.string_of_int (Z.to_int z))
               = Some (Z.to_int z)) as Hback.
  { intros z. apply NilZero.isi; destruct z; cbn; try discriminate;
      intros [= Hnil]; by apply DecimalPos.Unsigned.to_uint_nonnil in Hnil. }
  pose proof (Hback n) as Hn. rewrite Heq, Hback in Hn.
  injection Hn as Hn.
  by rewrite <- (DecimalZ.of_to n), <- (DecimalZ.of_to m), Hn.
Qed.

Lemma append_sep_inj (c : ascii) (a : string) :
  ∀ a' b b',
    noByte c b = true → noByte c b' = true →
    a +:+ String c b = a' +:+ String c b' → a = a' ∧ b = b'.
Proof.
  induction a as [|x a IH]; intros a' b b' Hb Hb' Heq.
  - rewrite append_nil_l in Heq. destruct a' as [|y a'].
    + rewrite append_nil_l in Heq. by injection Heq as ->.
    + rewrite append_cons in Heq. injection Heq as <- ->.
      rewrite noByte_app in Hb. cbn in Hb. rewrite Ascii.eqb_refl in Hb.
      by destruct (noByte c a').
  - rewrite append_cons in Heq. destruct a' as [|y a'].
    + rewrite append_nil_l in Heq. injection Heq as -> <-.
      rewrite noByte_app in Hb'. cbn in Hb'. rewrite Ascii.eqb_refl in Hb'.
      by destruct (noByte c a).
    + rewrite append_cons in Heq. injection Heq as -> Heq.
      destruct (IH _ _ _ Hb Hb' Heq) as [-> ->]. done.
Qed.

Lemma protocolKey_text (p : Models.Protocol) :
  Detector.protocolKey p
  = Models.Type_ p +:+ String ":" (Fmt.itoa (Models.Port p)).
Proof.
  unfold Detector.protocolKey. cbn -[String.append Fmt.itoa].
  by autorewrite with app_norm.
Qed.

(** The key of the merge identifies the pair (tag, port). *)
Lemma protocolKey_endpoint (p q : Models.Protocol) :
  Detector.protocolKey p = Detector.protocolKey q ↔ endpoint p = endpoint q.
Proof.
  rewrite !protocolKey_text. unfold endpoint. split.
  - intros Heq.
    apply append_sep_inj in Heq as [-> Hport]; try apply itoa_no_colon.
    by apply itoa_inj in Hport as ->.
  - by intros [= -> ->].
Qed.

Lemma NoDup_fmap_filter {A B : Type} (f : A → B) (P : A → bool) (l : list A) :
  NoDup (f <$> l) → NoDup (f <$> List.filter P l).
Proof.
  induction l as [|x l IH]; [done|]. cbn [fmap list_fmap List.filter].
  intros Hnd. apply NoDup_cons in Hnd as [Hx Hnd].
  destruct (P x); [|by apply IH]. cbn [fmap list_fmap]. apply NoDup_cons.
  split; [|by apply IH].
  intros Hin. apply Hx. apply list_elem_of_fmap in Hin as (y & -> & Hy).
  apply list_elem_of_fmap. exists y. split; [done|].
  apply list_elem_of_In, filter_In in Hy as [Hy _]. by apply list_elem_of_In.
Qed.

(** X21: merging keeps the pairs (tag, port) unique.  If no two protocol
    entries of the existing device share tag and port, and none of the
    new device do, then none of the merged device do. *)
Theorem mergeDevices_keeps_endpoints_unique
    (now : Time) (existing new : Models.Device) :
  NoDup (endpoint <$> Models.Protocols existing) →
  NoDup (endpoint <$> Models.Protocols new) →
  NoDup (endpoint <$> Models.Protocols (Detector.mergeDevices now existing new)).
Proof.
  intros He Hn. rewrite mergeDevices_Protocols, fmap_app.
  apply NoDup_app. split; [done|]. split; [|by apply NoDup_fmap_filter].
  intros x Hx Hx'.
  apply list_elem_of_fmap in Hx as (p & -> & Hp).
  apply list_elem_of_fmap in Hx' as (q & Heq & Hq).
  apply list_elem_of_In, filter_In in Hq as [_ Hmiss].
  unfold missingFrom in Hmiss. apply bool_decide_eq_true_1 in Hmiss.
  apply Hmiss. apply protocolKey_endpoint in Heq. rewrite <- Heq.
  unfold keys. apply list_elem_of_fmap. by exists p.
Qed.

(** The statement on the two reports of the camera 10.0.0.5. *)
Lemma mergeDevices_keeps_endpoints_unique_witness :
  NoDup (endpoint <$> Models.Protocols (Detector.mergeDevices 30 swept announced)).
Proof.
  apply (mergeDevices_keeps_endpoints_unique 30 swept announced).
  - apply NoDup_singleton.
  - apply NoDup_singleton.
Defined.

Lemma fillIfEmpty_twice (a b : string) :
  Detector.fillIfEmpty (Detector.fillIfEmpty a b) b = Detector.fillIfEmpty a b.
Proof.
  unfold Detector.fillIfEmpty.
  repeat (case_bool_decide; simpl; subst; try done).
Qed.

(** X22: a report merged a second time adds nothing.  Merging the same
    new device again into the result of a merge gives what merging it
    once (at the later instant) gives: no protocol entry is duplicated
    and no attribute changes. *)
Theorem mergeDevices_repeated_report
    (t1 t2 : Time) (existing new : Models.Device) :
  Detector.mergeDevices t2 (Detector.mergeDevices t1 existing new) new
  = Detector.mergeDevices t2 existing new.
Proof.
  assert (Models.Protocols
            (Detector.mergeDevices t2 (Detector.mergeDevices t1 existing new) new)
          = Models.Protocols (Detector.mergeDevices t2 existing new)) as Hp.
  { rewrite !mergeDevices_Protocols.
    rewrite (filter_none (missingFrom (_ ++ _))); [by rewrite app_nil_r|].
    apply Forall_forall. intros q Hq. unfold missingFrom.
    apply bool_decide_eq_false_2. intros Hmiss. apply Hmiss.
    apply keys_merge. right. unfold keys. apply list_elem_of_fmap.
    by exists q. }
  unfold Detector.mergeDevices in *. cbn in *.
  rewrite Hp, !fillIfEmpty_twice. f_equal.
  by destruct (After (Models.DiscoveredAt new) (Models.DiscoveredAt existing)).
Qed.

Section ScanMerge.
Import Models.

Lemma mergedFrom_empty : mergedFrom ∅ [].
Proof.
  split.
  - intros k d Hk. by rewrite lookup_empty in Hk.
  - intros r Hr. by apply elem_of_nil in Hr.
Qed.

Lemma mergeDevice_mergedFrom (t : Time) (m : gmap string Device)
    (seen : list Device) (r : Device) :
  mergedFrom m seen → mergedFrom (Detector.mergeDevice t m (Some r)) (seen ++ [r]).
Proof.
  intros [Hm Hs]. cbn [Detector.mergeDevice].
  destruct (m !! IP r) as [e|] eqn:He.
  - destruct (Hm _ _ He) as (HIP & _ & Hpe).
    split.
    + intros k d Hk. destruct (decide (k = IP r)) as [->|Hne].
      * rewrite lookup_insert_eq in Hk. injection Hk as <-.
        split; [done|]. split; [exists r; set_solver|].
        intros p Hp. rewrite mergeDevices_Protocols in Hp.
        apply elem_of_app in Hp as [Hp|Hp].
        -- destruct (Hpe p Hp) as (r0 & ? & ? & ?). exists r0. set_solver.
        -- apply list_elem_of_In, filter_In in Hp as [Hp _].
           exists r. rewrite <- list_elem_of_In in Hp. set_solver.
      * rewrite lookup_insert_ne in Hk by done.
        destruct (Hm _ _ Hk) as (? & (r0 & ? & ?) & Hp).
        split; [done|]. split; [exists r0; set_solver|].
        intros p Hin. destruct (Hp p Hin) as (r1 & ? & ? & ?).
        exists r1. set_solver.
    + intros r0 Hr0. apply elem_of_app in Hr0 as [Hr0|Hr0].
      * destruct (Hs r0 Hr0) as (d & Hd & Hkeys).
        destruct (decide (IP r0 = IP r)) as [Heq|Hne].
        -- rewrite Heq, lookup_insert_eq. eexists. split; [done|].
           intros p Hp. rewrite mergeDevices_Protocols. apply keys_merge. left.
           rewrite Heq, He in Hd. injection Hd as <-. by apply Hkeys.
        -- rewrite lookup_insert_ne by done. eauto.
      * apply list_elem_of_singleton in Hr0 as ->.
        rewrite lookup_insert_eq. eexists. split; [done|].
        intros p Hp. rewrite mergeDevices_Protocols. apply keys_merge. right.
        unfold keys. apply list_elem_of_fmap. by exists p.
  - split.
    + intros k d Hk. destruct (decide (k = IP r)) as [->|Hne].
      * rewrite lookup_insert_eq in Hk. injection Hk as <-.
        split; [done|]. split; [exists r; set_solver|].
        intros p Hp. exists r. set_solver.
      * rewrite lookup_insert_ne in Hk by done.
        destruct (Hm _ _ Hk) as (? & (r0 & ? & ?) & Hp).
        split; [done|]. split; [exists r0; set_solver|].
        intros p Hin. destruct (Hp p Hin) as (r1 & ? & ? & ?).
        exists r1. set_solver.
    + intros r0 Hr0. apply elem_of_app in Hr0 as [Hr0|Hr0].
      * destruct (Hs r0 Hr0) as (d & Hd & Hkeys).
        destruct (decide (IP r0 = IP r)) as [Heq|Hne].
        -- rewrite Heq, He in Hd. discriminate.
        -- rewrite lookup_insert_ne by done. eauto.
      * apply list_elem_of_singleton in Hr0 as ->.
        rewrite lookup_insert_eq. eexists. split; [done|].
        intros p Hp. unfold keys. apply list_elem_of_fmap. by exists p.
Qed.

Lemma mergeAll_mergedFrom (now : nat → Time) (calls : list (option Device)) :
  ∀ (i : nat) (m : gmap string Device) (seen : list Device),
    mergedFrom m seen →
    mergedFrom (Detector.mergeAll now i calls m) (seen ++ omap id calls).
Proof.
  induction calls as [|[r|] calls IH]; intros i m seen Hm;
    cbn [Detector.mergeAll omap list_omap].
  - by rewrite app_nil_r.
  - cbn [id]. replace (seen ++ r :: omap id calls)
      with ((seen ++ [r]) ++ omap id calls) by (by rewrite <- app_assoc).
    apply IH. by apply mergeDevice_mergedFrom.
  - by apply IH.
Qed.

End ScanMerge.

(** X23: [Scan] returns one device per reported address.  Whatever the
    order in which the scanners hand in their devices, the result holds
    no two devices with the same IP, holds a device for exactly the
    addresses that were reported, every protocol entry of a returned
    device was reported for its address, and every reported entry is
    represented in the device of its address by an entry with the same
    tag and port. *)
Theorem Scan_one_device_per_address
    (now : nat → Time) (calls : list (option Models.Device)) :
  let devices := Detector.Scan now calls in
  NoDup (Models.IP <$> devices)
  ∧ (∀ ip, ip ∈ (Models.IP <$> devices)
           ↔ ∃ r, Some r ∈ calls ∧ Models.IP r = ip)
  ∧ (∀ d p, d ∈ devices → p ∈ Models.Protocols d →
       ∃ r, Some r ∈ calls ∧ Models.IP r = Models.IP d
            ∧ p ∈ Models.Protocols r)
  ∧ (∀ r p, Some r ∈ calls → p ∈ Models.Protocols r →
       ∃ d q, d ∈ devices ∧ Models.IP d = Models.IP r
              ∧ q ∈ Models.Protocols d ∧ endpoint q = endpoint p).
Proof.
  intros devices. subst devices. unfold Detector.Scan.
  pose proof (mergeAll_mergedFrom now calls 0 ∅ [] mergedFrom_empty) as [Hm Hs].
  rewrite app_nil_l in Hm, Hs.
  set (m := Detector.mergeAll now 0 calls ∅) in *.
  assert (∀ r, r ∈ omap id calls ↔ Some r ∈ calls) as Hcalls.
  { intros r. rewrite list_elem_of_omap. split.
    - by intros ([x|] & Hx & [= ->]).
    - intros Hr. by exists (Some r). }
  assert (∀ d, d ∈ (map_to_list m).*2 ↔ ∃ k, m !! k = Some d) as Hdev.
  { intros d. rewrite list_elem_of_fmap. split.
    - intros ([k d'] & -> & Hin). exists k. by apply elem_of_map_to_list.
    - intros [k Hk]. exists (k, d). split; [done|]. by apply elem_of_map_to_list. }
  assert (Models.IP <$> (map_to_list m).*2 = (map_to_list m).*1) as Hips.
  { rewrite <- list_fmap_compose. apply list_fmap_ext.
    intros i [k d] Hin. apply list_elem_of_lookup_2, elem_of_map_to_list in Hin.
    cbn. by destruct (Hm _ _ Hin) as [-> _]. }
  split; [rewrite Hips; apply NoDup_fst_map_to_list|].
  split; [|split].
  - intros ip. rewrite Hips, list_elem_of_fmap. split.
    + intros ([k d] & -> & Hin). apply elem_of_map_to_list in Hin.
      destruct (Hm _ _ Hin) as (_ & (r & Hr & <-) & _).
      exists r. by rewrite <- Hcalls.
    + intros (r & Hr & <-). apply Hcalls in Hr.
      destruct (Hs r Hr) as (d & Hd & _).
      exists (Models.IP r, d). split; [done|]. by apply elem_of_map_to_list.
  - intros d p Hd Hp. apply Hdev in Hd as [k Hk].
    destruct (Hm _ _ Hk) as (<- & _ & Hprot).
    destruct (Hprot p Hp) as (r & Hr & ? & ?). exists r. by rewrite <- Hcalls.
  - intros r p Hr Hp. apply Hcalls in Hr.
    destruct (Hs r Hr) as (d & Hd & Hkeys).
    specialize (Hkeys p Hp). unfold keys in Hkeys.
    apply list_elem_of_fmap in Hkeys as (q & Hkey & Hq).
    exists d, q. split; [apply Hdev; eauto|].
    split; [by destruct (Hm _ _ Hd) as [-> _]|]. split; [done|].
    symmetry. by apply protocolKey_endpoint.
Qed.


(* --------------------------------------------------------------------- *)
(** ** internal/registry: histories, counts, queries, cache              *)
(* --------------------------------------------------------------------- *)

Section RegistryInvariant.
Import Models.

Lemma applyOp_wellKept (t now : Time) (r : Registry.DeviceRegistry)
    (o : registryOp) :
  t ≤ now → wellKept t r → wellKept now (applyOp r (now, o)).
Proof.
  intros Ht Hr. destruct o as [device|ip| |devs|]; cbn [applyOp].
  - unfold Registry.AddDevice.
    destruct (Registry.devices r !! IP device) as [existing|] eqn:He;
      intros k d; cbn [Registry.devices];
      (destruct (decide (k = IP device)) as [->|Hne];
       [rewrite lookup_insert_eq; intros [= <-]; cbn
       |rewrite lookup_insert_ne by done; intros Hk;
        destruct (Hr _ _ Hk) as (? & ? & ?); repeat split; lia || done]).
    + destruct (Hr _ _ He) as (? & ? & ?). repeat split; lia || done.
    + repeat split; lia || done.
  - intros k d. cbn [Registry.RemoveDevice Registry.devices].
    intros Hk. apply lookup_delete_Some in Hk as [_ Hk].
    destruct (Hr _ _ Hk) as (? & ? & ?). repeat split; lia || done.
  - intros k d. cbn. by rewrite lookup_empty.
  - intros k d Hk. destruct (Hr _ _ Hk) as (? & ? & ?). repeat split; lia || done.
  - intros k d Hk. destruct (Hr _ _ Hk) as (? & ? & ?). repeat split; lia || done.
Qed.

Lemma replay_wellKept (history : list (Time * registryOp)) :
  ∀ (t : Time) (r : Registry.DeviceRegistry),
    chronological t history → wellKept t r →
    ∃ t', wellKept t' (replay r history).
Proof.
  induction history as [|[now o] history IH]; intros t r Hc Hr.
  - by exists t.
  - destruct Hc as [Ht Hc]. cbn [replay fold_left].
    apply (IH now); [done|]. by apply (applyOp_wellKept t).
Qed.

End RegistryInvariant.

(** X24: the registry files every device under its own address and
    never records it as seen before it was discovered.  After any history
    of AddDevice, RemoveDevice, Clear, SaveToCache and ClearCache on a new
    registry, run with a clock that does not go backwards, a device found
    under an address has that address as its IP and a discovery time no
    later than its last-seen time. *)
Theorem registry_entries_keyed_and_dated
    (cacheTTL : Z) (since : Time) (history : list (Time * registryOp))
    (ip : string) (d : Models.Device) :
  chronological since history →
  Registry.GetDevice (replay (Registry.NewDeviceRegistry cacheTTL) history) ip
  = Some d →
  Models.IP d = ip ∧ Models.DiscoveredAt d ≤ Models.LastSeen d.
Proof.
  intros Hc Hd.
  destruct (replay_wellKept history since (Registry.NewDeviceRegistry cacheTTL) Hc)
    as [t Ht].
  { intros k d'. cbn. by rewrite lookup_empty. }
  destruct (Ht _ _ Hd) as (? & ? & _). done.
Qed.

(** The statement on the camera 192.168.1.100, added at instant 100 and
    reported again at instant 200. *)
Lemma registry_entries_keyed_and_dated_witness :
  Models.IP camera_01_seen_again = "192.168.1.100"
  ∧ Models.DiscoveredAt camera_01_seen_again
    ≤ Models.LastSeen camera_01_seen_again.
Proof.
  apply (registry_entries_keyed_and_dated 3600 0
           [(50, OpAddDevice swept); (100, OpAddDevice camera_01);
            (150, OpRemoveDevice "10.0.0.5"); (200, OpAddDevice bare_report)]
           "192.168.1.100" camera_01_seen_again).
  - simpl. lia.
  - vm_compute. reflexivity.
Defined.

(** X25: the device count follows the addresses.  AddDevice raises the
    count by one for an address the registry does not hold and leaves it
    unchanged otherwise; RemoveDevice lowers it by one for an address it
    holds and leaves it unchanged otherwise; UpdateDeviceState never
    changes it; Clear sets it to 0; and it is the length of what
    GetAllDevices returns. *)
Theorem GetDeviceCount_counts_addresses
    (now : Time) (r : Registry.DeviceRegistry) (device : Models.Device)
    (ip : string) (updateFunc : Models.Device → Models.Device) :
  Registry.GetDeviceCount (Registry.AddDevice now r device)
  = Registry.GetDeviceCount r
    + match Registry.GetDevice r (Models.IP device) with
      | Some _ => 0
      | None => 1
      end
  ∧ Registry.GetDeviceCount (Registry.RemoveDevice r ip)
    = Registry.GetDeviceCount r
      - match Registry.GetDevice r ip with Some _ => 1 | None => 0 end
  ∧ Registry.GetDeviceCount (Registry.UpdateDeviceState now r ip updateFunc).1
    = Registry.GetDeviceCount r
  ∧ Registry.GetDeviceCount (Registry.Clear r) = 0
  ∧ Registry.GetDeviceCount r = Z.of_nat (length (Registry.GetAllDevices r)).
Proof.
  unfold Registry.GetDeviceCount, Registry.GetDevice, Registry.AddDevice,
    Registry.RemoveDevice, Registry.UpdateDeviceState, Registry.Clear,
    Registry.GetAllDevices.
  split; [|split; [|split; [|split]]].
  - destruct (Registry.devices r !! Models.IP device) eqn:He; cbn.
    + rewrite map_size_insert_Some by eauto. lia.
    + rewrite map_size_insert_None by done. lia.
  - cbn. destruct (Registry.devices r !! ip) eqn:He.
    + rewrite map_size_delete_Some by eauto.
      assert (size (Registry.devices r) ≠ 0%nat); [|lia].
      intros Hz. apply map_size_empty_inv in Hz. by rewrite Hz, lookup_empty in He.
    + rewrite map_size_delete_None by done. lia.
  - destruct (Registry.devices r !! ip) eqn:He; cbn; [|done].
    by rewrite map_size_insert_Some by eauto.
  - cbn. by rewrite map_size_empty.
  - by rewrite length_fmap, length_map_to_list.
Qed.

Section RegistryQueries.
Import Models.

Lemma filterLoop_spec (filterFunc : Device → bool)
    (entries : list (string * Device)) (acc : list Device) :
  Registry.filterLoop filterFunc entries acc
  = acc ++ List.filter filterFunc entries.*2.
Proof.
  revert acc. induction entries as [|[k d] entries IH]; intros acc;
    cbn [Registry.filterLoop fmap list_fmap List.filter snd].
  - by rewrite app_nil_r.
  - rewrite IH. destruct (filterFunc d); [|done]. by rewrite <- app_assoc.
Qed.

Lemma FilterDevices_elem (r : Registry.DeviceRegistry)
    (filterFunc : Device → bool) (d : Device) :
  d ∈ Registry.FilterDevices r filterFunc
  ↔ (∃ ip, Registry.GetDevice r ip = Some d) ∧ filterFunc d = true.
Proof.
  unfold Registry.FilterDevices, Registry.GetDevice.
  rewrite filterLoop_spec, app_nil_l, list_elem_of_In, filter_In,
    <- list_elem_of_In, list_elem_of_fmap.
  split.
  - intros [([k d'] & -> & Hin) Hf]. split; [|done].
    exists k. by apply elem_of_map_to_list.
  - intros [[k Hk] Hf]. split; [|done].
    exists (k, d). split; [done|]. by apply elem_of_map_to_list.
Qed.

Lemma hasProtocol_spec (tag : string) (protocols : list Protocol) :
  Registry.hasProtocol tag protocols = true
  ↔ ∃ p, p ∈ protocols ∧ Type_ p = tag.
Proof.
  induction protocols as [|p protocols IH]; cbn [Registry.hasProtocol].
  - split; [done|]. intros (p & Hp & _). by apply elem_of_nil in Hp.
  - case_bool_decide as Hp.
    + split; [|done]. intros _. exists p. split; [by left|done].
    + rewrite IH. split.
      * intros (q & Hq & Ht). exists q. split; [by right|done].
      * intros (q & Hq & Ht). apply elem_of_cons in Hq as [->|Hq]; [done|].
        by exists q.
Qed.

End RegistryQueries.

(** X26: the queries select registered devices.  GetDevicesByProtocol
    returns exactly the registered devices that have a protocol entry
    with the given tag, GetDevicesWithRTSP exactly those with at least
    one RTSP stream, and GetAllDevices exactly the registered devices. *)
Theorem registry_queries_select_registered_devices
    (r : Registry.DeviceRegistry) (tag : string) (d : Models.Device) :
  (d ∈ Registry.GetDevicesByProtocol r tag
   ↔ (∃ ip, Registry.GetDevice r ip = Some d)
     ∧ ∃ p, p ∈ Models.Protocols d ∧ Models.Type_ p = tag)
  ∧ (d ∈ Registry.GetDevicesWithRTSP r
     ↔ (∃ ip, Registry.GetDevice r ip = Some d) ∧ Models.RTSPStreams d ≠ [])
  ∧ (d ∈ Registry.GetAllDevices r ↔ ∃ ip, Registry.GetDevice r ip = Some d).
Proof.
  split; [|split].
  - unfold Registry.GetDevicesByProtocol.
    by rewrite FilterDevices_elem, hasProtocol_spec.
  - unfold Registry.GetDevicesWithRTSP. rewrite FilterDevices_elem.
    destruct (Models.RTSPStreams d); cbn; naive_solver.
  - unfold Registry.GetAllDevices, Registry.GetDevice.
    rewrite list_elem_of_fmap. split.
    + intros ([k d'] & -> & Hin). exists k. by apply elem_of_map_to_list.
    + intros [k Hk]. exists (k, d). split; [done|]. by apply elem_of_map_to_list.
Qed.

Section CacheLast.
Import Models.

Lemma lastReport_IP (ip : string) (devs : list Device) (d : Device) :
  lastReport ip devs = Some d → IP d = ip ∧ d ∈ devs.
Proof.
  unfold lastReport. intros Hl. apply last_Some_elem_of in Hl.
  apply list_elem_of_In, filter_In in Hl as [Hin Hip].
  apply bool_decide_eq_true_1 in Hip. split; [done|]. by apply list_elem_of_In.
Qed.

Lemma cacheAll_lookup (expiresAt : Time) (devs : list Device) :
  ∀ (m : gmap string Registry.CachedDevice) (k : string),
    Registry.cacheAll devs expiresAt m !! k
    = match lastReport k devs with
      | Some d => Some {| Registry.Device_ := d; Registry.ExpiresAt := expiresAt |}
      | None => m !! k
      end.
Proof.
  induction devs as [|d devs IH]; intros m k; [done|].
  cbn [Registry.cacheAll]. rewrite IH. unfold lastReport.
  cbn [List.filter]. case_bool_decide as Hk.
  - rewrite last_cons. destruct (last _); [done|].
    by rewrite Hk, lookup_insert_eq.
  - destruct (last _); [done|]. by rewrite lookup_insert_ne.
Qed.

End CacheLast.

(** X27: the cache keeps the last report of each address.  A read of
    the cache before the snapshot expires returns no two devices with the
    same IP, and returns a device exactly when it is the last one of the
    saved list with its IP: earlier devices of the same address are
    dropped. *)
Theorem GetFromCache_keeps_last_report_per_address
    (r : Registry.DeviceRegistry) (devs : list Models.Device)
    (last_scan t : Time) :
  last_scan ≠ 0 →
  t < last_scan + Registry.defaultTTL (Registry.cache r) →
  let found :=
    (Registry.GetFromCache t (Registry.SaveToCache last_scan r devs)).1 in
  NoDup (Models.IP <$> found)
  ∧ ∀ d, d ∈ found ↔ lastReport (Models.IP d) devs = Some d.
Proof.
  intros Hsaved Ht found. subst found.
  unfold Registry.GetFromCache, Registry.SaveToCache. cbn.
  unfold IsZero, After.
  rewrite (proj2 (Z.eqb_neq _ _) Hsaved), (proj2 (Z.ltb_ge _ _)) by lia.
  cbn. rewrite collectValid_spec, filter_all.
  2:{ eapply Forall_impl; [apply saved_entries_expiry|].
      intros c ->. unfold Before. apply Z.ltb_lt. lia. }
  cbn [app].
  set (M := Registry.cacheAll devs _ ∅).
  assert ((if bool_decide (length (Registry.Device_ <$> (map_to_list M).*2) = 0%nat)
           then ([], false) else (Registry.Device_ <$> (map_to_list M).*2, true)).1
          = Registry.Device_ <$> (map_to_list M).*2) as ->.
  { case_bool_decide as Hlen; [|done]. cbn.
    apply length_zero_iff_nil in Hlen. by rewrite Hlen. }
  assert (∀ k c, M !! k = Some c →
            lastReport k devs = Some (Registry.Device_ c)) as HM.
  { intros k c. subst M. rewrite cacheAll_lookup.
    destruct (lastReport k devs); [by intros [= <-]|by rewrite lookup_empty]. }
  split.
  - assert (Models.IP <$> (Registry.Device_ <$> (map_to_list M).*2)
            = (map_to_list M).*1) as ->.
    { rewrite <- !list_fmap_compose. apply list_fmap_ext.
      intros i [k c] Hin. apply list_elem_of_lookup_2, elem_of_map_to_list in Hin.
      cbn. by apply HM, lastReport_IP in Hin as [-> _]. }
    apply NoDup_fst_map_to_list.
  - intros d. rewrite <- list_fmap_compose, list_elem_of_fmap. split.
    + intros ([k c] & -> & Hin). apply elem_of_map_to_list in Hin. cbn.
      pose proof (HM _ _ Hin) as Hl.
      by destruct (lastReport_IP _ _ _ Hl) as [-> _].
    + intros Hl.
      exists (Models.IP d, {| Registry.Device_ := d;
                              Registry.ExpiresAt :=
                                last_scan + Registry.defaultTTL (Registry.cache r) |}).
      split; [done|]. apply elem_of_map_to_list. subst M.
      by rewrite cacheAll_lookup, Hl.
Qed.

(** The statement on a snapshot that holds two reports of 10.0.0.5. *)
Lemma GetFromCache_keeps_last_report_per_address_witness :
  let found :=
    (Registry.GetFromCache 101
       (Registry.SaveToCache 100 (Registry.NewDeviceRegistry 3600)
          [swept; announced])).1 in
  NoDup (Models.IP <$> found)
  ∧ ∀ d, d ∈ found ↔ lastReport (Models.IP d) [swept; announced] = Some d.
Proof.
  apply (GetFromCache_keeps_last_report_per_address
           (Registry.NewDeviceRegistry 3600) [swept; announced] 100 101).
  - lia.
  - simpl. lia.
Defined.


(* --------------------------------------------------------------------- *)
(** ** internal/scanner/upnp.go: SSDP replies                            *)
(* --------------------------------------------------------------------- *)

Lemma digitRun_digits (ds : string) :
  ∀ val digLen r c,
    digitRun ds val digLen = Some r → isDigit c = false → noByte c ds = true.
Proof.
  induction ds as [|d ds IH]; intros val digLen r c Hrun Hc; [done|].
  cbn [digitRun noByte] in *. destruct (isDigit d) eqn:Hd; [|discriminate].
  destruct ((digLen =? 1)%nat && (val =? 0)); [discriminate|].
  destruct (255 <? val * 10 + digitVal d); [discriminate|].
  rewrite (IH _ _ _ _ Hrun Hc), andb_true_r. apply negb_true_iff.
  destruct (Ascii.eqb_spec d c) as [->|]; [congruence|done].
Qed.

Lemma itoa_byte_digits (x : Z) :
  byte x →
  (∀ c, isDigit c = false → noByte c (Fmt.itoa x) = true)
  ∧ ∃ d r, Fmt.itoa x = String d r ∧ isDigit d = true.
Proof.
  intros Hx. destruct (itoa_byte x Hx) as (n & Hrun & d & r & Hi). split.
  - intros c Hc. by eapply digitRun_digits.
  - exists d, r. split; [done|]. rewrite Hi in Hrun. cbn [digitRun] in Hrun.
    by destruct (isDigit d).
Qed.

Lemma String_digits (ip : Net.IP) :
  isIPv4 ip →
  (∀ c, isDigit c = false → c ≠ "."%char → noByte c (Net.String_ ip) = true)
  ∧ ∃ d r, Net.String_ ip = String d r ∧ isDigit d = true.
Proof.
  intros (a & b & c & d & -> & Ha & Hb & Hc & Hd). cbn [Net.String_].
  destruct (itoa_byte_digits a Ha) as (Na & da & ra & Hia & Hda).
  destruct (itoa_byte_digits b Hb) as (Nb & _).
  destruct (itoa_byte_digits c Hc) as (Nc & _).
  destruct (itoa_byte_digits d Hd) as (Nd & _).
  split.
  - intros x Hx Hdot. rewrite !noByte_app, Na, Nb, Nc, Nd by done.
    cbn [noByte andb]. destruct (Ascii.eqb_spec "." x); [congruence|done].
  - rewrite Hia. rewrite append_cons. eauto.
Qed.

Lemma TrimPrefix_digit (d : ascii) (r prefix : string) (h : ascii) (p : string) :
  prefix = String h p → isDigit h = false → isDigit d = true →
  TrimPrefix (String d r) prefix = String d r.
Proof.
  intros -> Hh Hd. unfold TrimPrefix, HasPrefix. cbn [String.prefix].
  destruct (ascii_dec h d) as [->|]; [congruence|done].
Qed.

Lemma stripped (scheme : string) (d : ascii) (r : string) :
  scheme ∈ [EmptyString; "http://"; "https://"] → isDigit d = true →
  TrimPrefix (TrimPrefix (scheme +:+ String d r) "http://") "https://"
  = String d r.
Proof.
  intros Hs Hd.
  assert (∀ p, TrimPrefix (String d r) (String "h" p) = String d r) as Hno
    by (intros p; by eapply TrimPrefix_digit).
  apply elem_of_cons in Hs as [->|Hs]; [by rewrite append_nil_l, !Hno|].
  apply elem_of_cons in Hs as [->|Hs].
  - change (TrimPrefix ("http://" +:+ String d r) "http://") with (String d r).
    apply Hno.
  - apply list_elem_of_singleton in Hs as ->.
    change (TrimPrefix ("https://" +:+ String d r) "http://")
      with ("https://" +:+ String d r).
    reflexivity.
Qed.

Lemma first_part (hostPort path : string) :
  noByte "/" hostPort = true →
  path = EmptyString ∨ HasPrefix path "/" = true →
  Split (hostPort +:+ path) "/" !! 0%nat = Some hostPort
  ∧ Split (hostPort +:+ path) "/" ≠ [].
Proof.
  intros Hno [->|Hpath].
  - rewrite append_nil_r, Split_no_sep by done. done.
  - destruct path as [|c path]; [discriminate|].
    unfold HasPrefix in Hpath. cbn [String.prefix] in Hpath.
    destruct (ascii_dec "/" c) as [<-|]; [|discriminate].
    rewrite Split_app_sep by done. done.
Qed.

Lemma not_https (d : ascii) (r : string) :
  isDigit d = true → HasPrefix (String d r) "https://" = false.
Proof.
  intros Hd. unfold HasPrefix. cbn [String.prefix].
  destruct (ascii_dec "h" d) as [<-|]; [discriminate|done].
Qed.

(** X29: the address and the port of a location.  For a location made
    of an optional scheme http:// or https://, an IPv4 address in dotted
    decimal, an optional :port and an optional path, [extractIPFromURL]
    returns the address and [extractPortFromURL] returns what [%d] reads
    in the port text; without a port the result is 80, for https://
    as well. *)
Theorem Location_address_and_port (Sscanf_d : string → Z)
    (scheme : string) (ip : Net.IP) (port path : string) :
  scheme ∈ [EmptyString; "http://"; "https://"] →
  isIPv4 ip →
  noByte ":" port = true → noByte "/" port = true →
  path = EmptyString ∨ HasPrefix path "/" = true →
  let host := Net.String_ ip in
  Upnp.extractIPFromURL (scheme +:+ host +:+ ":" +:+ port +:+ path) = Ok host
  ∧ Upnp.extractPortFromURL Sscanf_d (scheme +:+ host +:+ ":" +:+ port +:+ path)
    = Sscanf_d port
  ∧ Upnp.extractIPFromURL (scheme +:+ host +:+ path) = Ok host
  ∧ Upnp.extractPortFromURL Sscanf_d (scheme +:+ host +:+ path) = 80.
Proof.
  intros Hscheme Hip Hcolon Hslash Hpath host.
  destruct (String_digits ip Hip) as (Hno & d & r & Hhost & Hd).
  assert (noByte ":" host = true) as Hhc by (by apply Hno).
  assert (noByte "/" host = true) as Hhs by (by apply Hno).
  assert (noByte "/" (host +:+ ":" +:+ port) = true) as Hhp.
  { rewrite !noByte_app, Hhs, Hslash. done. }
  destruct (first_part (host +:+ ":" +:+ port) path Hhp Hpath) as [Hp1 Hn1].
  destruct (first_part host path Hhs Hpath) as [Hp2 Hn2].
  assert (Split (host +:+ ":" +:+ port) ":" = [host; port]) as Hsplit.
  { change (host +:+ ":" +:+ port) with (host +:+ String ":" port).
    rewrite Split_app_sep by done. by rewrite Split_no_sep. }
  assert (Split host ":" = [host]) as Hsplit2 by (by apply Split_no_sep).
  assert (∀ rest, TrimPrefix (TrimPrefix (scheme +:+ host +:+ rest) "http://")
                    "https://" = host +:+ rest) as Hstrip.
  { intros rest. subst host. rewrite Hhost, append_cons.
    by rewrite stripped. }
  assert (Net.ParseIP host = Some ip) as Hparse
    by (by apply parseIPv4_String).
  unfold Upnp.extractIPFromURL, Upnp.extractPortFromURL.
  rewrite (Hstrip (":" +:+ port +:+ path)), (Hstrip path).
  rewrite <- (append_assoc host ":" (port +:+ path)).
  rewrite <- (append_assoc (host +:+ ":") port path).
  rewrite (append_assoc host ":" port).
  rewrite (bool_decide_eq_false_2
             (length (Split ((host +:+ ":" +:+ port) +:+ path) "/") = 0%nat))
    by (intros Hlen; by apply length_zero_iff_nil in Hlen).
  rewrite (bool_decide_eq_false_2 (length (Split (host +:+ path) "/") = 0%nat))
    by (intros Hlen; by apply length_zero_iff_nil in Hlen).
  rewrite Hp1, Hp2. cbn [default from_option id].
  rewrite Hsplit, Hsplit2. cbn [lookup list_lookup default from_option id length].
  rewrite Hparse.
  rewrite (bool_decide_eq_true_2 (2 = 2)%nat) by done.
  rewrite (bool_decide_eq_false_2 (1 = 2)%nat) by done.
  repeat split; try done.
  subst host. rewrite Hhost, append_cons. by rewrite not_https.
Qed.

(** The statement at https://192.168.1.20, with and without :8080. *)
Lemma Location_address_and_port_witness :
  Upnp.extractIPFromURL ("https://" +:+ Net.String_ [192; 168; 1; 20] +:+ ":"
                         +:+ "8080" +:+ "/desc.xml")
  = Ok (Net.String_ [192; 168; 1; 20])
  ∧ Upnp.extractPortFromURL scanDecimal
      ("https://" +:+ Net.String_ [192; 168; 1; 20] +:+ ":" +:+ "8080"
       +:+ "/desc.xml") = scanDecimal "8080"
  ∧ Upnp.extractIPFromURL ("https://" +:+ Net.String_ [192; 168; 1; 20]
                           +:+ "/desc.xml")
    = Ok (Net.String_ [192; 168; 1; 20])
  ∧ Upnp.extractPortFromURL scanDecimal
      ("https://" +:+ Net.String_ [192; 168; 1; 20] +:+ "/desc.xml") = 80.
Proof.
  apply (Location_address_and_port scanDecimal "https://" [192; 168; 1; 20]
           "8080" "/desc.xml").
  - set_solver.
  - exists 192, 168, 1, 20. unfold byte. repeat split; lia.
  - reflexivity.
  - reflexivity.
  - right. reflexivity.
Defined.

Lemma matchManufacturer_fields (ToLower : string → string)
    (productName : string) (known : list string) (device : Models.Device) :
  let device' := Upnp.matchManufacturer ToLower productName known device in
  Models.IP device' = Models.IP device
  ∧ Models.Protocols device' = Models.Protocols device
  ∧ Models.Hostname device' = Models.Hostname device
  ∧ Models.Model device' = Models.Model device
  ∧ (Models.Manufacturer device' = Models.Manufacturer device
     ∨ Models.Manufacturer device' ∈ known).
Proof.
  induction known as [|mfg known IH]; cbn [Upnp.matchManufacturer].
  - naive_solver.
  - destruct (Contains _ _); cbn.
    + repeat split; try done. right. left.
    + destruct IH as (? & ? & ? & ? & [?|?]); repeat split; try done; auto.
      right. by right.
Qed.

Lemma serverParts_fields (ToLower : string → string) (parts : list string) :
  ∀ device,
    let device' := Upnp.serverParts ToLower parts device in
    Models.IP device' = Models.IP device
    ∧ Models.Protocols device' = Models.Protocols device
    ∧ Models.Hostname device' = Models.Hostname device
    ∧ Models.Model device' = Models.Model device
    ∧ (Models.Manufacturer device' = Models.Manufacturer device
       ∨ Models.Manufacturer device' ∈ Upnp.knownManufacturers).
Proof.
  induction parts as [|part parts IH]; intros device; cbn [Upnp.serverParts].
  - naive_solver.
  - set (d1 := if Contains part "/" then _ else _).
    assert (Models.IP d1 = Models.IP device
            ∧ Models.Protocols d1 = Models.Protocols device
            ∧ Models.Hostname d1 = Models.Hostname device
            ∧ Models.Model d1 = Models.Model device
            ∧ (Models.Manufacturer d1 = Models.Manufacturer device
               ∨ Models.Manufacturer d1 ∈ Upnp.knownManufacturers))
      as (H1 & H2 & H3 & H4 & H5).
    { subst d1. destruct (Contains part "/"); [|naive_solver].
      destruct (Split part "/") as [|productName ?]; [naive_solver|].
      apply matchManufacturer_fields. }
    destruct (IH d1) as (I1 & I2 & I3 & I4 & I5). cbn zeta.
    rewrite I1, I2, I3, I4, <- H1, <- H2, <- H3, <- H4.
    repeat split; try done.
    destruct I5 as [->|?]; [|by right]. done.
Qed.

Lemma extractIPFromURL_valid (url ip : string) :
  Upnp.extractIPFromURL url = Ok ip → Utils.ValidateIP ip = true.
Proof.
  unfold Upnp.extractIPFromURL. case_bool_decide; [discriminate|].
  destruct (Net.ParseIP _) as [bytes|] eqn:Hparse; [|discriminate].
  intros [= <-]. unfold Utils.ValidateIP.
  assert (isIPv4 bytes) as Hv.
  { unfold Net.ParseIP, Net.parseIPv4 in Hparse.
    eapply parseIPv4_loop_bytes; [exact Hparse|done|unfold byte; lia|simpl; lia]. }
  unfold Net.ParseIP. by rewrite parseIPv4_String.
Qed.

Lemma HasPrefix_https (u : string) :
  HasPrefix u "https://" = true → ∃ rest, u = "https://" +:+ rest.
Proof.
  unfold HasPrefix. intros Hp.
  repeat (destruct u as [|? u]; [discriminate Hp|];
          cbn [String.prefix] in Hp;
          match type of Hp with
          | (if ascii_dec ?a ?b then _ else _) = true =>
              destruct (ascii_dec a b) as [<-|]; [|discriminate Hp]
          end).
  by exists u.
Qed.

(** The branch of [extractPortFromURL] that returns 443 is never taken:
    a stripped URL that still starts with https:// has the host part
    https: and takes the branch of the explicit port. *)
Lemma extractPortFromURL_default (Sscanf_d : string → Z) (url : string) :
  Upnp.extractPortFromURL Sscanf_d url = 80
  ∨ ∃ port, Upnp.extractPortFromURL Sscanf_d url = Sscanf_d port.
Proof.
  unfold Upnp.extractPortFromURL.
  set (u := TrimPrefix (TrimPrefix url "http://") "https://").
  case_bool_decide as Hlen;
    [apply length_zero_iff_nil in Hlen; by destruct (Split_nonempty u "/")|].
  case_bool_decide; [eauto|].
  destruct (HasPrefix u "https://") eqn:Hp; [|auto].
  destruct (HasPrefix_https u Hp) as [rest Hu]. exfalso.
  rewrite Hu in *.
  change ("https://" +:+ rest) with ("https:" +:+ String "/" (String "/" rest)) in *.
  rewrite Split_app_sep in * by done. by cbn in *.
Qed.

(** X30: what an SSDP reply is turned into.  [parseSSDPResponse] rejects
    data that does not start with HTTP/1.1 or HTTP/1.0 and accepts
    everything else.  The device it returns has exactly one protocol
    entry: UPnP, available, with the Location header as URL and a
    positive port, which is 80 unless [%d] read it in the location.  Its
    address is the sender's or a valid IP address taken from the
    location; its manufacturer is empty or one of the seven known names;
    host name and model stay empty. *)
Theorem parseSSDPResponse_device `{Text} (ToLower : string → string)
    (Sscanf_d : string → Z) (now : nat → Time) (data sourceIP : string) :
  if HasPrefix data "HTTP/1.1" || HasPrefix data "HTTP/1.0" then
    ∃ device p,
      Upnp.parseSSDPResponse ToLower Sscanf_d now data sourceIP = Ok device
      ∧ Models.Protocols device = [p]
      ∧ Models.Type_ p = "UPnP" ∧ Models.Available p = true
      ∧ Models.URL p = Upnp.Location (Upnp.parseSSDPHeaders ToLower data)
      ∧ 0 < Models.Port p
      ∧ (Models.Port p = 80 ∨ ∃ port, Models.Port p = Sscanf_d port)
      ∧ (Models.IP device = sourceIP
         ∨ Utils.ValidateIP (Models.IP device) = true)
      ∧ (Models.Manufacturer device = EmptyString
         ∨ Models.Manufacturer device ∈ Upnp.knownManufacturers)
      ∧ Models.Hostname device = EmptyString
      ∧ Models.Model device = EmptyString
  else
    Upnp.parseSSDPResponse ToLower Sscanf_d now data sourceIP
    = Err "not an HTTP response".
Proof.
  unfold Upnp.parseSSDPResponse. rewrite <- negb_orb.
  destruct (HasPrefix data "HTTP/1.1" || HasPrefix data "HTTP/1.0");
    cbn [negb]; [|done].
  set (r := Upnp.parseSSDPHeaders ToLower data).
  unfold Upnp.parseUSN, Upnp.parseSearchTarget.
  set (deviceIP := if negb (bool_decide (Upnp.Location r = EmptyString))
                   then _ else sourceIP).
  set (port := if negb (bool_decide (Upnp.Location r = EmptyString))
               then _ else 80).
  set (p := {| Models.Type_ := "UPnP"; Models.Port := port |}).
  set (d0 := {| Models.IP := deviceIP |}).
  set (d1 := if negb (bool_decide (Upnp.Server r = EmptyString))
             then _ else d0).
  assert (Models.IP d1 = deviceIP ∧ Models.Protocols d1 = [p]
          ∧ Models.Hostname d1 = EmptyString ∧ Models.Model d1 = EmptyString
          ∧ (Models.Manufacturer d1 = EmptyString
             ∨ Models.Manufacturer d1 ∈ Upnp.knownManufacturers))
    as (H1 & H2 & H3 & H4 & H5).
  { subst d1. destruct (bool_decide (Upnp.Server r = EmptyString)); cbn [negb].
    - cbn. auto 10.
    - apply (serverParts_fields ToLower (Fields (Upnp.Server r)) d0). }
  assert (0 < port) as Hport.
  { subst port. destruct (bool_decide (Upnp.Location r = EmptyString));
      cbn [negb]; [lia|].
    destruct (Z.ltb_spec 0 (Upnp.extractPortFromURL Sscanf_d (Upnp.Location r)));
      lia. }
  assert (deviceIP = sourceIP ∨ Utils.ValidateIP deviceIP = true) as Hip.
  { subst deviceIP. destruct (bool_decide (Upnp.Location r = EmptyString));
      cbn [negb]; [by left|].
    destruct (Upnp.extractIPFromURL (Upnp.Location r)) eqn:Hx; [|by left].
    right. by eapply extractIPFromURL_valid. }
  assert (port = 80 ∨ ∃ text, port = Sscanf_d text) as Hdefault.
  { subst port. destruct (bool_decide (Upnp.Location r = EmptyString));
      cbn [negb]; [by left|].
    destruct (0 <? _); [|by left]. apply extractPortFromURL_default. }
  exists d1, p. rewrite H1.
  split; [by repeat destruct (negb _)|]. by repeat split.
Qed.
